(** * scripts/run_rm.py: reward-model evaluation driver

    A shallow embedding of [main] of [scripts/run_rm.py]: adapter selection
    from the model identifier and the chat-template name, dialogue
    formatting of the benchmark rows, the pad-token correction, the two
    inference modes with their pairwise verdicts, and the per-subset
    accuracy report.  The path of the report file is embedded on its
    own.

    Python values are embedded as the inductive [value]; dataset rows and
    other dicts are finite maps keyed by strings; floats are IEEE binary64
    in the form of [spec_float]; a raised exception is the [Raise] branch of
    [res]. *)

From Stdlib Require Import ZArith String Ascii List Bool Lia.
From Stdlib Require Import Floats.SpecFloat.
From stdpp Require Import gmap strings list fin_maps.

Set Warnings "-register-all".
Open Scope Z_scope.

(** ** Python values and exceptions *)

Inductive value :=
| VInt (z : Z)
| VFloat (f : spec_float)
| VStr (s : string)
| VList (l : list value)
| VDict (d : gmap string value).

Inductive exn :=
| KeyError
| TypeError
| IndexError
| ValueError
| AttributeError
| ZeroDivisionError
| OverflowError
| NotImplementedError
| PipelineError.

Inductive res (A : Type) :=
| Ok (a : A)
| Raise (e : exn).
Arguments Ok {A} a.
Arguments Raise {A} e.

Definition res_bind {A B} (m : res A) (k : A -> res B) : res B :=
  match m with
  | Ok a => k a
  | Raise e => Raise e
  end.

Notation "'let*' x ':=' m 'in' k" := (res_bind m (fun x => k))
  (at level 10, x name, m at level 100, k at level 200,
   format "'[v' 'let*'  x  ':='  m  'in' '/' k ']'").
Notation "'let*' ' pat ':=' m 'in' k" :=
  (res_bind m (fun x => match x with pat => k end))
  (at level 10, pat pattern, m at level 100, k at level 200,
   format "'[v' 'let*'  ' pat  ':='  m  'in' '/' k ']'").

Fixpoint res_mapM {A B} (f : A -> res B) (l : list A) : res (list B) :=
  match l with
  | [] => Ok []
  | x :: l' => let* y := f x in let* ys := res_mapM f l' in Ok (y :: ys)
  end.

(** A dataset row ([example] in the source) is a dict from column names to
    values. *)
Abbreviation example := (gmap string value).

(** [d[k]] on a dict. *)
Definition getitem (d : example) (k : string) : res value :=
  match d !! k with
  | Some v => Ok v
  | None => Raise KeyError
  end.

(** ** Substring test: [needle in hay] on Python strings *)

Fixpoint starts_with (needle hay : string) : bool :=
  match needle, hay with
  | EmptyString, _ => true
  | String _ _, EmptyString => false
  | String a needle', String b hay' =>
      if Ascii.eqb a b then starts_with needle' hay' else false
  end.

Fixpoint in_str (needle hay : string) : bool :=
  starts_with needle hay ||
  match hay with
  | EmptyString => false
  | String _ hay' => in_str needle hay'
  end.

(** [needle] occurs in [hay]: some text, then [needle], then some text. *)
Definition occurs_in (needle hay : string) : Prop :=
  exists pre post, hay = pre +:+ needle +:+ post.

(** ** Adapter selection (lines 93-126) *)

Inductive model_builder_t :=
| AutoModelForSequenceClassification_from_pretrained
| build_starling_rm
| LlamaRewardModel_from_pretrained
| DebertaV2PairRM_from_pretrained
| T5ForConditionalGeneration_from_pretrained.

Inductive pipeline_builder_t :=
| pipeline
| StarlingPipeline
| OpenBMBPipeline
| PairRMPipeline
| SHPPipeline.

Record adapter := {
  model_builder : model_builder_t;
  pipeline_builder : pipeline_builder_t;
  quantized : bool;
  custom_dialogue : bool
}.

Definition pipeline_builder_eqb (a b : pipeline_builder_t) : bool :=
  match a, b with
  | pipeline, pipeline
  | StarlingPipeline, StarlingPipeline
  | OpenBMBPipeline, OpenBMBPipeline
  | PairRMPipeline, PairRMPipeline
  | SHPPipeline, SHPPipeline => true
  | _, _ => false
  end.

(** The if/elif chain at the top of [main].  [quantized] and
    [custom_dialogue] start at their defaults and are overwritten in the
    branches that assign them. *)
Definition select_adapter (model chat_template : string) : adapter :=
  let quantized0 := true in
  let custom_dialogue0 := false in
  if in_str "oasst" model || in_str "oasst" chat_template then
    {| model_builder := AutoModelForSequenceClassification_from_pretrained;
       pipeline_builder := pipeline;
       quantized := quantized0;
       custom_dialogue := custom_dialogue0 |}
  else if in_str "Starling" model || in_str "Starling" chat_template then
    {| model_builder := build_starling_rm;
       pipeline_builder := StarlingPipeline;
       quantized := false;
       custom_dialogue := custom_dialogue0 |}
  else if in_str "openbmb" model || in_str "openbmb" chat_template then
    {| model_builder := LlamaRewardModel_from_pretrained;
       pipeline_builder := OpenBMBPipeline;
       quantized := quantized0;
       custom_dialogue := custom_dialogue0 |}
  else if in_str "PairRM" model || in_str "PairRM" chat_template then
    {| model_builder := DebertaV2PairRM_from_pretrained;
       pipeline_builder := PairRMPipeline;
       quantized := quantized0;
       custom_dialogue := true |}
  else if in_str "SHP" model || in_str "SHP" chat_template then
    {| model_builder := T5ForConditionalGeneration_from_pretrained;
       pipeline_builder := SHPPipeline;
       quantized := quantized0;
       custom_dialogue := true |}
  else
    {| model_builder := AutoModelForSequenceClassification_from_pretrained;
       pipeline_builder := pipeline;
       quantized := quantized0;
       custom_dialogue := custom_dialogue0 |}.

(** The registry as the specification words it: an ordered table of
    (discriminating substring, adapter descriptor) entries scanned in
    order, the first entry whose substring occurs in the model identifier
    or in the template name wins, and a generic fallback when none does. *)
Definition generic_adapter : adapter :=
  {| model_builder := AutoModelForSequenceClassification_from_pretrained;
     pipeline_builder := pipeline;
     quantized := true;
     custom_dialogue := false |}.

Definition spec_registry : list (string * adapter) :=
  [ ("oasst",
     {| model_builder := AutoModelForSequenceClassification_from_pretrained;
        pipeline_builder := pipeline;
        quantized := true; custom_dialogue := false |});
    ("Starling",
     {| model_builder := build_starling_rm;
        pipeline_builder := StarlingPipeline;
        quantized := false; custom_dialogue := false |});
    ("openbmb",
     {| model_builder := LlamaRewardModel_from_pretrained;
        pipeline_builder := OpenBMBPipeline;
        quantized := true; custom_dialogue := false |});
    ("PairRM",
     {| model_builder := DebertaV2PairRM_from_pretrained;
        pipeline_builder := PairRMPipeline;
        quantized := true; custom_dialogue := true |});
    ("SHP",
     {| model_builder := T5ForConditionalGeneration_from_pretrained;
        pipeline_builder := SHPPipeline;
        quantized := true; custom_dialogue := true |}) ].

Definition entry_matches (model chat_template : string)
    (entry : string * adapter) : bool :=
  in_str (fst entry) model || in_str (fst entry) chat_template.

Fixpoint spec_first_match (table : list (string * adapter))
    (model chat_template : string) : adapter :=
  match table with
  | [] => generic_adapter
  | entry :: table' =>
      if entry_matches model chat_template entry then snd entry
      else spec_first_match table' model chat_template
  end.

(** ** Datasets

    A [Dataset] of the [datasets] library is kept row-wise: the list of its
    rows in order.  A column exists when every row carries it.

    Two things the library does are outside this representation.  A
    dataset without rows still has its columns in the library, and here it
    has no row to carry them.  And the library encodes what a row function
    returns into Arrow, which refuses a column whose values have no common
    type; the encoding is not checked here.  The properties that state that
    a step succeeds are therefore stated for datasets that have a row and
    whose fields are strings. *)
Abbreviation dataset := (list example).

Definition has_column (ds : dataset) (name : string) : bool :=
  forallb (fun ex : example => bool_decide (is_Some (ex !! name))) ds.

(** [ds[name]]: the values of one column, in row order. *)
Definition column (ds : dataset) (name : string) : res (list value) :=
  res_mapM (fun ex : example => getitem ex name) ds.

Definition drop_columns (names : list string) (ex : example) : example :=
  foldr delete ex names.

(** [ds.map(function, remove_columns=names)]: the library refuses names
    that are not columns, applies [function] to the rows one at a time in
    order, and the listed columns are not part of the rows it returns.  An
    exception raised by [function] aborts the whole call.  ([num_proc] only
    shards the work and is not modelled.) *)
Definition Dataset_map (function : example -> res example)
    (remove_columns : list string) (ds : dataset) : res dataset :=
  if forallb (has_column ds) remove_columns then
    res_mapM
      (fun ex =>
         let* ex' := function ex in
         Ok (drop_columns remove_columns ex'))
      ds
  else Raise ValueError.

(** ** Dialogue formatting (lines 185-232) *)

(** The dict [{"role": role, "content": content}]. *)
Definition turn (role : string) (content : value) : value :=
  VDict (<["content" := content]> (<["role" := VStr role]> ∅)).

(** [a + b] where [b] is a list display: list concatenation, a [TypeError]
    for any left operand that is not a list. *)
Definition list_add (a : value) (b : list value) : res value :=
  match a with
  | VList l => Ok (VList (l ++ b))
  | _ => Raise TypeError
  end.

Definition make_conversation (prompt answer : value) : value :=
  let out := [turn "user" prompt; turn "assistant" answer] in
  VList out.

Definition map_conversations (example0 : example) : res example :=
  let* prompt := getitem example0 "prompt" in
  let* chosen := getitem example0 "chosen" in
  let example1 :=
    <["text_chosen" := make_conversation prompt chosen]> example0 in
  let* prompt' := getitem example1 "prompt" in
  let* rejected := getitem example1 "rejected" in
  let example2 :=
    <["text_rejected" := make_conversation prompt' rejected]> example1 in
  Ok example2.

Definition map_conversations_testsets (example0 : example) : res example :=
  let* prompt := getitem example0 "prompt" in
  let* chosen := getitem example0 "chosen" in
  let* text_chosen := list_add prompt [turn "assistant" chosen] in
  let example1 := <["text_chosen" := text_chosen]> example0 in
  let* rejected := getitem example1 "rejected" in
  let* text_rejected := list_add prompt [turn "assistant" rejected] in
  let example2 := <["text_rejected" := text_rejected]> example1 in
  Ok example2.

(** ** Pad-token correction (lines 276-278) *)

Record tokenizer_t := {
  pad_token_id : option Z;
  eos_token_id : option Z
}.

(** The two objects the correction writes to: [reward_pipe.tokenizer] and
    [reward_pipe.model.config.pad_token_id]. *)
Record pipe_state := {
  pipe_tokenizer : tokenizer_t;
  model_config_pad_token_id : option Z
}.

Definition set_pad_token (reward_pipe : pipe_state) : pipe_state :=
  match pad_token_id (pipe_tokenizer reward_pipe) with
  | None =>
      let eos := eos_token_id (pipe_tokenizer reward_pipe) in
      {| pipe_tokenizer := {| pad_token_id := eos; eos_token_id := eos |};
         model_config_pad_token_id := eos |}
  | Some _ => reward_pipe
  end.

(** ** Scores and verdicts *)

Definition prec : Z := 53.
Definition emax : Z := 1024.

(** An element of a tensor after [.tolist()]: a float or a bool. *)
Inductive scalar :=
| SFloat (f : spec_float)
| SBool (b : bool).

(** [True] and [False] compare as the integers 1 and 0. *)
Definition bool_as_float (b : bool) : spec_float :=
  if b then SFone prec emax else S754_zero false.

Definition scalar_as_float (x : scalar) : spec_float :=
  match x with
  | SFloat f => f
  | SBool b => bool_as_float b
  end.

(** [a > b]. *)
Definition py_gt (a b : scalar) : bool :=
  SFltb (scalar_as_float b) (scalar_as_float a).

(** Truth value of a scalar: a float is false exactly when it equals zero. *)
Definition truthy (x : scalar) : bool :=
  match x with
  | SFloat f => negb (SFeqb f (S754_zero false))
  | SBool b => b
  end.

(** [[1 if chosen > rejected else 0 for chosen, rejected in zip(...)]]
    (line 299). *)
Definition pairwise (score_chosen score_rejected : list scalar) : list Z :=
  map (fun '(chosen, rejected) => if py_gt chosen rejected then 1 else 0)
      (zip score_chosen score_rejected).

(** The comprehension of lines 358-361, which appends to [results]. *)
Definition append_pairwise (results : list Z)
    (score_chosen score_rejected : list scalar) : list Z :=
  fold_left
    (fun results '(chosen, rejected) =>
       if py_gt chosen rejected then results ++ [1] else results ++ [0])
    (zip score_chosen score_rejected) results.

(** The comprehension of line 342 over the native judgments. *)
Definition append_native (results : list Z) (results_sub : list scalar)
    : list Z :=
  fold_left
    (fun results result =>
       if truthy result then results ++ [1] else results ++ [0])
    results_sub results.

(** ** What a pipeline call returns *)

(** One entry of a text-classification result,
    [{'label': 'LABEL_1', 'score': 0.6826171875}]. *)
Record result_t := {
  label : string;
  score : spec_float
}.

(** A pipeline returns a list of such dicts or a one-dimensional tensor. *)
Inductive pipe_output :=
| OutDicts (l : list result_t)
| OutTensor (t : list scalar).

(** [[result["score"] for result in out]]: an element of a tensor cannot
    be indexed by a string. *)
Definition dict_scores (out : pipe_output) : res (list scalar) :=
  match out with
  | OutDicts l => Ok (map (fun result => SFloat (score result)) l)
  | OutTensor [] => Ok []
  | OutTensor (_ :: _) => Raise IndexError
  end.

(** [out.cpu().numpy().tolist()]: a list has no [cpu] attribute. *)
Definition tolist (out : pipe_output) : res (list scalar) :=
  match out with
  | OutTensor t => Ok t
  | OutDicts _ => Raise AttributeError
  end.

(** [isinstance(out[0], dict)]. *)
Definition first_is_dict (out : pipe_output) : res bool :=
  match out with
  | OutDicts (_ :: _) => Ok true
  | OutTensor (_ :: _) => Ok false
  | OutDicts [] | OutTensor [] => Raise IndexError
  end.

(** ** Batching *)

Fixpoint chunks_fuel {A} (fuel n : nat) (l : list A) : list (list A) :=
  match fuel with
  | O => []
  | S fuel' =>
      match l with
      | [] => []
      | _ :: _ => take n l :: chunks_fuel fuel' n (drop n l)
      end
  end.

(** Consecutive batches of [n] rows, the last one possibly shorter
    ([shuffle=False], [drop_last=False]). *)
Definition chunks {A} (n : nat) (l : list A) : list (list A) :=
  chunks_fuel (length l) n l.

(** [DataLoader(dataset, batch_size=...)] rejects a batch size that is not
    positive; a batch size that does not fit a machine index
    ([sys.maxsize] is 2^63 - 1) makes the batch sampler raise an
    [OverflowError] when the loop asks for the first batch.  (A batch size
    below that bound but beyond the memory of the machine exhausts it; the
    statements below keep the batch size within the number of rows.) *)
Definition DataLoader (ds : dataset) (batch_size : Z)
    : res (list (list example)) :=
  if batch_size <=? 0 then Raise ValueError
  else if 2 ^ 63 <=? batch_size then Raise OverflowError
  else Ok (chunks (Z.to_nat batch_size) ds).

(** A batch after collation: the rows as they are, or the dict of columns
    built by [default_collate]. *)
Inductive batch_t :=
| Rows (b : list example)
| Collated (d : example).

(** [v[0]]. *)
Definition index0 (v : value) : res value :=
  match v with
  | VList (x :: _) => Ok x
  | VList [] => Raise IndexError
  | VStr (String c _) => Ok (VStr (String c EmptyString))
  | VStr EmptyString => Raise IndexError
  | VDict _ => Raise KeyError
  | VInt _ | VFloat _ => Raise TypeError
  end.

Definition is_dict (v : value) : bool :=
  match v with
  | VDict _ => true
  | _ => false
  end.

(** [[b[name] for b in batch]]: over a collated dict the loop variable is a
    key, a string, which cannot be indexed by a string. *)
Definition batch_column (batch : batch_t) (name : string)
    : res (list value) :=
  match batch with
  | Rows b => res_mapM (fun ex : example => getitem ex name) b
  | Collated d =>
      match map_to_list d with
      | [] => Ok []
      | _ :: _ => Raise TypeError
      end
  end.

(** [batch[name]]: a list of rows cannot be indexed by a string. *)
Definition batch_getitem (batch : batch_t) (name : string) : res value :=
  match batch with
  | Rows _ => Raise TypeError
  | Collated d => getitem d name
  end.

(** The substring test that guards the pairwise branch (lines 333-338). *)
Definition pairwise_native (model chat_template : string) : bool :=
  in_str "PairRM" model || in_str "PairRM" chat_template
  || in_str "SHP" model || in_str "SHP" chat_template.

Inductive mode :=
| UniformBatched
| ManualBatchLoop.

(** The test of line 285. *)
Definition inference_mode (direct_load : bool)
    (pipeline_builder0 : pipeline_builder_t) : mode :=
  if negb direct_load || pipeline_builder_eqb pipeline_builder0 pipeline
  then UniformBatched
  else ManualBatchLoop.

(** ** Inference (lines 285-361)

    The scoring callable and torch's [default_collate] are collaborators:
    [reward_pipe] maps the positional arguments of one call to what the
    call returns (or raises); the keyword arguments are the same
    [reward_pipeline_kwargs] at every call.  Every call is recorded, in
    order, in a log of argument lists. *)
Abbreviation call_log := (list (list value)).

Section Inference.
Variable reward_pipe : list value -> res pipe_output.
Variable default_collate : list example -> res example.

Definition call_pipe (args : list value) (calls : call_log)
    : res (pipe_output * call_log) :=
  let* out := reward_pipe args in
  Ok (out, calls ++ [args]).

(** Lines 286-299. *)
Definition run_uniform (ds : dataset) (calls : call_log)
    : res (list Z * call_log) :=
  let* text_rejected := column ds "text_rejected" in
  let* '(results_rej, calls) := call_pipe [VList text_rejected] calls in
  let* text_chosen := column ds "text_chosen" in
  let* '(results_cho, calls) := call_pipe [VList text_chosen] calls in
  let* score_chosen := dict_scores results_cho in
  let* score_rejected := dict_scores results_rej in
  let results := pairwise score_chosen score_rejected in
  Ok (results, calls).

(** Lines 310-316. *)
Definition custom_collate_fn (batch : list example) : res batch_t :=
  let* first :=
    match batch with
    | [] => Raise IndexError
    | ex :: _ => Ok ex
    end in
  let* text_chosen := getitem first "text_chosen" in
  let* x := index0 text_chosen in
  if is_dict x then Ok (Rows batch)
  else
    let* d := default_collate batch in
    Ok (Collated d).

(** The body of the batch loop, lines 333-361. *)
Definition batch_step (model chat_template : string) (batch : batch_t)
    (results : list Z) (calls : call_log) : res (list Z * call_log) :=
  if pairwise_native model chat_template then
    let* text_rejected := batch_column batch "text_rejected" in
    let* text_chosen := batch_column batch "text_chosen" in
    let* '(results_sub, calls) :=
      call_pipe [VList text_chosen; VList text_rejected] calls in
    let* judgments := tolist results_sub in
    Ok (append_native results judgments, calls)
  else
    let* text_chosen := batch_getitem batch "text_chosen" in
    let* '(rewards_chosen, calls) := call_pipe [text_chosen] calls in
    let* text_rejected := batch_getitem batch "text_rejected" in
    let* '(rewards_rejected, calls) := call_pipe [text_rejected] calls in
    let* chosen_is_dict := first_is_dict rewards_chosen in
    let* '(score_chosen, score_rejected) :=
      if chosen_is_dict : bool then
        let* score_chosen := dict_scores rewards_chosen in
        let* score_rejected := dict_scores rewards_rejected in
        Ok (score_chosen, score_rejected)
      else
        let* score_chosen := tolist rewards_chosen in
        let* score_rejected := tolist rewards_rejected in
        Ok (score_chosen, score_rejected) in
    Ok (append_pairwise results score_chosen score_rejected, calls).

(** The loop of line 330: each batch is collated when the loader yields
    it, then scored; [results] and the call log are threaded through. *)
Fixpoint batch_loop (model chat_template : string)
    (batches : list (list example)) (results : list Z) (calls : call_log)
    : res (list Z * call_log) :=
  match batches with
  | [] => Ok (results, calls)
  | b :: batches' =>
      let* batch := custom_collate_fn b in
      let* '(results, calls) :=
        batch_step model chat_template batch results calls in
      batch_loop model chat_template batches' results calls
  end.

(** Lines 305-361.  The loader prepared by [accelerator.prepare]
    (line 326) yields the batches as they are, except that over a dataset
    without rows it yields [None] once: the body of the loop then fails
    with a [TypeError] in either branch, on [for b in batch] as on
    [batch["text_chosen"]]. *)
Definition run_manual (model chat_template : string) (batch_size : Z)
    (ds : dataset) (calls : call_log) : res (list Z * call_log) :=
  let* batches := DataLoader ds batch_size in
  let results := [] in
  match batches with
  | [] => Raise TypeError
  | _ :: _ => batch_loop model chat_template batches results calls
  end.

(** Lines 285-361. *)
Definition run_inference (model chat_template : string)
    (direct_load : bool) (batch_size : Z)
    (pipeline_builder0 : pipeline_builder_t) (ds : dataset)
    : res (list Z * call_log) :=
  match inference_mode direct_load pipeline_builder0 with
  | UniformBatched => run_uniform ds []
  | ManualBatchLoop => run_manual model chat_template batch_size ds []
  end.
End Inference.

(** The verdict recorded for one native judgment. *)
Definition native_verdict (judgment : scalar) : Z :=
  if truthy judgment then 1 else 0.

(** One iteration of the pairwise loop as seen from outside: the raw
    batch, the two lists handed to the pipeline and the judgments read
    back. *)
Definition native_iteration reward_pipe default_collate
    (b : list example) (it : list value * list value * list scalar) : Prop :=
  let '(text_chosen, text_rejected, judgments) := it in
  exists batch results_sub,
    custom_collate_fn default_collate b = Ok batch /\
    batch_column batch "text_chosen" = Ok text_chosen /\
    batch_column batch "text_rejected" = Ok text_rejected /\
    reward_pipe [VList text_chosen; VList text_rejected] = Ok results_sub /\
    tolist results_sub = Ok judgments.

(** ** Per-subset accuracy (lines 367-385) *)

(** [ds.add_column(name, column)]: the name must be new and the column as
    long as the dataset. *)
Definition add_column (ds : dataset) (name : string) (col : list value)
    : res dataset :=
  if existsb (fun ex : example => bool_decide (is_Some (ex !! name))) ds
  then Raise ValueError
  else if negb (length col =? length ds)%nat then Raise ValueError
  else Ok (zip_with (fun (ex : example) v => <[name := v]> ex) ds col).

(** A value of the subset column as a label of the report: a string, as
    in the benchmark, or a number. *)
Inductive subset_label :=
| LStr (s : string)
| LFloat (f : spec_float)
| LInt (z : Z).

#[global] Instance spec_float_eq_dec : EqDecision spec_float.
Proof. solve_decision. Defined.

#[global] Instance subset_label_eq_dec : EqDecision subset_label.
Proof. solve_decision. Defined.

(** The label of a row as [ds.unique("subset")] reads it: a dataset
    without the column is refused with a [ValueError], and pyarrow has no
    [unique] for a column of lists or of dicts. *)
Definition subset_of (ex : example) : res subset_label :=
  match ex !! "subset" with
  | None => Raise ValueError
  | Some (VStr s) => Ok (LStr s)
  | Some (VFloat f) => Ok (LFloat f)
  | Some (VInt z) => Ok (LInt z)
  | Some (VList _) | Some (VDict _) => Raise NotImplementedError
  end.

(** [v == s] for a string [s]. *)
Definition eq_str (v : value) (s : string) : bool :=
  match v with
  | VStr s' => bool_decide (s' = s)
  | _ => false
  end.

(** [example["subset"] == subset] for a label of any kind.  The values of
    one column are of one type; a float equals a float in the IEEE sense,
    so NaN equals nothing, itself included. *)
Definition eq_label (v : value) (subset : subset_label) : bool :=
  match v, subset with
  | VStr s', LStr s => bool_decide (s' = s)
  | VFloat f', LFloat f => SFeqb f' f
  | VInt z', LInt z => z' =? z
  | _, _ => false
  end.

(** Distinct elements in order of first appearance. *)
Fixpoint unique {A} `{EqDecision A} (l : list A) : list A :=
  match l with
  | [] => []
  | x :: l' => x :: filter (fun y => y ≠ x) (unique l')
  end.

(** [ds.unique("subset")]. *)
Definition Dataset_unique_subset (ds : dataset) : res (list subset_label) :=
  let* subsets := res_mapM subset_of ds in
  Ok (unique subsets).

(** The labels as strings, when all of them are. *)
Fixpoint strings_of (labels : list subset_label) : option (list string) :=
  match labels with
  | [] => Some []
  | LStr s :: labels' =>
      match strings_of labels' with
      | Some l => Some (s :: l)
      | None => None
      end
  | _ :: _ => None
  end.

(** [ds.filter(function)]. *)
Fixpoint Dataset_filter (function : example -> res bool) (ds : dataset)
    : res dataset :=
  match ds with
  | [] => Ok []
  | ex :: ds' =>
      let* keep := function ex in
      let* rest := Dataset_filter function ds' in
      Ok (if keep : bool then ex :: rest else rest)
  end.

(** [sum(column)] over a column of ints. *)
Fixpoint py_sum (col : list value) : res Z :=
  match col with
  | [] => Ok 0
  | VInt z :: col' => let* s := py_sum col' in Ok (z + s)
  | _ :: _ => Raise TypeError
  end.

Definition int_as_float (z : Z) : spec_float :=
  match z with
  | Z0 => S754_zero false
  | Zpos p => S754_finite false p 0
  | Zneg p => S754_finite true p 0
  end.

(** [a / b] on ints: a [ZeroDivisionError] for a zero divisor, otherwise
    the exact quotient rounded to the nearest binary64.  (The
    [OverflowError] of a quotient beyond the binary64 range is left out:
    the operands here are counts of rows.) *)
Definition py_truediv (a b : Z) : res spec_float :=
  if b =? 0 then Raise ZeroDivisionError
  else Ok (SFdiv prec emax (int_as_float a) (int_as_float b)).

(** The body of the loop of line 374 for one subset: the counts and the
    accuracy. *)
Definition subset_accuracy (out_dataset : dataset) (subset : string)
    : res (Z * Z * spec_float) :=
  let* subset_dataset :=
    Dataset_filter
      (fun ex => let* s := getitem ex "subset" in Ok (eq_str s subset))
      out_dataset in
  let* col := column subset_dataset "results" in
  let* num_correct := py_sum col in
  let num_total := Z.of_nat (length col) in
  let* acc := py_truediv num_correct num_total in
  Ok (num_correct, num_total, acc).

(** The same body for a label of any kind. *)
Definition label_accuracy (out_dataset : dataset) (subset : subset_label)
    : res (Z * Z * spec_float) :=
  let* subset_dataset :=
    Dataset_filter
      (fun ex => let* s := getitem ex "subset" in Ok (eq_label s subset))
      out_dataset in
  let* col := column subset_dataset "results" in
  let* num_correct := py_sum col in
  let num_total := Z.of_nat (length col) in
  let* acc := py_truediv num_correct num_total in
  Ok (num_correct, num_total, acc).

Fixpoint report_loop (out_dataset : dataset) (present_subsets : list string)
    (results : example) : res example :=
  match present_subsets with
  | [] => Ok results
  | subset :: rest =>
      let* '(_, _, acc) := subset_accuracy out_dataset subset in
      report_loop out_dataset rest (<[subset := VFloat acc]> results)
  end.

(** Lines 367-385: from the raw dataset and the verdicts to the report
    dict, as far as [json.dumps] accepts it.

    On a string subset column the labels are the keys of the report,
    beside model and chat_template, and the report is dumped.  On a column
    that holds numbers the loop runs as well, with the same counts and the
    same division; its entries would lie under keys that are not strings,
    which the dicts of this embedding do not have, but no such report is
    ever handed on: [json.dumps(..., sort_keys=True)] of line 385 cannot
    order a number against the keys model and chat_template and raises a
    [TypeError]. *)
Definition process_results (model chat_template : string)
    (raw_dataset : dataset) (results : list Z) : res example :=
  let* out_dataset := add_column raw_dataset "results" (map VInt results) in
  let results := ∅ in
  let results := <["model" := VStr model]> results in
  let results := <["chat_template" := VStr chat_template]> results in
  let* present_subsets := Dataset_unique_subset raw_dataset in
  match strings_of present_subsets with
  | Some present_subsets => report_loop out_dataset present_subsets results
  | None =>
      let* _ := res_mapM (label_accuracy out_dataset) present_subsets in
      Raise TypeError
  end.

(** The verdicts of the rows of one subset, in row order, and the sum of
    a list of verdicts: what the counts of a subset are stated against. *)
Fixpoint verdicts_of_subset (subset : string) (raw : dataset)
    (results : list Z) : list Z :=
  match raw, results with
  | ex :: raw', v :: results' =>
      let rest := verdicts_of_subset subset raw' results' in
      match ex !! "subset" with
      | Some s => if eq_str s subset then v :: rest else rest
      | None => rest
      end
  | _, _ => []
  end.

Definition sum_Z (l : list Z) : Z := foldr Z.add 0 l.

(** ** The dataset transformation step (lines 185-232)

    [prepare_dialogue] of the [herm] package and the conversation template
    it receives are collaborators. *)
Section Formatting.
Variable conv_t : Type.
Variable prepare_dialogue : example -> conv_t -> res example.

Definition prepare_dataset (custom_dialogue0 pref_sets : bool)
    (conv : conv_t) (raw_dataset : dataset) : res dataset :=
  if custom_dialogue0 then
    if pref_sets then
      Dataset_map map_conversations_testsets
        ["prompt"; "chosen"; "rejected"; "subset"; "subsubset"] raw_dataset
    else
      Dataset_map map_conversations
        ["prompt"; "chosen"; "rejected"; "subset"] raw_dataset
  else
    Dataset_map (fun ex => prepare_dialogue ex conv)
      ["prompt"; "chosen"; "rejected"] raw_dataset.
End Formatting.

(** The row function and the removed columns of each branch of
    [prepare_dataset], for stating what the step does row by row. *)
Definition format_row (conv_t : Type)
    (prepare_dialogue : example -> conv_t -> res example)
    (custom_dialogue0 pref_sets : bool) (conv : conv_t)
    : example -> res example :=
  if custom_dialogue0 then
    if pref_sets then map_conversations_testsets else map_conversations
  else fun ex => prepare_dialogue ex conv.

Definition removed_columns (custom_dialogue0 pref_sets : bool)
    : list string :=
  if custom_dialogue0 then
    if pref_sets then ["prompt"; "chosen"; "rejected"; "subset"; "subsubset"]
    else ["prompt"; "chosen"; "rejected"; "subset"]
  else ["prompt"; "chosen"; "rejected"].

(** ** [main]

    The command line, the loading of the raw dataset (lines 157-180) and of
    the model and tokenizer (lines 237-270), and the writing and upload of
    the report (lines 387-409) stay outside: [main] receives the parsed
    arguments, the raw dataset and the loaded pipeline, and returns the
    report dict.

    [Dataset.map] hands a dataset without rows back as it is, less the
    removed columns, so the formatted dataset then has no text_rejected
    column and line 291 of the uniform mode raises a [KeyError]. *)
Record args_t := {
  model : string;
  chat_template : string;
  direct_load : bool;
  batch_size : Z;
  pref_sets : bool
}.

Section Main.
Variable conv_t : Type.
Variable get_conv_template : string -> res conv_t.
Variable prepare_dialogue : example -> conv_t -> res example.
Variable reward_pipe : pipe_state -> list value -> res pipe_output.
Variable default_collate : list example -> res example.

Definition main (args : args_t) (raw_dataset : dataset)
    (loaded_pipe : pipe_state) : res example :=
  let selected := select_adapter (model args) (chat_template args) in
  let* conv := get_conv_template (chat_template args) in
  let* ds :=
    prepare_dataset conv_t prepare_dialogue (custom_dialogue selected)
      (pref_sets args) conv raw_dataset in
  let reward_pipe0 := set_pad_token loaded_pipe in
  let* '(results, _) :=
    match ds, inference_mode (direct_load args) (pipeline_builder selected)
    with
    | [], UniformBatched => Raise KeyError
    | _, _ =>
        run_inference (reward_pipe reward_pipe0) default_collate
          (model args) (chat_template args) (direct_load args)
          (batch_size args) (pipeline_builder selected) ds
    end in
  process_results (model args) (chat_template args) raw_dataset results.
End Main.

(** ** Where the report is written (lines 387-391)

    [os.path.dirname] on POSIX paths: the path up to and including its
    last slash, with the trailing slashes removed unless nothing else is
    left. *)
Definition results_path (model : string) : string :=
  "results/" +:+ model +:+ ".json".

Definition is_sep (c : ascii) : bool := Ascii.eqb c "/"%char.

(** [p[:p.rfind("/") + 1]]. *)
Fixpoint head_through_last_sep (p : string) : string :=
  match p with
  | EmptyString => EmptyString
  | String c p' =>
      match head_through_last_sep p' with
      | EmptyString => if is_sep c then String c EmptyString else EmptyString
      | String _ _ as h => String c h
      end
  end.

(** [s == "/" * len(s)]. *)
Fixpoint all_sep (s : string) : bool :=
  match s with
  | EmptyString => true
  | String c s' => is_sep c && all_sep s'
  end.

(** [s.rstrip("/")]. *)
Fixpoint rstrip_sep (s : string) : string :=
  match s with
  | EmptyString => EmptyString
  | String c s' =>
      match rstrip_sep s' with
      | EmptyString => if is_sep c then EmptyString else String c EmptyString
      | String _ _ as r => String c r
      end
  end.

Definition dirname (p : string) : string :=
  let head := head_through_last_sep p in
  if negb (String.eqb head "") && negb (all_sep head)
  then rstrip_sep head
  else head.

(** ** Row formats and collation

    What the two branches of the batch loop expect of the rows and of
    torch's [default_collate]. *)

(** A row ready for the pairwise branch: text_chosen is a list that
    starts with a dict, and text_rejected is there. *)
Definition turn_row (ex : example) : Prop :=
  (exists d turns, ex !! "text_chosen" = Some (VList (VDict d :: turns))) /\
  is_Some (ex !! "text_rejected").

(** A row ready for the scalar branch: text_chosen is a non-empty string
    and text_rejected is a string. *)
Definition text_row (ex : example) : Prop :=
  (exists c s, ex !! "text_chosen" = Some (VStr (String c s))) /\
  (exists s, ex !! "text_rejected" = Some (VStr s)).

(** A collation that builds, on each of the given batches, the list of
    the batch's values in row order for the two text columns, as torch's
    [default_collate] does on rows whose fields are strings. *)
Definition columnwise (default_collate : list example -> res example)
    (batches : list (list example)) : Prop :=
  forall (b : list example) tc tr,
    b ∈ batches ->
    column b "text_chosen" = Ok tc ->
    column b "text_rejected" = Ok tr ->
    exists d : example,
      default_collate b = Ok d /\
      d !! "text_chosen" = Some (VList tc) /\
      d !! "text_rejected" = Some (VList tr).

(** A pipeline that, on each of the given batches, judges every pair of
    the two text columns on its own. *)
Definition judges_pairs (reward_pipe : list value -> res pipe_output)
    (judge : value -> value -> scalar) (batches : list (list example))
    : Prop :=
  forall (b : list example) tc tr,
    b ∈ batches ->
    column b "text_chosen" = Ok tc ->
    column b "text_rejected" = Ok tr ->
    reward_pipe [VList tc; VList tr] = Ok (OutTensor (zip_with judge tc tr)).

(** A pipeline that, on either text column of each of the given batches,
    returns [out] of the texts: the scores of the texts, each on its own,
    as a list of result dicts or as a tensor. *)
Definition scores_texts (reward_pipe : list value -> res pipe_output)
    (out : list value -> pipe_output) (batches : list (list example))
    : Prop :=
  forall (b : list example) (name : string) texts,
    b ∈ batches ->
    name = "text_chosen" \/ name = "text_rejected" ->
    column b name = Ok texts ->
    reward_pipe [VList texts] = Ok (out texts).

(** The scores read off a list of result dicts. *)
Definition scores_of (score_of : value -> result_t) (texts : list value)
    : list scalar :=
  map (fun result => SFloat (score result)) (map score_of texts).

(** ** Sample data

    Concrete rows, scores and collaborators on which the statements below
    are exercised. *)

(** 0.9, 0.1, 0.2, 0.3, 0.5 and 0.75 as binary64. *)
Definition f0_9 : spec_float := S754_finite false 8106479329266893 (-53).
Definition f0_1 : spec_float := S754_finite false 7205759403792794 (-56).
Definition f0_2 : spec_float := S754_finite false 7205759403792794 (-55).
Definition f0_3 : spec_float := S754_finite false 5404319552844595 (-54).
Definition f0_5 : spec_float := S754_finite false 4503599627370496 (-53).
Definition f0_75 : spec_float := S754_finite false 6755399441055744 (-53).

Definition sample_row (prompt chosen rejected subset : string) : example :=
  {[ "prompt" := VStr prompt; "chosen" := VStr chosen;
     "rejected" := VStr rejected; "subset" := VStr subset ]}.

Definition sample_raw : dataset :=
  [ sample_row "q1" "good1" "bad1" "s1";
    sample_row "q2" "good2" "bad2" "s1" ].

Definition sample_easy : dataset :=
  [ sample_row "q1" "c1" "r1" "alpacaeval-easy";
    sample_row "q2" "c2" "r2" "alpacaeval-easy";
    sample_row "q3" "c3" "r3" "alpacaeval-easy";
    sample_row "q4" "c4" "r4" "alpacaeval-easy" ].

Definition sample_score_chosen : list scalar :=
  [SFloat f0_9; SFloat f0_2; SFloat f0_5].
Definition sample_score_rejected : list scalar :=
  [SFloat f0_1; SFloat f0_3; SFloat f0_5].

(** A template formatter that joins prompt and response with a space. *)
Definition sample_prepare_dialogue (ex : example) (conv : unit)
    : res example :=
  let* prompt := getitem ex "prompt" in
  let* chosen := getitem ex "chosen" in
  let* rejected := getitem ex "rejected" in
  match prompt, chosen, rejected with
  | VStr p, VStr c, VStr r =>
      Ok (<["text_rejected" := VStr (p +:+ " " +:+ r)]>
            (<["text_chosen" := VStr (p +:+ " " +:+ c)]> ex))
  | _, _, _ => Raise TypeError
  end.

Definition sample_score (text : value) : spec_float :=
  match text with
  | VStr t =>
      if bool_decide (t = "q1 good1") then f0_9
      else if bool_decide (t = "q1 bad1") then f0_1
      else if bool_decide (t = "q2 good2") then f0_2
      else if bool_decide (t = "q2 bad2") then f0_3
      else f0_5
  | _ => f0_5
  end.

(** A pipeline that scores a list of texts one by one, and judges a pair
    of batches by a fixed sequence of booleans. *)
Definition sample_reward_pipe (args : list value) : res pipe_output :=
  match args with
  | [VList texts] =>
      Ok (OutDicts
            (map (fun t => {| label := "LABEL_0"; score := sample_score t |})
               texts))
  | [VList text_chosen; VList text_rejected] =>
      Ok (OutTensor
            (map SBool (take (length text_chosen) [true; false; true])))
  | _ => Raise PipelineError
  end.

(** A collation that turns a list of rows into the dict of its two text
    columns. *)
Definition sample_default_collate (batch : list example) : res example :=
  let* text_chosen := column batch "text_chosen" in
  let* text_rejected := column batch "text_rejected" in
  Ok {[ "text_chosen" := VList text_chosen;
        "text_rejected" := VList text_rejected ]}.

(** Three rows formatted with the structured-turn strategy. *)
Definition sample_turn_batch : list example :=
  [ {[ "text_chosen" := make_conversation (VStr "q1") (VStr "c1");
       "text_rejected" := make_conversation (VStr "q1") (VStr "r1") ]};
    {[ "text_chosen" := make_conversation (VStr "q2") (VStr "c2");
       "text_rejected" := make_conversation (VStr "q2") (VStr "r2") ]};
    {[ "text_chosen" := make_conversation (VStr "q3") (VStr "c3");
       "text_rejected" := make_conversation (VStr "q3") (VStr "r3") ]} ].

Definition sample_args : args_t :=
  {| model := "natolambert/gpt2-dummy-rm";
     chat_template := "tulu";
     direct_load := false;
     batch_size := 64;
     pref_sets := false |}.

Definition sample_pipe_state : pipe_state :=
  {| pipe_tokenizer := {| pad_token_id := None; eos_token_id := Some 5 |};
     model_config_pad_token_id := None |}.

(** The two sample rows after template formatting. *)
Definition sample_formatted : dataset :=
  [ {[ "subset" := VStr "s1"; "text_chosen" := VStr "q1 good1";
       "text_rejected" := VStr "q1 bad1" ]};
    {[ "subset" := VStr "s1"; "text_chosen" := VStr "q2 good2";
       "text_rejected" := VStr "q2 bad2" ]} ].

(** The two sample rows after structured-turn formatting. *)
Definition sample_structured : dataset :=
  [ {[ "text_chosen" := make_conversation (VStr "q1") (VStr "good1");
       "text_rejected" := make_conversation (VStr "q1") (VStr "bad1") ]};
    {[ "text_chosen" := make_conversation (VStr "q2") (VStr "good2");
       "text_rejected" := make_conversation (VStr "q2") (VStr "bad2") ]} ].

(** The arguments of a directly loaded PairRM run in batches of one. *)
Definition sample_pairrm_args : args_t :=
  {| model := "llm-blender/PairRM";
     chat_template := "tulu";
     direct_load := true;
     batch_size := 1;
     pref_sets := false |}.

(** A pairwise pipeline that judges each pair on its own: the chosen
    conversation wins unless its answer is "c2". *)
Definition sample_judge (chosen rejected : value) : scalar :=
  match chosen with
  | VList [_; VDict d] =>
      match d !! "content" with
      | Some (VStr s) => SBool (negb (bool_decide (s = "c2")))
      | _ => SBool false
      end
  | _ => SBool false
  end.

Definition sample_judge_pipe (args : list value) : res pipe_output :=
  match args with
  | [VList text_chosen; VList text_rejected] =>
      Ok (OutTensor (zip_with sample_judge text_chosen text_rejected))
  | _ => Raise PipelineError
  end.

(** A pipeline that scores the texts but drops the last result. *)
Definition sample_lossy_pipe (args : list value) : res pipe_output :=
  match args with
  | [VList texts] =>
      Ok (OutDicts
            (map (fun t => {| label := "LABEL_0"; score := sample_score t |})
               (removelast texts)))
  | _ => Raise PipelineError
  end.

(** A custom pipeline that returns the scores of the texts as a tensor. *)
Definition sample_tensor_pipe (args : list value) : res pipe_output :=
  match args with
  | [VList texts] =>
      Ok (OutTensor (map (fun t => SFloat (sample_score t)) texts))
  | _ => Raise PipelineError
  end.

(** * Properties *)

(** ** The exception monad *)

Lemma res_bind_Ok {A B} (m : res A) (k : A -> res B) (b : B) :
  res_bind m k = Ok b <-> exists a, m = Ok a /\ k a = Ok b.
Proof.
  destruct m as [a|e]; simpl; split.
  - intros H. exists a. split; [reflexivity | exact H].
  - intros (a' & Ha & Hk). injection Ha as ->. exact Hk.
  - discriminate.
  - intros (a' & Ha & _). discriminate.
Qed.

(** Splits a successful chain of binds in hypothesis [H] into its steps. *)
Ltac bind_inv H :=
  let a := fresh "a" in
  let Ha := fresh "Hstep" in
  apply res_bind_Ok in H; destruct H as (a & Ha & H).

Tactic Notation "step_inv" hyp(H) "as" simple_intropattern(a) ident(Ha) :=
  apply res_bind_Ok in H; destruct H as (a & Ha & H).

Lemma res_mapM_Ok_length {A B} (f : A -> res B) l out :
  res_mapM f l = Ok out -> length out = length l.
Proof.
  revert out. induction l as [|x l IH]; simpl; intros out H.
  - injection H as <-. reflexivity.
  - bind_inv H. bind_inv H. injection H as <-. simpl. f_equal. eauto.
Qed.

Lemma res_mapM_Ok_lookup {A B} (f : A -> res B) l out i x :
  res_mapM f l = Ok out -> l !! i = Some x ->
  exists y, f x = Ok y /\ out !! i = Some y.
Proof.
  revert out i. induction l as [|x0 l IH]; simpl; intros out i H Hi.
  - discriminate.
  - bind_inv H. bind_inv H. injection H as <-.
    destruct i as [|i]; simpl in *.
    + injection Hi as ->. eauto.
    + eauto.
Qed.

Lemma res_mapM_Ok_all {A B} (f : A -> res B) l :
  (forall x, x ∈ l -> exists y, f x = Ok y) ->
  exists out, res_mapM f l = Ok out.
Proof.
  induction l as [|x l IH]; simpl; intros Hall.
  - eauto.
  - destruct (Hall x) as [y Hy]; [left|].
    destruct IH as [ys Hys]; [intros; apply Hall; right; assumption|].
    rewrite Hy, Hys. simpl. eauto.
Qed.

(** ** Substrings *)

Lemma append_nil_l (s : string) : "" +:+ s = s.
Proof. reflexivity. Qed.

Lemma append_cons_l (a : ascii) (s t : string) :
  String a s +:+ t = String a (s +:+ t).
Proof. reflexivity. Qed.

Lemma starts_with_spec (p s : string) :
  starts_with p s = true <-> exists post, s = p +:+ post.
Proof.
  revert s. induction p as [|a p IH]; intros s.
  - simpl. split; [intros _; exists s; reflexivity | reflexivity].
  - destruct s as [|b s]; simpl.
    + split; [discriminate | intros [post H]; discriminate].
    + destruct (Ascii.eqb_spec a b) as [->|Hne].
      * rewrite IH. split; intros [post H]; exists post.
        -- rewrite append_cons_l. f_equal; assumption.
        -- rewrite append_cons_l in H. injection H as H; assumption.
      * split; [discriminate|]. intros [post H].
        rewrite append_cons_l in H. injection H as H _. congruence.
Qed.

Lemma in_str_spec (needle hay : string) :
  in_str needle hay = true <-> occurs_in needle hay.
Proof.
  split.
  - induction hay as [|c hay IH]; simpl; intros H.
    + rewrite orb_false_r in H. apply starts_with_spec in H as [post H].
      exists "", post. exact H.
    + apply orb_true_iff in H as [H|H].
      * apply starts_with_spec in H as [post H]. exists "", post. exact H.
      * destruct (IH H) as (pre & post & ->).
        exists (String c pre), post. reflexivity.
  - intros (pre & post & ->).
    induction pre as [|c pre IH].
    + rewrite append_nil_l.
      assert (starts_with needle (needle +:+ post) = true) as Hp
        by (apply starts_with_spec; eauto).
      destruct (needle +:+ post); simpl; rewrite Hp; reflexivity.
    + rewrite append_cons_l. simpl. rewrite IH. apply orb_true_r.
Qed.

Lemma in_str_false (needle hay : string) :
  in_str needle hay = false <-> ~ occurs_in needle hay.
Proof.
  rewrite <- in_str_spec. destruct (in_str needle hay); split;
    congruence.
Qed.

(** ** Adapter selection *)

(** Turns every substring fact of the goal into the boolean test the code
    runs, then decides the chain by cases on the five tests. *)
Ltac chain_cases model chat_template :=
  rewrite <- ?in_str_spec, <- ?orb_true_iff;
  destruct (in_str "oasst" model || in_str "oasst" chat_template),
    (in_str "Starling" model || in_str "Starling" chat_template),
    (in_str "openbmb" model || in_str "openbmb" chat_template),
    (in_str "PairRM" model || in_str "PairRM" chat_template),
    (in_str "SHP" model || in_str "SHP" chat_template);
  simpl; intuition congruence.

(** C2, counterexample: the model identifier "oasst-Starling-RM" contains
    "Starling", yet the oasst branch is taken first and the quantized flag
    stays true, where the claim says false; and the model identifier
    "my-rm" does not contain "Starling", yet with the template name
    "Starling-chat" the flag becomes false, where the claim says it remains
    true. *)
Lemma quantized_starling_claim_fails :
  ~ (occurs_in "Starling" "oasst-Starling-RM" ->
     quantized (select_adapter "oasst-Starling-RM" "tulu") = false) /\
  ~ (~ occurs_in "Starling" "my-rm" ->
     quantized (select_adapter "my-rm" "Starling-chat") = true).
Proof.
  split.
  - intros H.
    assert (occurs_in "Starling" "oasst-Starling-RM") as Hocc
      by (exists "oasst-", "-RM"; reflexivity).
    specialize (H Hocc). vm_compute in H. discriminate.
  - intros H.
    assert (~ occurs_in "Starling" "my-rm") as Hocc
      by (apply in_str_false; reflexivity).
    specialize (H Hocc). vm_compute in H. discriminate.
Qed.

(** C2, as amended: the quantized flag is false exactly when "Starling"
    occurs in the model identifier or in the chat-template name and "oasst"
    occurs in neither of them; in every other case it is true. *)
Theorem quantized_false_iff_starling_branch (model chat_template : string) :
  (quantized (select_adapter model chat_template) = false <->
   (occurs_in "Starling" model \/ occurs_in "Starling" chat_template) /\
   ~ (occurs_in "oasst" model \/ occurs_in "oasst" chat_template)) /\
  (quantized (select_adapter model chat_template) = true <->
   ~ ((occurs_in "Starling" model \/ occurs_in "Starling" chat_template) /\
      ~ (occurs_in "oasst" model \/ occurs_in "oasst" chat_template))).
Proof.
  unfold select_adapter. chain_cases model chat_template.
Qed.

(** C3, counterexample: the model identifier "openbmb/PairRM-mix" contains
    "PairRM", yet the openbmb branch is taken first and the
    custom-dialogue flag stays false; the claim says it is true. *)
Lemma custom_dialogue_pairrm_claim_fails :
  ~ (occurs_in "PairRM" "openbmb/PairRM-mix" ->
     custom_dialogue (select_adapter "openbmb/PairRM-mix" "tulu") = true).
Proof.
  intros H.
  assert (occurs_in "PairRM" "openbmb/PairRM-mix") as Hocc
    by (exists "openbmb/", "-mix"; reflexivity).
  specialize (H Hocc). vm_compute in H. discriminate.
Qed.

(** C3, as amended: the if/elif chain is the first-match scan of the
    ordered table (oasst, Starling, openbmb, PairRM, SHP) with the generic
    fallback, so it selects one entry of the table or the fallback; the
    custom-dialogue flag is true exactly for the PairRM and SHP adapters;
    and it is true exactly when "PairRM" or "SHP" occurs in the model
    identifier or the template name while none of "oasst", "Starling",
    "openbmb" occurs in either. *)
Theorem select_adapter_first_match (model chat_template : string) :
  select_adapter model chat_template
    = spec_first_match spec_registry model chat_template /\
  In (select_adapter model chat_template)
     (map snd spec_registry ++ [generic_adapter]) /\
  (custom_dialogue (select_adapter model chat_template) = true <->
   pipeline_builder (select_adapter model chat_template) = PairRMPipeline \/
   pipeline_builder (select_adapter model chat_template) = SHPPipeline) /\
  (custom_dialogue (select_adapter model chat_template) = true <->
   ((occurs_in "PairRM" model \/ occurs_in "PairRM" chat_template) \/
    (occurs_in "SHP" model \/ occurs_in "SHP" chat_template)) /\
   ~ ((occurs_in "oasst" model \/ occurs_in "oasst" chat_template) \/
      (occurs_in "Starling" model \/ occurs_in "Starling" chat_template) \/
      (occurs_in "openbmb" model \/ occurs_in "openbmb" chat_template))).
Proof.
  split; [reflexivity|].
  split; [|split]; unfold select_adapter, spec_registry, generic_adapter;
    chain_cases model chat_template.
Qed.

(** ** Choice of the inference mode *)

(** C4, counterexample: without the direct-load flag the PairRM adapter,
    which is not the generic pipeline kind, is run in the uniform batched
    mode; the claim says the manual batch loop. *)
Lemma uniform_mode_claim_fails :
  pipeline_builder (select_adapter "llm-blender/PairRM" "tulu") <> pipeline /\
  inference_mode false
    (pipeline_builder (select_adapter "llm-blender/PairRM" "tulu"))
    = UniformBatched.
Proof. split; [vm_compute; discriminate | vm_compute; reflexivity]. Qed.

(** What a successful run of the uniform batched mode did: the two
    columns were read, the pipeline was called on the rejected column and
    then on the chosen column, both results were lists of score dicts (or
    empty), and the verdicts are the pairwise comparison of the scores. *)
Lemma run_uniform_Ok reward_pipe (ds : dataset) calls results calls' :
  run_uniform reward_pipe ds calls = Ok (results, calls') <->
  exists text_rejected text_chosen results_rej results_cho
         score_chosen score_rejected,
    column ds "text_rejected" = Ok text_rejected /\
    reward_pipe [VList text_rejected] = Ok results_rej /\
    column ds "text_chosen" = Ok text_chosen /\
    reward_pipe [VList text_chosen] = Ok results_cho /\
    dict_scores results_cho = Ok score_chosen /\
    dict_scores results_rej = Ok score_rejected /\
    results = pairwise score_chosen score_rejected /\
    calls' = calls ++ [[VList text_rejected]; [VList text_chosen]].
Proof.
  unfold run_uniform, call_pipe. split.
  - intros H.
    bind_inv H. bind_inv H. bind_inv Hstep0. injection Hstep0 as <-.
    bind_inv H. bind_inv H. bind_inv Hstep2. injection Hstep2 as <-.
    bind_inv H. bind_inv H. injection H as <- <-.
    do 6 eexists. repeat (split; [eassumption|]).
    split; [reflexivity|]. rewrite <- app_assoc. reflexivity.
  - intros (tr & tc & rr & rc & sc & sr & H1 & H2 & H3 & H4 & H5 & H6 & -> & ->).
    rewrite H1. simpl. rewrite H2. simpl. rewrite H3. simpl. rewrite H4.
    simpl. rewrite H5. simpl. rewrite H6. simpl.
    rewrite <- app_assoc. reflexivity.
Qed.

(** C4, as amended: the uniform batched mode is taken exactly when the
    direct-load flag is off or the selected pipeline builder is the generic
    [pipeline], the manual batch loop exactly when the flag is on and the
    builder is a custom one; the run is that of the mode taken; and a
    successful uniform run made exactly two pipeline calls, one over the
    whole text_rejected column and then one over the whole text_chosen
    column. *)
Theorem inference_mode_dispatch reward_pipe default_collate
    (model chat_template : string) (direct_load : bool) (batch_size : Z)
    (pipeline_builder0 : pipeline_builder_t) (ds : dataset) :
  (inference_mode direct_load pipeline_builder0 = UniformBatched <->
   direct_load = false \/ pipeline_builder0 = pipeline) /\
  (inference_mode direct_load pipeline_builder0 = ManualBatchLoop <->
   direct_load = true /\ pipeline_builder0 <> pipeline) /\
  (direct_load = false \/ pipeline_builder0 = pipeline ->
   run_inference reward_pipe default_collate model chat_template
     direct_load batch_size pipeline_builder0 ds
   = run_uniform reward_pipe ds []) /\
  (direct_load = true /\ pipeline_builder0 <> pipeline ->
   run_inference reward_pipe default_collate model chat_template
     direct_load batch_size pipeline_builder0 ds
   = run_manual reward_pipe default_collate model chat_template
       batch_size ds []) /\
  (forall results calls,
     run_uniform reward_pipe ds [] = Ok (results, calls) ->
     exists text_rejected text_chosen,
       column ds "text_rejected" = Ok text_rejected /\
       column ds "text_chosen" = Ok text_chosen /\
       calls = [[VList text_rejected]; [VList text_chosen]]).
Proof.
  unfold run_inference, inference_mode.
  split; [|split; [|split; [|split]]];
    try (destruct direct_load, pipeline_builder0; simpl;
         intuition congruence).
  intros results calls H. apply run_uniform_Ok in H.
  destruct H as (tr & tc & rr & rc & sc & sr & H1 & _ & H3 & _ & _ & _ & _ & ->).
  exists tr, tc. auto.
Qed.

(** ** Pairwise verdicts *)

(** Swapping the operands of an IEEE comparison mirrors its outcome. *)
Lemma SFcompare_swap (f1 f2 : spec_float) :
  SFcompare f2 f1 = option_map CompOpp (SFcompare f1 f2).
Proof.
  destruct f1 as [s1|s1| |s1 m1 e1], f2 as [s2|s2| |s2 m2 e2]; simpl;
    try reflexivity;
    try (destruct s1; reflexivity); try (destruct s2; reflexivity);
    try (destruct s1, s2; reflexivity).
  destruct s1, s2; simpl; try reflexivity.
  - rewrite (Z.compare_antisym e1 e2).
    destruct (e1 ?= e2) eqn:He; simpl; try reflexivity.
    change (Pos.compare_cont Eq m1 m2) with (m1 ?= m2)%positive.
    change (Pos.compare_cont Eq m2 m1) with (m2 ?= m1)%positive.
    rewrite (Pos.compare_antisym m1 m2).
    destruct (m1 ?= m2)%positive; reflexivity.
  - rewrite (Z.compare_antisym e1 e2).
    destruct (e1 ?= e2) eqn:He; simpl; try reflexivity.
    change (Pos.compare_cont Eq m1 m2) with (m1 ?= m2)%positive.
    change (Pos.compare_cont Eq m2 m1) with (m2 ?= m1)%positive.
    rewrite (Pos.compare_antisym m1 m2).
    destruct (m1 ?= m2)%positive; reflexivity.
Qed.

(** [a > b] holds exactly when the IEEE comparison of [a] with [b] says
    greater; it fails on equal operands and whenever one is a NaN. *)
Lemma py_gt_spec (a b : scalar) :
  py_gt a b = true <->
  SFcompare (scalar_as_float a) (scalar_as_float b) = Some Gt.
Proof.
  unfold py_gt, SFltb.
  rewrite (SFcompare_swap (scalar_as_float a) (scalar_as_float b)).
  destruct (SFcompare (scalar_as_float a) (scalar_as_float b)) as [[]|];
    simpl; split; congruence.
Qed.

Lemma py_gt_refl (a : scalar) : py_gt a a = false.
Proof.
  destruct (py_gt a a) eqn:H; [|reflexivity].
  assert (Hgt := proj1 (py_gt_spec a a) H).
  assert (Hsw := SFcompare_swap (scalar_as_float a) (scalar_as_float a)).
  rewrite Hgt in Hsw. discriminate.
Qed.

(** The appending comprehension adds to [results] what the list
    comprehension builds. *)
Lemma append_pairwise_app results score_chosen score_rejected :
  append_pairwise results score_chosen score_rejected
  = results ++ pairwise score_chosen score_rejected.
Proof.
  unfold append_pairwise, pairwise.
  generalize (zip score_chosen score_rejected) as pairs. intros pairs.
  revert results. induction pairs as [|[c r] pairs IH]; intros results.
  - simpl. rewrite app_nil_r. reflexivity.
  - simpl. destruct (py_gt c r); rewrite IH, <- app_assoc; reflexivity.
Qed.

Lemma append_native_app results judgments :
  append_native results judgments
  = results ++ map (fun j => if truthy j then 1 else 0) judgments.
Proof.
  unfold append_native.
  revert results. induction judgments as [|j judgments IH]; intros results.
  - simpl. rewrite app_nil_r. reflexivity.
  - simpl. destruct (truthy j); rewrite IH, <- app_assoc; reflexivity.
Qed.

Lemma pairwise_lookup score_chosen score_rejected i chosen rejected :
  score_chosen !! i = Some chosen ->
  score_rejected !! i = Some rejected ->
  pairwise score_chosen score_rejected !! i
  = Some (if py_gt chosen rejected then 1 else 0).
Proof.
  intros Hc Hr. unfold pairwise.
  change (map ?f ?l) with (f <$> l).
  rewrite list_lookup_fmap.
  erewrite (proj2 (lookup_zip_with_Some pair score_chosen score_rejected i
                     (chosen, rejected))); [reflexivity|].
  exists chosen, rejected. auto.
Qed.

(** The verdict at one position, in both comprehensions. *)
Lemma verdict_at_position (results : list Z)
    (score_chosen score_rejected : list scalar) (i : nat)
    (chosen rejected : scalar) :
  score_chosen !! i = Some chosen ->
  score_rejected !! i = Some rejected ->
  exists verdict : Z,
    pairwise score_chosen score_rejected !! i = Some verdict /\
    append_pairwise results score_chosen score_rejected
      !! (length results + i)%nat = Some verdict /\
    (verdict = 1 <->
     SFcompare (scalar_as_float chosen) (scalar_as_float rejected)
       = Some Gt) /\
    (verdict = 0 <->
     SFcompare (scalar_as_float chosen) (scalar_as_float rejected)
       <> Some Gt) /\
    (SFcompare (scalar_as_float chosen) (scalar_as_float rejected) = Some Eq
     -> verdict = 0) /\
    (chosen = rejected -> verdict = 0).
Proof.
  intros Hc Hr.
  exists (if py_gt chosen rejected then 1 else 0).
  assert (Hl := pairwise_lookup _ _ _ _ _ Hc Hr).
  split; [exact Hl|].
  split.
  { rewrite append_pairwise_app, lookup_app_r by lia.
    replace (length results + i - length results)%nat with i by lia.
    exact Hl. }
  assert (Hs := py_gt_spec chosen rejected).
  destruct (py_gt chosen rejected) eqn:Hgt.
  - assert (Hcmp := proj1 Hs eq_refl).
    repeat split; try congruence; try discriminate.
    intros ->. rewrite py_gt_refl in Hgt. discriminate.
  - assert (SFcompare (scalar_as_float chosen) (scalar_as_float rejected)
            <> Some Gt) as Hcmp.
    { intros Hcmp. apply Hs in Hcmp. discriminate. }
    repeat split; try congruence; try discriminate.
Qed.

(** ** The manual batch loop *)

(** The adapters that judge pairs natively are selected only when the
    substring test that guards the pairwise branch holds. *)
Lemma pairwise_adapter_native (model chat_template : string) :
  pipeline_builder (select_adapter model chat_template) = PairRMPipeline \/
  pipeline_builder (select_adapter model chat_template) = SHPPipeline ->
  pairwise_native model chat_template = true.
Proof.
  unfold select_adapter, pairwise_native.
  destruct (in_str "oasst" model || in_str "oasst" chat_template),
    (in_str "Starling" model || in_str "Starling" chat_template),
    (in_str "openbmb" model || in_str "openbmb" chat_template),
    (in_str "PairRM" model), (in_str "PairRM" chat_template),
    (in_str "SHP" model), (in_str "SHP" chat_template);
    simpl; intuition congruence.
Qed.

(** What a successful step of the pairwise branch did. *)
Lemma batch_step_native_Ok reward_pipe (model chat_template : string)
    (batch : batch_t) results calls results' calls' :
  pairwise_native model chat_template = true ->
  batch_step reward_pipe model chat_template batch results calls
    = Ok (results', calls') <->
  exists text_rejected text_chosen results_sub judgments,
    batch_column batch "text_rejected" = Ok text_rejected /\
    batch_column batch "text_chosen" = Ok text_chosen /\
    reward_pipe [VList text_chosen; VList text_rejected] = Ok results_sub /\
    tolist results_sub = Ok judgments /\
    results' = results ++ map (fun j => if truthy j then 1 else 0) judgments /\
    calls' = calls ++ [[VList text_chosen; VList text_rejected]].
Proof.
  intros Hnat. unfold batch_step, call_pipe. rewrite Hnat. split.
  - intros H.
    bind_inv H. bind_inv H. bind_inv H. bind_inv Hstep1.
    injection Hstep1 as <-. bind_inv H. injection H as <- <-.
    do 4 eexists. repeat (split; [eassumption|]).
    split; [apply append_native_app | reflexivity].
  - intros (tr & tc & out & js & H1 & H2 & H3 & H4 & -> & ->).
    rewrite H1. simpl. rewrite H2. simpl. rewrite H3. simpl. rewrite H4.
    simpl. rewrite append_native_app. reflexivity.
Qed.

(** What a successful step of the scalar branch did: two pipeline calls,
    the shape of the chosen result decides how both are read, and the
    verdicts of the pairwise comparison are appended. *)
Lemma batch_step_scalar_Ok reward_pipe (model chat_template : string)
    (batch : batch_t) results calls results' calls' :
  pairwise_native model chat_template = false ->
  batch_step reward_pipe model chat_template batch results calls
    = Ok (results', calls') ->
  exists text_chosen text_rejected rewards_chosen rewards_rejected
         score_chosen score_rejected,
    batch_getitem batch "text_chosen" = Ok text_chosen /\
    batch_getitem batch "text_rejected" = Ok text_rejected /\
    reward_pipe [text_chosen] = Ok rewards_chosen /\
    reward_pipe [text_rejected] = Ok rewards_rejected /\
    ((dict_scores rewards_chosen = Ok score_chosen /\
      dict_scores rewards_rejected = Ok score_rejected) \/
     (tolist rewards_chosen = Ok score_chosen /\
      tolist rewards_rejected = Ok score_rejected)) /\
    results' = results ++ pairwise score_chosen score_rejected /\
    calls' = calls ++ [[text_chosen]; [text_rejected]].
Proof.
  intros Hnat. unfold batch_step, call_pipe. rewrite Hnat. intros H.
  step_inv H as tc Htc. step_inv H as [rc calls1] Hrc.
  step_inv Hrc as rc' Hrc'. injection Hrc as <- <-.
  step_inv H as tr Htr. step_inv H as [rr calls2] Hrr.
  step_inv Hrr as rr' Hrr'. injection Hrr as <- <-.
  step_inv H as isd Hisd. step_inv H as [sc sr] Hsc. injection H as <- <-.
  exists tc, tr, rc', rr', sc, sr.
  repeat (split; [assumption|]).
  split.
  - destruct isd.
    + step_inv Hsc as sc' Hsc'. step_inv Hsc as sr' Hsr'.
      injection Hsc as <- <-. auto.
    + step_inv Hsc as sc' Hsc'. step_inv Hsc as sr' Hsr'.
      injection Hsc as <- <-. auto.
  - split; [apply append_pairwise_app|].
    rewrite <- app_assoc. reflexivity.
Qed.

(** C1: at every position where both score lists have an entry, the
    verdict of the list comprehension (uniform batched mode) and the
    verdict the appending comprehension adds at that position (manual batch
    loop) agree; the verdict is 1 exactly when the chosen score is greater
    than the rejected one in the IEEE comparison, and 0 otherwise; equal
    scores give 0.  A successful uniform run returns that list
    comprehension over the scores of its two pipeline results, and a
    successful step of the manual loop outside the pairwise branch appends
    that comprehension over the scores of its two pipeline results. *)
Theorem verdict_one_iff_chosen_greater reward_pipe :
  (forall (results : list Z) (score_chosen score_rejected : list scalar)
          (i : nat) (chosen rejected : scalar),
     score_chosen !! i = Some chosen ->
     score_rejected !! i = Some rejected ->
     exists verdict : Z,
       pairwise score_chosen score_rejected !! i = Some verdict /\
       append_pairwise results score_chosen score_rejected
         !! (length results + i)%nat = Some verdict /\
       (verdict = 1 <->
        SFcompare (scalar_as_float chosen) (scalar_as_float rejected)
          = Some Gt) /\
       (verdict = 0 <->
        SFcompare (scalar_as_float chosen) (scalar_as_float rejected)
          <> Some Gt) /\
       (SFcompare (scalar_as_float chosen) (scalar_as_float rejected)
          = Some Eq -> verdict = 0) /\
       (chosen = rejected -> verdict = 0)) /\
  (forall (ds : dataset) calls results calls',
     run_uniform reward_pipe ds calls = Ok (results, calls') ->
     exists text_chosen text_rejected results_cho results_rej
            score_chosen score_rejected,
       column ds "text_chosen" = Ok text_chosen /\
       column ds "text_rejected" = Ok text_rejected /\
       reward_pipe [VList text_chosen] = Ok results_cho /\
       reward_pipe [VList text_rejected] = Ok results_rej /\
       dict_scores results_cho = Ok score_chosen /\
       dict_scores results_rej = Ok score_rejected /\
       results = pairwise score_chosen score_rejected) /\
  (forall (model chat_template : string) (batch : batch_t)
          results calls results' calls',
     pairwise_native model chat_template = false ->
     batch_step reward_pipe model chat_template batch results calls
       = Ok (results', calls') ->
     exists text_chosen text_rejected rewards_chosen rewards_rejected
            score_chosen score_rejected,
       batch_getitem batch "text_chosen" = Ok text_chosen /\
       batch_getitem batch "text_rejected" = Ok text_rejected /\
       reward_pipe [text_chosen] = Ok rewards_chosen /\
       reward_pipe [text_rejected] = Ok rewards_rejected /\
       ((dict_scores rewards_chosen = Ok score_chosen /\
         dict_scores rewards_rejected = Ok score_rejected) \/
        (tolist rewards_chosen = Ok score_chosen /\
         tolist rewards_rejected = Ok score_rejected)) /\
       results' = append_pairwise results score_chosen score_rejected).
Proof.
  split; [|split].
  - intros results sc sr i c r. apply verdict_at_position.
  - intros ds calls results calls' H. apply run_uniform_Ok in H.
    destruct H as (tr & tc & rr & rc & sc & sr
                   & H1 & H2 & H3 & H4 & H5 & H6 & H7 & _).
    exists tc, tr, rc, rr, sc, sr. auto 10.
  - intros model chat_template batch results calls results' calls' Hnat H.
    destruct (batch_step_scalar_Ok _ _ _ _ _ _ _ _ Hnat H)
      as (tc & tr & rc & rr & sc & sr & H1 & H2 & H3 & H4 & H5 & -> & _).
    exists tc, tr, rc, rr, sc, sr.
    rewrite append_pairwise_app. auto 10.
Qed.

(** The fuel of [chunks] suffices: for a positive batch size the batches
    are non-empty, at most [n] long, and together they are the dataset in
    order. *)
Lemma chunks_fuel_spec {A} (fuel n : nat) (l : list A) :
  (0 < n)%nat -> (length l <= fuel)%nat ->
  concat (chunks_fuel fuel n l) = l /\
  Forall (fun b => (1 <= length b <= n)%nat) (chunks_fuel fuel n l).
Proof.
  intros Hn. revert l. induction fuel as [|fuel IH]; intros l Hlen.
  - destruct l; [|simpl in Hlen; lia]. simpl. split; [reflexivity|constructor].
  - destruct l as [|x l]; [simpl; split; [reflexivity|constructor]|].
    assert (length (drop n (x :: l)) <= fuel)%nat as Hdrop.
    { rewrite length_drop. simpl in *. lia. }
    destruct (IH _ Hdrop) as [Hcat Hall].
    change (chunks_fuel (S fuel) n (x :: l))
      with (take n (x :: l) :: chunks_fuel fuel n (drop n (x :: l))).
    split.
    + simpl concat. rewrite Hcat. apply take_drop.
    + constructor; [|exact Hall].
      rewrite length_take. simpl length. lia.
Qed.

Lemma chunks_spec {A} (n : nat) (l : list A) :
  (0 < n)%nat ->
  concat (chunks n l) = l /\
  Forall (fun b => (1 <= length b <= n)%nat) (chunks n l).
Proof.
  intros Hn. apply chunks_fuel_spec; [exact Hn | reflexivity].
Qed.

Lemma batch_loop_native_Ok reward_pipe default_collate
    (model chat_template : string) batches results calls results' calls' :
  pairwise_native model chat_template = true ->
  batch_loop reward_pipe default_collate model chat_template
    batches results calls = Ok (results', calls') ->
  exists its : list (list value * list value * list scalar),
    Forall2 (native_iteration reward_pipe default_collate) batches its /\
    results' = results ++ concat (map (fun it => map native_verdict it.2) its) /\
    calls' = calls ++ map (fun it => [VList it.1.1; VList it.1.2]) its.
Proof.
  intros Hnat. revert results calls.
  induction batches as [|b batches IH]; simpl; intros results calls H.
  - injection H as <- <-. exists []. simpl.
    rewrite !app_nil_r. repeat split. constructor.
  - step_inv H as batch Hbatch. step_inv H as [results1 calls1] Hstep.
    apply (batch_step_native_Ok _ _ _ _ _ _ _ _ Hnat) in Hstep.
    destruct Hstep as (tr & tc & out & js & H1 & H2 & H3 & H4 & -> & ->).
    destruct (IH _ _ H) as (its & Hits & -> & ->).
    exists ((tc, tr, js) :: its). simpl. split; [|split].
    + constructor; [|assumption]. exists batch, out. auto.
    + rewrite <- !app_assoc. reflexivity.
    + rewrite <- !app_assoc. reflexivity.
Qed.

(** A manual run that returns went through the loop over the batches of
    a loader with an admissible batch size. *)
Lemma run_manual_Ok reward_pipe default_collate
    (model chat_template : string) (batch_size : Z) (ds : dataset)
    calls results' calls' :
  run_manual reward_pipe default_collate model chat_template
    batch_size ds calls = Ok (results', calls') ->
  (0 < batch_size < 2 ^ 63) /\
  chunks (Z.to_nat batch_size) ds <> [] /\
  batch_loop reward_pipe default_collate model chat_template
    (chunks (Z.to_nat batch_size) ds) [] calls = Ok (results', calls').
Proof.
  unfold run_manual, DataLoader. intros H.
  destruct (batch_size <=? 0) eqn:Hpos; [discriminate|].
  destruct (2 ^ 63 <=? batch_size) eqn:Hmax; [discriminate|].
  apply Z.leb_gt in Hpos, Hmax. simpl in H.
  destruct (chunks (Z.to_nat batch_size) ds) as [|b batches] eqn:Hb;
    [discriminate|].
  split; [lia|]. split; [discriminate | exact H].
Qed.

(** C9: with a pairwise-native adapter selected (PairRM or SHP), one step
    of the manual batch loop makes a single pipeline call whose two
    arguments are the chosen batch and the rejected batch, and appends one
    verdict per native boolean judgment, in order, 1 for True and 0 for
    False; over the whole loop there is one such call per batch and no
    other, and the verdicts are the recorded judgments batch after batch;
    the batches of a manual run are consecutive non-empty slices of the
    dataset, at most the batch size long. *)
Theorem native_judgments_recorded reward_pipe default_collate
    (model chat_template : string) :
  pipeline_builder (select_adapter model chat_template) = PairRMPipeline \/
  pipeline_builder (select_adapter model chat_template) = SHPPipeline ->
  (forall batch results calls text_chosen text_rejected
          (judgments : list bool),
     batch_column batch "text_chosen" = Ok text_chosen ->
     batch_column batch "text_rejected" = Ok text_rejected ->
     reward_pipe [VList text_chosen; VList text_rejected]
       = Ok (OutTensor (map SBool judgments)) ->
     batch_step reward_pipe model chat_template batch results calls
     = Ok (results ++ map (fun j : bool => if j then 1 else 0) judgments,
           calls ++ [[VList text_chosen; VList text_rejected]])) /\
  (forall batches results calls results' calls',
     batch_loop reward_pipe default_collate model chat_template
       batches results calls = Ok (results', calls') ->
     exists its : list (list value * list value * list scalar),
       Forall2 (native_iteration reward_pipe default_collate) batches its /\
       results'
       = results ++ concat (map (fun it => map native_verdict it.2) its) /\
       calls' = calls ++ map (fun it => [VList it.1.1; VList it.1.2]) its) /\
  (forall (batch_size : Z) (ds : dataset) results' calls',
     run_manual reward_pipe default_collate model chat_template
       batch_size ds [] = Ok (results', calls') ->
     exists (batches : list (list example))
            (its : list (list value * list value * list scalar)),
       concat batches = ds /\
       Forall (fun b => (1 <= length b <= Z.to_nat batch_size)%nat) batches /\
       Forall2 (native_iteration reward_pipe default_collate) batches its /\
       results' = concat (map (fun it => map native_verdict it.2) its) /\
       calls' = map (fun it => [VList it.1.1; VList it.1.2]) its).
Proof.
  intros Hsel. apply pairwise_adapter_native in Hsel. split; [|split].
  - intros batch results calls tc tr judgments Htc Htr Hpipe.
    apply (batch_step_native_Ok _ _ _ _ _ _ _ _ Hsel).
    exists tr, tc, (OutTensor (map SBool judgments)), (map SBool judgments).
    repeat (split; [assumption || reflexivity|]).
    split; [|reflexivity]. rewrite map_map. reflexivity.
  - intros batches results calls results' calls'.
    apply batch_loop_native_Ok. exact Hsel.
  - intros batch_size ds results' calls' H.
    apply run_manual_Ok in H as (Hpos & _ & H).
    destruct (batch_loop_native_Ok _ _ _ _ _ _ _ _ _ Hsel H)
      as (its & Hits & Hres & Hcalls).
    destruct (chunks_spec (Z.to_nat batch_size) ds) as [Hcat Hall]; [lia|].
    exists (chunks (Z.to_nat batch_size) ds), its. auto.
Qed.

(** ** Pad-token correction *)

(** C8: when the tokenizer has no pad token and its end-of-sequence token
    is [e], the correction sets the pad token of the tokenizer (and of the
    model configuration) to [e]; when a pad token is already set nothing
    changes; the end-of-sequence token is never touched; and correcting
    twice is the same as correcting once. *)
Theorem set_pad_token_idempotent (reward_pipe : pipe_state) :
  (forall e : Z,
     pad_token_id (pipe_tokenizer reward_pipe) = None ->
     eos_token_id (pipe_tokenizer reward_pipe) = Some e ->
     pad_token_id (pipe_tokenizer (set_pad_token reward_pipe)) = Some e /\
     model_config_pad_token_id (set_pad_token reward_pipe) = Some e) /\
  (pad_token_id (pipe_tokenizer reward_pipe) <> None ->
   set_pad_token reward_pipe = reward_pipe) /\
  eos_token_id (pipe_tokenizer (set_pad_token reward_pipe))
    = eos_token_id (pipe_tokenizer reward_pipe) /\
  set_pad_token (set_pad_token reward_pipe) = set_pad_token reward_pipe.
Proof.
  destruct reward_pipe as [[pad eos] cfg]. unfold set_pad_token. simpl.
  destruct pad as [p|]; simpl.
  - repeat split; try discriminate; reflexivity.
  - repeat split.
    + congruence.
    + congruence.
    + intros H. congruence.
    + destruct eos; reflexivity.
Qed.

(** ** Dialogue formatting *)

Lemma getitem_Ok (d : example) (k : string) (v : value) :
  getitem d k = Ok v <-> d !! k = Some v.
Proof.
  unfold getitem. destruct (d !! k); split; congruence.
Qed.

Lemma drop_columns_lookup (names : list string) (ex : example) (k : string) :
  drop_columns names ex !! k
  = if bool_decide (k ∈ names) then None else ex !! k.
Proof.
  induction names as [|n names IH]; simpl.
  - reflexivity.
  - destruct (decide (n = k)) as [->|Hne].
    + rewrite lookup_delete_eq.
      rewrite bool_decide_eq_true_2 by (left). reflexivity.
    + rewrite lookup_delete_ne by exact Hne. rewrite IH.
      destruct (decide (k ∈ names)) as [Hin|Hnin].
      * rewrite !bool_decide_eq_true_2; [reflexivity|right; exact Hin|exact Hin].
      * rewrite !bool_decide_eq_false_2; [reflexivity| |exact Hnin].
        intros Hin. apply elem_of_cons in Hin as [->|Hin]; congruence.
Qed.

Lemma map_conversations_Ok (ex : example) (prompt chosen rejected : value) :
  ex !! "prompt" = Some prompt ->
  ex !! "chosen" = Some chosen ->
  ex !! "rejected" = Some rejected ->
  map_conversations ex
  = Ok (<["text_rejected" := make_conversation prompt rejected]>
          (<["text_chosen" := make_conversation prompt chosen]> ex)).
Proof.
  intros Hp Hc Hr. unfold map_conversations, getitem.
  rewrite Hp, Hc. simpl.
  rewrite !lookup_insert_ne by discriminate. rewrite Hp, Hr. reflexivity.
Qed.

Lemma map_conversations_testsets_Ok (ex : example) (turns : list value)
    (chosen rejected : value) :
  ex !! "prompt" = Some (VList turns) ->
  ex !! "chosen" = Some chosen ->
  ex !! "rejected" = Some rejected ->
  map_conversations_testsets ex
  = Ok (<["text_rejected" := VList (turns ++ [turn "assistant" rejected])]>
          (<["text_chosen" := VList (turns ++ [turn "assistant" chosen])]> ex)).
Proof.
  intros Hp Hc Hr. unfold map_conversations_testsets, getitem.
  rewrite Hp, Hc. simpl.
  rewrite !lookup_insert_ne by discriminate. rewrite Hr. reflexivity.
Qed.

Lemma turn_eq (role : string) (content : value) :
  turn role content = VDict {["role" := VStr role; "content" := content]}.
Proof.
  unfold turn. f_equal.
Qed.

(** C6: under the structured-turn strategy a row with prompt [prompt] and
    responses [chosen] and [rejected] gets as text_chosen the two-element
    list of the user turn holding the prompt and the assistant turn holding
    the chosen response, and as text_rejected the same with the rejected
    response; in preference-test-set mode, where the prompt is a list of
    turns, the assistant turn is appended to that list.  Both fields are
    still there once the original columns are removed. *)
Theorem structured_turn_formatting (ex : example)
    (prompt chosen rejected : value) :
  ex !! "prompt" = Some prompt ->
  ex !! "chosen" = Some chosen ->
  ex !! "rejected" = Some rejected ->
  (exists ex' : example,
     map_conversations ex = Ok ex' /\
     ex' !! "text_chosen"
     = Some (VList [VDict {["role" := VStr "user"; "content" := prompt]};
                    VDict {["role" := VStr "assistant"; "content" := chosen]}]) /\
     ex' !! "text_rejected"
     = Some (VList [VDict {["role" := VStr "user"; "content" := prompt]};
                    VDict {["role" := VStr "assistant"; "content" := rejected]}]) /\
     drop_columns ["prompt"; "chosen"; "rejected"; "subset"] ex'
       !! "text_chosen" = ex' !! "text_chosen" /\
     drop_columns ["prompt"; "chosen"; "rejected"; "subset"] ex'
       !! "text_rejected" = ex' !! "text_rejected") /\
  (forall turns : list value,
     prompt = VList turns ->
     exists ex' : example,
       map_conversations_testsets ex = Ok ex' /\
       ex' !! "text_chosen"
       = Some (VList (turns ++
            [VDict {["role" := VStr "assistant"; "content" := chosen]}])) /\
       ex' !! "text_rejected"
       = Some (VList (turns ++
            [VDict {["role" := VStr "assistant"; "content" := rejected]}])) /\
       drop_columns ["prompt"; "chosen"; "rejected"; "subset"; "subsubset"] ex'
         !! "text_chosen" = ex' !! "text_chosen" /\
       drop_columns ["prompt"; "chosen"; "rejected"; "subset"; "subsubset"] ex'
         !! "text_rejected" = ex' !! "text_rejected").
Proof.
  intros Hp Hc Hr. split.
  - eexists. split; [apply (map_conversations_Ok _ _ _ _ Hp Hc Hr)|].
    rewrite !drop_columns_lookup. simpl.
    rewrite lookup_insert_ne by discriminate.
    rewrite !lookup_insert_eq.
    unfold make_conversation. rewrite !turn_eq. auto.
  - intros turns ->. eexists.
    split; [apply (map_conversations_testsets_Ok _ _ _ _ Hp Hc Hr)|].
    rewrite !drop_columns_lookup. simpl.
    rewrite lookup_insert_ne by discriminate.
    rewrite !lookup_insert_eq.
    rewrite !turn_eq. auto.
Qed.

Lemma res_mapM_Ok_lookup_inv {A B} (f : A -> res B) l out i y :
  res_mapM f l = Ok out -> out !! i = Some y ->
  exists x, l !! i = Some x /\ f x = Ok y.
Proof.
  intros H Hy.
  assert (is_Some (l !! i)) as [x Hx].
  { apply lookup_lt_is_Some. rewrite <- (res_mapM_Ok_length _ _ _ H).
    apply lookup_lt_is_Some. eauto. }
  destruct (res_mapM_Ok_lookup _ _ _ _ _ H Hx) as (y' & Hf & Hy').
  exists x. split; [assumption|]. congruence.
Qed.

Lemma has_column_true (ds : dataset) (c : string) :
  has_column ds c = true <-> forall ex, ex ∈ ds -> is_Some (ex !! c).
Proof.
  unfold has_column. induction ds as [|ex ds IH]; simpl.
  - split; [intros _ ex H; inversion H | reflexivity].
  - rewrite andb_true_iff, IH, bool_decide_eq_true. split.
    + intros [H1 H2] ex' Hin. apply elem_of_cons in Hin as [->|Hin]; auto.
    + intros H. split; [apply H; left | intros ex' Hin; apply H; right; exact Hin].
Qed.

Lemma columns_present (ds : dataset) (cols : list string) :
  forallb (has_column ds) cols = true <->
  forall ex c, ex ∈ ds -> c ∈ cols -> is_Some (ex !! c).
Proof.
  induction cols as [|c cols IH]; simpl.
  - split; [intros _ ex c _ H; inversion H | reflexivity].
  - rewrite andb_true_iff, IH, has_column_true. split.
    + intros [H1 H2] ex c' Hex Hc.
      apply elem_of_cons in Hc as [->|Hc]; auto.
    + intros H. split.
      * intros ex Hex. apply H; [exact Hex | left].
      * intros ex c' Hex Hc. apply H; [exact Hex | right; exact Hc].
Qed.

(** What a successful [map] returns: as many rows, the i-th one computed
    from the i-th input row alone, none carrying a removed column. *)
Lemma Dataset_map_Ok function (remove_columns : list string)
    (ds out : dataset) :
  Dataset_map function remove_columns ds = Ok out ->
  length out = length ds /\
  (forall i ex, ds !! i = Some ex ->
     exists ex', function ex = Ok ex' /\
                 out !! i = Some (drop_columns remove_columns ex')) /\
  (forall ex' c, ex' ∈ out -> c ∈ remove_columns -> ex' !! c = None).
Proof.
  unfold Dataset_map.
  destruct (forallb (has_column ds) remove_columns); [|discriminate].
  intros H. split; [exact (res_mapM_Ok_length _ _ _ H)|]. split.
  - intros i ex Hi.
    destruct (res_mapM_Ok_lookup _ _ _ _ _ H Hi) as (y & Hy & Hout).
    step_inv Hy as ex' Hex'. injection Hy as <-. eauto.
  - intros ex' c Hin Hc.
    apply list_elem_of_lookup in Hin as [i Hi].
    destruct (res_mapM_Ok_lookup_inv _ _ _ _ _ H Hi) as (x & _ & Hy).
    step_inv Hy as ex'' Hex''. injection Hy as <-.
    rewrite drop_columns_lookup, bool_decide_eq_true_2 by exact Hc.
    reflexivity.
Qed.

Lemma Dataset_map_succeeds function (remove_columns : list string)
    (ds : dataset) :
  (forall ex, ex ∈ ds ->
     (exists ex', function ex = Ok ex') /\
     (forall c, c ∈ remove_columns -> is_Some (ex !! c))) ->
  exists out, Dataset_map function remove_columns ds = Ok out.
Proof.
  intros Hall. unfold Dataset_map.
  assert (forallb (has_column ds) remove_columns = true) as ->.
  { apply columns_present. intros ex c Hex Hc. apply (Hall ex Hex), Hc. }
  apply res_mapM_Ok_all. intros ex Hex.
  destruct (Hall ex Hex) as [[ex' Hex'] _]. rewrite Hex'. simpl. eauto.
Qed.

Lemma prepare_dataset_eq conv_t prepare_dialogue
    (custom_dialogue0 pref_sets : bool) (conv : conv_t) (raw : dataset) :
  prepare_dataset conv_t prepare_dialogue custom_dialogue0 pref_sets conv raw
  = Dataset_map
      (format_row conv_t prepare_dialogue custom_dialogue0 pref_sets conv)
      (removed_columns custom_dialogue0 pref_sets) raw.
Proof. destruct custom_dialogue0, pref_sets; reflexivity. Qed.

Lemma map_conversations_fields (ex ex' : example) :
  map_conversations ex = Ok ex' ->
  is_Some (ex' !! "text_chosen") /\ is_Some (ex' !! "text_rejected").
Proof.
  unfold map_conversations. intros H.
  step_inv H as p Hp. step_inv H as c Hc.
  step_inv H as p' Hp'. step_inv H as r Hr. injection H as <-.
  rewrite lookup_insert_ne by discriminate. rewrite !lookup_insert_eq. eauto.
Qed.

Lemma map_conversations_testsets_fields (ex ex' : example) :
  map_conversations_testsets ex = Ok ex' ->
  is_Some (ex' !! "text_chosen") /\ is_Some (ex' !! "text_rejected").
Proof.
  unfold map_conversations_testsets. intros H.
  step_inv H as p Hp. step_inv H as c Hc. step_inv H as tc Htc.
  step_inv H as r Hr. step_inv H as tr Htr. injection H as <-.
  rewrite lookup_insert_ne by discriminate. rewrite !lookup_insert_eq. eauto.
Qed.

(** C7: under either strategy, a formatting step that returns a dataset
    returns one with as many rows as the raw one, in the same order: its
    i-th row is computed from the i-th raw row alone (the row function of
    the strategy, then the removal of the columns); no row of it carries
    prompt, chosen or rejected; and under the structured-turn strategy
    every row carries text_chosen and text_rejected. *)
Theorem dialogue_formatting_order_preserving conv_t prepare_dialogue
    (custom_dialogue0 pref_sets : bool) (conv : conv_t) (raw ds : dataset) :
  prepare_dataset conv_t prepare_dialogue custom_dialogue0 pref_sets
    conv raw = Ok ds ->
  length ds = length raw /\
  (forall i ex, raw !! i = Some ex ->
     exists ex',
       format_row conv_t prepare_dialogue custom_dialogue0 pref_sets
         conv ex = Ok ex' /\
       ds !! i
       = Some (drop_columns (removed_columns custom_dialogue0 pref_sets)
                 ex')) /\
  (forall ex', ex' ∈ ds ->
     ex' !! "prompt" = None /\ ex' !! "chosen" = None /\
     ex' !! "rejected" = None) /\
  (custom_dialogue0 = true ->
   forall ex', ex' ∈ ds ->
     is_Some (ex' !! "text_chosen") /\
     is_Some (ex' !! "text_rejected")).
Proof.
  rewrite prepare_dataset_eq. intros H.
  destruct (Dataset_map_Ok _ _ _ _ H) as (Hlen & Hrow & Hgone).
  split; [exact Hlen|]. split; [exact Hrow|]. split.
  - intros ex' Hin.
    repeat split; apply (Hgone ex' _ Hin);
      destruct custom_dialogue0, pref_sets; simpl; set_solver.
  - intros -> ex' Hin.
    apply list_elem_of_lookup in Hin as [i Hi].
    assert (is_Some (raw !! i)) as [ex Hex].
    { apply lookup_lt_is_Some. rewrite <- Hlen.
      apply lookup_lt_is_Some. eauto. }
    destruct (Hrow i ex Hex) as (ex0 & Hf & Hds).
    rewrite Hi in Hds. injection Hds as ->.
    rewrite !drop_columns_lookup.
    destruct pref_sets; simpl in *.
    + apply map_conversations_testsets_fields in Hf. exact Hf.
    + apply map_conversations_fields in Hf. exact Hf.
Qed.

(** ** Per-subset accuracy *)

Lemma res_mapM_Raise {A B} (f : A -> res B) l e :
  res_mapM f l = Raise e -> exists x, x ∈ l /\ f x = Raise e.
Proof.
  induction l as [|x l IH]; simpl; [discriminate|].
  destruct (f x) as [y|e'] eqn:Hx; simpl.
  - destruct (res_mapM f l) as [ys|e'']; simpl; [discriminate|].
    intros H. injection H as ->.
    destruct IH as (x' & Hin & Hx'); [reflexivity|].
    exists x'. split; [right; exact Hin | exact Hx'].
  - intros H. injection H as ->. exists x. split; [left | exact Hx].
Qed.

Lemma add_column_Ok (ds : dataset) (name : string) (col : list value) out :
  add_column ds name col = Ok out ->
  (forall ex, ex ∈ ds -> ex !! name = None) /\
  length col = length ds /\
  out = zip_with (fun (ex : example) v => <[name := v]> ex) ds col.
Proof.
  unfold add_column.
  destruct (existsb _ ds) eqn:Hex; [discriminate|].
  destruct (length col =? length ds)%nat eqn:Hlen; simpl; [|discriminate].
  intros H. injection H as <-. split; [|split].
  - intros ex Hin.
    destruct (ex !! name) as [v|] eqn:Hv; [|reflexivity].
    exfalso. apply list_elem_of_In in Hin.
    assert (existsb (fun ex : example => bool_decide (is_Some (ex !! name))) ds
            = true) as Ht.
    { apply existsb_exists. exists ex. split; [exact Hin|].
      apply bool_decide_eq_true. rewrite Hv. eauto. }
    congruence.
  - apply Nat.eqb_eq. exact Hlen.
  - reflexivity.
Qed.

Lemma add_column_succeeds (ds : dataset) (name : string) (col : list value) :
  (forall ex, ex ∈ ds -> ex !! name = None) ->
  length col = length ds ->
  add_column ds name col
  = Ok (zip_with (fun (ex : example) v => <[name := v]> ex) ds col).
Proof.
  intros Hnone Hlen. unfold add_column.
  destruct (existsb _ ds) eqn:Hex.
  - apply existsb_exists in Hex as (ex & Hin & Hb).
    apply list_elem_of_In in Hin. apply bool_decide_eq_true in Hb.
    rewrite (Hnone ex Hin) in Hb. destruct Hb; discriminate.
  - rewrite (proj2 (Nat.eqb_eq _ _) Hlen). reflexivity.
Qed.

Lemma add_column_Raise (ds : dataset) (name : string) (col : list value) e :
  add_column ds name col = Raise e -> e = ValueError.
Proof.
  unfold add_column.
  destruct (existsb _ ds); [congruence|].
  destruct (negb _); [congruence | discriminate].
Qed.

Lemma subset_of_Ok (ex : example) (s : string) :
  subset_of ex = Ok (LStr s) <-> ex !! "subset" = Some (VStr s).
Proof.
  unfold subset_of.
  destruct (ex !! "subset") as [[]|]; simpl; split; congruence.
Qed.

Lemma subset_of_is_Some (ex : example) (subset : subset_label) :
  subset_of ex = Ok subset -> is_Some (ex !! "subset").
Proof.
  unfold subset_of. destruct (ex !! "subset") as [v|]; [eauto | discriminate].
Qed.

Lemma subset_of_Raise (ex : example) e :
  subset_of ex = Raise e -> e = ValueError \/ e = NotImplementedError.
Proof.
  unfold subset_of.
  destruct (ex !! "subset") as [[]|]; simpl; intros H;
    try discriminate; injection H as <-; auto.
Qed.

Lemma unique_elem_of {A} `{EqDecision A} (l : list A) (s : A) :
  s ∈ unique l <-> s ∈ l.
Proof.
  induction l as [|x l IH]; simpl; [reflexivity|].
  rewrite !elem_of_cons, list_elem_of_filter, IH.
  destruct (decide (s = x)); intuition.
Qed.

Lemma unique_NoDup {A} `{EqDecision A} (l : list A) : NoDup (unique l).
Proof.
  induction l as [|x l IH]; simpl; constructor.
  - rewrite list_elem_of_filter. intros [H _]. congruence.
  - apply NoDup_filter. exact IH.
Qed.

(** String labels among the labels of any kind. *)
Lemma elem_of_map_LStr (s : string) (l : list string) :
  LStr s ∈ map LStr l <-> s ∈ l.
Proof.
  induction l as [|x l IH]; simpl.
  - split; intros H; inversion H.
  - rewrite !elem_of_cons, IH. split; intros [H|H]; auto.
    + injection H as ->. auto.
    + subst. auto.
Qed.

Lemma NoDup_map_LStr (l : list string) : NoDup (map LStr l) -> NoDup l.
Proof.
  induction l as [|x l IH]; simpl; intros H; [constructor|].
  apply NoDup_cons in H as [Hx H].
  constructor; [|apply IH; exact H].
  intros Hin. apply Hx, elem_of_map_LStr. exact Hin.
Qed.

Lemma filter_map_LStr (x : string) (l : list string) :
  filter (fun y => y ≠ LStr x) (map LStr l)
  = map LStr (filter (fun y => y ≠ x) l).
Proof.
  induction l as [|y l IH]; simpl; [reflexivity|].
  rewrite !filter_cons, IH.
  destruct (decide (y = x)) as [->|Hne].
  - rewrite decide_False by (intros H; apply H; reflexivity).
    rewrite decide_False by (intros H; apply H; reflexivity). reflexivity.
  - rewrite decide_True by congruence.
    rewrite decide_True by exact Hne. reflexivity.
Qed.

Lemma unique_map_LStr (l : list string) :
  unique (map LStr l) = map LStr (unique l).
Proof.
  induction l as [|x l IH]; simpl; [reflexivity|].
  rewrite IH, filter_map_LStr. reflexivity.
Qed.

Lemma strings_of_map_LStr (l : list string) :
  strings_of (map LStr l) = Some l.
Proof.
  induction l as [|x l IH]; simpl; [reflexivity|]. rewrite IH. reflexivity.
Qed.

Lemma strings_of_Some (labels : list subset_label) (l : list string) :
  strings_of labels = Some l -> labels = map LStr l.
Proof.
  revert l. induction labels as [|[s|f|z] labels IH]; simpl; intros l H;
    try discriminate.
  - injection H as <-. reflexivity.
  - destruct (strings_of labels) as [l'|]; [|discriminate].
    injection H as <-. rewrite (IH l' eq_refl). reflexivity.
Qed.
Lemma py_sum_ints (l : list Z) : py_sum (map VInt l) = Ok (sum_Z l).
Proof.
  induction l as [|z l IH]; simpl; [reflexivity|].
  rewrite IH. reflexivity.
Qed.

(** Filtering the dataset extended with the verdicts on one subset and
    reading the results column back gives the verdicts of that subset. *)
Lemma filter_results_column (subset : string) (raw : dataset)
    (results : list Z) :
  length results = length raw ->
  (forall ex, ex ∈ raw -> is_Some (ex !! "subset")) ->
  exists subset_dataset,
    Dataset_filter
      (fun ex => let* s := getitem ex "subset" in Ok (eq_str s subset))
      (zip_with (fun (ex : example) v => <["results" := v]> ex) raw
         (map VInt results))
    = Ok subset_dataset /\
    column subset_dataset "results"
    = Ok (map VInt (verdicts_of_subset subset raw results)).
Proof.
  revert results. induction raw as [|ex raw IH]; intros results Hlen Hsub.
  - destruct results; [|discriminate]. simpl. eauto.
  - destruct results as [|v results]; [discriminate|].
    simpl in Hlen. injection Hlen as Hlen.
    destruct (IH results Hlen) as (sd & Hsd & Hcol).
    { intros ex' Hin. apply Hsub. right. exact Hin. }
    destruct (Hsub ex) as [sv Hsv]; [left|].
    simpl. unfold getitem at 1.
    rewrite lookup_insert_ne by discriminate. rewrite Hsv. simpl.
    rewrite Hsd. simpl.
    destruct (eq_str sv subset).
    + eexists. split; [reflexivity|].
      unfold column in *. simpl. unfold getitem at 1.
      rewrite lookup_insert_eq. simpl. rewrite Hcol. reflexivity.
    + eexists. split; [reflexivity|]. exact Hcol.
Qed.

Lemma verdicts_of_subset_nonempty (subset : string) (raw : dataset)
    (results : list Z) :
  length results = length raw ->
  (exists ex, ex ∈ raw /\ ex !! "subset" = Some (VStr subset)) ->
  (1 <= length (verdicts_of_subset subset raw results))%nat.
Proof.
  revert results. induction raw as [|ex raw IH]; intros results Hlen Hex.
  - destruct Hex as (ex & Hin & _). inversion Hin.
  - destruct results as [|v results]; [discriminate|].
    simpl in Hlen. injection Hlen as Hlen. simpl.
    destruct Hex as (ex' & Hin & Hs).
    apply elem_of_cons in Hin as [->|Hin].
    + rewrite Hs. simpl. rewrite bool_decide_eq_true_2 by reflexivity.
      simpl. lia.
    + assert (1 <= length (verdicts_of_subset subset raw results))%nat
        as Hrest by (apply IH; eauto).
      destruct (ex !! "subset") as [sv|]; [|exact Hrest].
      destruct (eq_str sv subset); simpl; lia.
Qed.

Lemma py_truediv_Ok (a b : Z) :
  b <> 0 -> py_truediv a b
            = Ok (SFdiv prec emax (int_as_float a) (int_as_float b)).
Proof.
  intros Hb. unfold py_truediv.
  destruct (b =? 0) eqn:Hz; [|reflexivity].
  apply Z.eqb_eq in Hz. contradiction.
Qed.

(** The counts and the accuracy of one subset that has a row. *)
Lemma subset_accuracy_Ok (subset : string) (raw : dataset)
    (results : list Z) :
  length results = length raw ->
  (forall ex, ex ∈ raw -> is_Some (ex !! "subset")) ->
  (exists ex, ex ∈ raw /\ ex !! "subset" = Some (VStr subset)) ->
  exists acc,
    py_truediv (sum_Z (verdicts_of_subset subset raw results))
      (Z.of_nat (length (verdicts_of_subset subset raw results))) = Ok acc /\
    subset_accuracy
      (zip_with (fun (ex : example) v => <["results" := v]> ex) raw
         (map VInt results)) subset
    = Ok (sum_Z (verdicts_of_subset subset raw results),
          Z.of_nat (length (verdicts_of_subset subset raw results)),
          acc).
Proof.
  intros Hlen Hsub Hex.
  destruct (filter_results_column subset raw results Hlen Hsub)
    as (sd & Hsd & Hcol).
  assert (Hne := verdicts_of_subset_nonempty subset raw results Hlen Hex).
  eexists. split.
  - apply py_truediv_Ok. lia.
  - unfold subset_accuracy. rewrite Hsd. simpl. rewrite Hcol. simpl.
    rewrite py_sum_ints. simpl. rewrite length_map.
    rewrite py_truediv_Ok by lia. reflexivity.
Qed.

(** The loop over the subsets succeeds when every subset's accuracy does;
    the report then maps each subset to its accuracy and keeps every other
    key as it was. *)
Lemma report_loop_Ok (out_dataset : dataset) (present_subsets : list string)
    (results : example) :
  (forall s, s ∈ present_subsets ->
     exists counts, subset_accuracy out_dataset s = Ok counts) ->
  exists report,
    report_loop out_dataset present_subsets results = Ok report /\
    (forall s, s ∈ present_subsets ->
       exists counts,
         subset_accuracy out_dataset s = Ok counts /\
         report !! s = Some (VFloat counts.2)) /\
    (forall k, k ∉ present_subsets -> report !! k = results !! k).
Proof.
  revert results.
  induction present_subsets as [|s0 rest IH]; intros results Hall; simpl.
  - exists results. split; [reflexivity|]. split; [|reflexivity].
    intros s H. inversion H.
  - destruct (Hall s0) as ([[nc nt] acc] & Hs0); [left|].
    rewrite Hs0. simpl.
    destruct (IH (<[s0 := VFloat acc]> results)) as (report & Hrep & Hin & Hout).
    { intros s Hs. apply Hall. right. exact Hs. }
    exists report. split; [exact Hrep|]. split.
    + intros s Hs. destruct (decide (s ∈ rest)) as [Hr|Hr].
      * apply Hin. exact Hr.
      * apply elem_of_cons in Hs as [->|Hs]; [|contradiction].
        exists (nc, nt, acc). split; [exact Hs0|].
        rewrite (Hout s0 Hr). apply lookup_insert_eq.
    + intros k Hk. apply not_elem_of_cons in Hk as [Hne Hk].
      rewrite (Hout k Hk). apply lookup_insert_ne. congruence.
Qed.

Lemma unique_subsets_Ok (raw : dataset) (subsets : list string) :
  Dataset_unique_subset raw = Ok (map LStr subsets) ->
  NoDup subsets /\
  (forall ex, ex ∈ raw -> is_Some (ex !! "subset")) /\
  (forall s, s ∈ subsets <->
             exists ex, ex ∈ raw /\ ex !! "subset" = Some (VStr s)).
Proof.
  unfold Dataset_unique_subset. intros H.
  step_inv H as ss Hss. injection H as Hu.
  split; [apply NoDup_map_LStr; rewrite <- Hu; apply unique_NoDup|]. split.
  - intros ex Hin. apply list_elem_of_lookup in Hin as [i Hi].
    destruct (res_mapM_Ok_lookup _ _ _ _ _ Hss Hi) as (s & Hs & _).
    apply (subset_of_is_Some _ _ Hs).
  - intros s. rewrite <- elem_of_map_LStr, <- Hu, unique_elem_of. split.
    + intros Hin. apply list_elem_of_lookup in Hin as [i Hi].
      destruct (res_mapM_Ok_lookup_inv _ _ _ _ _ Hss Hi) as (ex & Hex & Hs).
      exists ex. split; [eapply list_elem_of_lookup_2; exact Hex|].
      apply subset_of_Ok. exact Hs.
    + intros (ex & Hin & Hs). apply list_elem_of_lookup in Hin as [i Hi].
      destruct (res_mapM_Ok_lookup _ _ _ _ _ Hss Hi) as (s' & Hs' & Hlook).
      apply subset_of_Ok in Hs. rewrite Hs in Hs'. injection Hs' as <-.
      eapply list_elem_of_lookup_2. exact Hlook.
Qed.

Lemma subset_labels_strings (raw : dataset) :
  (forall ex, ex ∈ raw -> exists s, ex !! "subset" = Some (VStr s)) ->
  exists ss, res_mapM subset_of raw = Ok (map LStr ss).
Proof.
  induction raw as [|ex raw IH]; intros Hall.
  - exists []. reflexivity.
  - destruct (Hall ex) as [s Hs]; [left|].
    destruct IH as [ss Hss].
    { intros ex' Hin. apply Hall. right. exact Hin. }
    exists (s :: ss). simpl.
    rewrite (proj2 (subset_of_Ok ex s) Hs). simpl. rewrite Hss. reflexivity.
Qed.

Lemma unique_subsets_succeeds (raw : dataset) :
  (forall ex, ex ∈ raw -> exists s, ex !! "subset" = Some (VStr s)) ->
  exists subsets, Dataset_unique_subset raw = Ok (map LStr subsets).
Proof.
  intros Hall. unfold Dataset_unique_subset.
  destruct (subset_labels_strings raw Hall) as [ss Hss].
  exists (unique ss). rewrite Hss. simpl. rewrite unique_map_LStr. reflexivity.
Qed.

(** A report that is returned comes out of the loop over string labels. *)
Lemma process_results_Ok (model chat_template : string) (raw : dataset)
    (results : list Z) (report : example) :
  process_results model chat_template raw results = Ok report ->
  exists out_dataset subsets,
    add_column raw "results" (map VInt results) = Ok out_dataset /\
    Dataset_unique_subset raw = Ok (map LStr subsets) /\
    report_loop out_dataset subsets
      (<["chat_template" := VStr chat_template]>
         (<["model" := VStr model]> ∅)) = Ok report.
Proof.
  unfold process_results. intros H.
  step_inv H as out Hadd. step_inv H as labels Huniq.
  destruct (strings_of labels) as [subsets|] eqn:Hstr.
  - apply strings_of_Some in Hstr as ->. eauto.
  - destruct (res_mapM (label_accuracy out) labels); discriminate.
Qed.

(** Once the results column is added and the subsets are listed, the
    report is produced, with one accuracy per subset. *)
Lemma process_results_from (model chat_template : string) (raw : dataset)
    (results : list Z) out_dataset subsets :
  add_column raw "results" (map VInt results) = Ok out_dataset ->
  Dataset_unique_subset raw = Ok (map LStr subsets) ->
  exists report,
    process_results model chat_template raw results = Ok report /\
    (forall s, s ∈ subsets ->
       exists acc,
         py_truediv (sum_Z (verdicts_of_subset s raw results))
           (Z.of_nat (length (verdicts_of_subset s raw results))) = Ok acc /\
         subset_accuracy out_dataset s
         = Ok (sum_Z (verdicts_of_subset s raw results),
               Z.of_nat (length (verdicts_of_subset s raw results)), acc) /\
         report !! s = Some (VFloat acc)) /\
    (forall k, k ∉ subsets ->
       report !! k
       = (<["chat_template" := VStr chat_template]>
            (<["model" := VStr model]> ∅) : example) !! k).
Proof.
  intros Hadd Huniq.
  destruct (add_column_Ok _ _ _ _ Hadd) as (_ & Hlen & ->).
  rewrite length_map in Hlen.
  destruct (unique_subsets_Ok _ _ Huniq) as (_ & Hsub & Hiff).
  assert (forall s, s ∈ subsets ->
            exists acc,
              py_truediv (sum_Z (verdicts_of_subset s raw results))
                (Z.of_nat (length (verdicts_of_subset s raw results)))
              = Ok acc /\
              subset_accuracy
                (zip_with (fun (ex : example) v => <["results" := v]> ex) raw
                   (map VInt results)) s
              = Ok (sum_Z (verdicts_of_subset s raw results),
                    Z.of_nat (length (verdicts_of_subset s raw results)), acc))
    as Hacc.
  { intros s Hs. apply subset_accuracy_Ok; [exact Hlen | exact Hsub|].
    apply Hiff. exact Hs. }
  destruct (report_loop_Ok
              (zip_with (fun (ex : example) v => <["results" := v]> ex) raw
                 (map VInt results))
              subsets
              (<["chat_template" := VStr chat_template]>
                 (<["model" := VStr model]> ∅)))
    as (report & Hrep & Hin & Hout).
  { intros s Hs. destruct (Hacc s Hs) as (acc & _ & Ha). eauto. }
  exists report. split.
  - unfold process_results. rewrite Hadd. simpl. rewrite Huniq. simpl.
    rewrite strings_of_map_LStr. exact Hrep.
  - split; [|exact Hout].
    intros s Hs. destruct (Hacc s Hs) as (acc & Hdiv & Ha).
    destruct (Hin s Hs) as (counts & Hc & Hr).
    rewrite Ha in Hc. injection Hc as <-. eauto.
Qed.

(** C5: for a dataset whose rows carry a string subset and no results
    column yet, and one verdict per row, the report is produced; for every
    subset label of the dataset the rows are grouped by the subset column,
    num_correct is the sum of the verdicts of the group, num_total the
    number of its rows, and the accuracy stored in the report under the
    label is the float quotient num_correct / num_total. *)
Theorem per_subset_accuracy (model chat_template : string) (raw : dataset)
    (results : list Z) :
  length results = length raw ->
  (forall ex, ex ∈ raw ->
     ex !! "results" = None /\ exists s, ex !! "subset" = Some (VStr s)) ->
  exists out_dataset report,
    add_column raw "results" (map VInt results) = Ok out_dataset /\
    process_results model chat_template raw results = Ok report /\
    forall subset,
      (exists ex, ex ∈ raw /\ ex !! "subset" = Some (VStr subset)) ->
      exists acc,
        subset_accuracy out_dataset subset
        = Ok (sum_Z (verdicts_of_subset subset raw results),
              Z.of_nat (length (verdicts_of_subset subset raw results)),
              acc) /\
        py_truediv (sum_Z (verdicts_of_subset subset raw results))
          (Z.of_nat (length (verdicts_of_subset subset raw results)))
        = Ok acc /\
        report !! subset = Some (VFloat acc).
Proof.
  intros Hlen Hrows.
  assert (add_column raw "results" (map VInt results)
          = Ok (zip_with (fun (ex : example) v => <["results" := v]> ex) raw
                  (map VInt results))) as Hadd.
  { apply add_column_succeeds.
    - intros ex Hin. apply (Hrows ex Hin).
    - rewrite length_map. exact Hlen. }
  destruct (unique_subsets_succeeds raw) as [subsets Huniq].
  { intros ex Hin. apply (Hrows ex Hin). }
  destruct (process_results_from model chat_template raw results _ _
              Hadd Huniq) as (report & Hrep & Hin & _).
  destruct (unique_subsets_Ok _ _ Huniq) as (_ & _ & Hiff).
  do 2 eexists. split; [exact Hadd|]. split; [exact Hrep|].
  intros subset Hex. apply Hiff in Hex.
  destruct (Hin subset Hex) as (acc & Hdiv & Hacc & Hr). eauto.
Qed.

(** *** Labels that are not strings *)

Lemma SFeqb_refl (f : spec_float) : f <> S754_nan -> SFeqb f f = true.
Proof.
  intros Hf. unfold SFeqb.
  destruct f as [s|s| |s m e]; simpl; try (destruct s; reflexivity);
    try contradiction.
  destruct s; rewrite Z.compare_refl;
    change (Pos.compare_cont Eq m m) with (m ?= m)%positive;
    rewrite Pos.compare_refl; reflexivity.
Qed.

(** A value that can stand in a subset column without making a label
    unequal to itself: a string, an int, or a float other than NaN. *)
Lemma subset_of_eq_label (ex : example) (subset : subset_label) :
  subset_of ex = Ok subset ->
  ex !! "subset" <> Some (VFloat S754_nan) ->
  exists v, ex !! "subset" = Some v /\ eq_label v subset = true.
Proof.
  unfold subset_of. intros H Hnan.
  destruct (ex !! "subset") as [[z|f|s|l|d]|]; try discriminate;
    injection H as <-; eexists; (split; [reflexivity|]); simpl.
  - apply Z.eqb_refl.
  - apply SFeqb_refl. congruence.
  - apply bool_decide_eq_true_2. reflexivity.
Qed.

(** Filtering the dataset extended with the verdicts by any test on the
    subset and reading the results column back gives a list of verdicts,
    which is not empty when some row passes the test. *)
Lemma filter_results_where (keep : value -> bool) (raw : dataset)
    (results : list Z) :
  length results = length raw ->
  (forall ex, ex ∈ raw -> is_Some (ex !! "subset")) ->
  exists subset_dataset verdicts,
    Dataset_filter
      (fun ex => let* s := getitem ex "subset" in Ok (keep s))
      (zip_with (fun (ex : example) v => <["results" := v]> ex) raw
         (map VInt results))
    = Ok subset_dataset /\
    column subset_dataset "results" = Ok (map VInt verdicts) /\
    ((exists ex v, ex ∈ raw /\ ex !! "subset" = Some v /\ keep v = true) ->
     verdicts <> []).
Proof.
  revert results. induction raw as [|ex raw IH]; intros results Hlen Hsub.
  - destruct results; [|discriminate]. exists [], []. simpl.
    split; [reflexivity|]. split; [reflexivity|].
    intros (ex & v & Hin & _). inversion Hin.
  - destruct results as [|r results]; [discriminate|].
    simpl in Hlen. injection Hlen as Hlen.
    destruct (IH results Hlen) as (sd & vs & Hsd & Hcol & Hne).
    { intros ex' Hin. apply Hsub. right. exact Hin. }
    destruct (Hsub ex) as [sv Hsv]; [left|].
    simpl. unfold getitem at 1.
    rewrite lookup_insert_ne by discriminate. rewrite Hsv. simpl.
    rewrite Hsd. simpl.
    destruct (keep sv) eqn:Hkeep.
    + exists (<["results" := VInt r]> ex :: sd), (r :: vs).
      split; [reflexivity|]. split; [|discriminate].
      unfold column in *. simpl. unfold getitem at 1.
      rewrite lookup_insert_eq. simpl. rewrite Hcol. reflexivity.
    + exists sd, vs. split; [reflexivity|]. split; [exact Hcol|].
      intros (ex' & v & Hin & Hv & Hk). apply Hne.
      apply elem_of_cons in Hin as [->|Hin]; [congruence | eauto].
Qed.

(** The counts and the accuracy of a label that some row is equal to. *)
Lemma label_accuracy_Ok (subset : subset_label) (raw : dataset)
    (results : list Z) :
  length results = length raw ->
  (forall ex, ex ∈ raw -> is_Some (ex !! "subset")) ->
  (exists ex v, ex ∈ raw /\ ex !! "subset" = Some v /\
                eq_label v subset = true) ->
  exists counts,
    label_accuracy
      (zip_with (fun (ex : example) v => <["results" := v]> ex) raw
         (map VInt results)) subset
    = Ok counts.
Proof.
  intros Hlen Hsub Hex.
  destruct (filter_results_where (fun s => eq_label s subset) raw results
              Hlen Hsub) as (sd & vs & Hsd & Hcol & Hne).
  specialize (Hne Hex).
  unfold label_accuracy. rewrite Hsd. simpl. rewrite Hcol. simpl.
  rewrite py_sum_ints. simpl. rewrite length_map.
  rewrite py_truediv_Ok; [eauto|].
  destruct vs; [contradiction | simpl; lia].
Qed.

(** C10, counterexample: a dataset of one row whose subset is the float
    NaN.  The distinct values of the column are NaN alone; no row is equal
    to it, so the group selected for it is empty, num_total is 0 and the
    division raises a ZeroDivisionError; the claim says the division never
    divides by zero, for every input dataset. *)
Lemma nan_subset_divides_by_zero :
  Dataset_unique_subset [ {[ "subset" := VFloat S754_nan ]} ]
  = Ok [LFloat S754_nan] /\
  Dataset_filter
    (fun ex => let* s := getitem ex "subset" in
               Ok (eq_label s (LFloat S754_nan)))
    [ {[ "subset" := VFloat S754_nan; "results" := VInt 1 ]} ]
  = Ok [] /\
  label_accuracy
    [ {[ "subset" := VFloat S754_nan; "results" := VInt 1 ]} ]
    (LFloat S754_nan)
  = Raise ZeroDivisionError /\
  process_results "m" "tulu" [ {[ "subset" := VFloat S754_nan ]} ] [1]
  = Raise ZeroDivisionError.
Proof. repeat split; vm_compute; reflexivity. Qed.

(** C10, as amended: for a dataset whose subset column holds strings, ints
    or floats other than NaN, and whatever the verdicts, the report step
    never raises a division by zero; on a string column the subsets it
    reports on are exactly the distinct values of the column, each once;
    every one of them has a group of at least one row, so num_total is at
    least 1; and the keys of the report other than model and chat_template
    are exactly those subsets. *)
Theorem accuracy_never_divides_by_zero (model chat_template : string)
    (raw : dataset) (results : list Z) :
  (forall ex v, ex ∈ raw -> ex !! "subset" = Some v ->
     (exists s, v = VStr s) \/ (exists z, v = VInt z) \/
     (exists f, v = VFloat f /\ f <> S754_nan)) ->
  process_results model chat_template raw results <> Raise ZeroDivisionError /\
  (forall subsets,
     Dataset_unique_subset raw = Ok (map LStr subsets) ->
     NoDup subsets /\
     forall s, s ∈ subsets <->
               exists ex, ex ∈ raw /\ ex !! "subset" = Some (VStr s)) /\
  (forall out_dataset subsets s,
     add_column raw "results" (map VInt results) = Ok out_dataset ->
     Dataset_unique_subset raw = Ok (map LStr subsets) ->
     s ∈ subsets ->
     exists num_correct num_total acc,
       subset_accuracy out_dataset s = Ok (num_correct, num_total, acc) /\
       1 <= num_total) /\
  (forall report,
     process_results model chat_template raw results = Ok report ->
     forall k, k <> "model" -> k <> "chat_template" ->
       (is_Some (report !! k) <->
        exists ex, ex ∈ raw /\ ex !! "subset" = Some (VStr k))).
Proof.
  intros Hscalar. split; [|split; [|split]].
  - destruct (add_column raw "results" (map VInt results))
      as [out|e] eqn:Hadd.
    + destruct (add_column_Ok _ _ _ _ Hadd) as (_ & Hlen & Hout).
      rewrite length_map in Hlen.
      unfold process_results. rewrite Hadd. simpl.
      unfold Dataset_unique_subset.
      destruct (res_mapM subset_of raw) as [ss|e] eqn:Hss; simpl.
      * destruct (strings_of (unique ss)) as [subsets|] eqn:Hstr.
        -- apply strings_of_Some in Hstr.
           assert (Dataset_unique_subset raw = Ok (map LStr subsets))
             as Huniq.
           { unfold Dataset_unique_subset. rewrite Hss. simpl.
             rewrite Hstr. reflexivity. }
           destruct (process_results_from model chat_template raw results
                       _ _ Hadd Huniq) as (report & Hrep & _).
           unfold process_results in Hrep. rewrite Hadd in Hrep.
           simpl in Hrep. unfold Dataset_unique_subset in Hrep.
           rewrite Hss in Hrep. simpl in Hrep.
           rewrite Hstr, strings_of_map_LStr in Hrep.
           rewrite Hrep. discriminate.
        -- destruct (res_mapM_Ok_all (label_accuracy out) (unique ss))
             as [counts ->]; [|discriminate].
           intros l Hl. apply (proj1 (unique_elem_of _ _)) in Hl.
           apply list_elem_of_lookup in Hl as [i Hi].
           destruct (res_mapM_Ok_lookup_inv _ _ _ _ _ Hss Hi)
             as (ex & Hex & Hl).
           assert (ex ∈ raw) as Hin
             by (eapply list_elem_of_lookup_2; exact Hex).
           rewrite Hout. apply label_accuracy_Ok; [exact Hlen| |].
           ++ intros ex' Hin'. apply list_elem_of_lookup in Hin' as [j Hj].
              destruct (res_mapM_Ok_lookup _ _ _ _ _ Hss Hj) as (l' & Hl' & _).
              apply (subset_of_is_Some _ _ Hl').
           ++ destruct (subset_of_eq_label ex l Hl) as (v & Hv & Heq).
              { intros Hnan.
                destruct (Hscalar ex _ Hin Hnan)
                  as [[s Hs]|[[z Hz]|(f & Hf & Hne)]];
                  try discriminate.
                injection Hf as <-. contradiction. }
              eauto.
      * apply res_mapM_Raise in Hss as (ex & _ & Hex).
        apply subset_of_Raise in Hex as [-> | ->]; discriminate.
    + unfold process_results. rewrite Hadd. simpl.
      apply add_column_Raise in Hadd as ->. discriminate.
  - intros subsets Huniq.
    destruct (unique_subsets_Ok _ _ Huniq) as (Hnd & _ & Hiff). auto.
  - intros out subsets s Hadd Huniq Hs.
    destruct (process_results_from model chat_template raw results _ _
                Hadd Huniq) as (report & _ & Hin & _).
    destruct (Hin s Hs) as (acc & _ & Hacc & _).
    do 3 eexists. split; [exact Hacc|].
    destruct (add_column_Ok _ _ _ _ Hadd) as (_ & Hlen & _).
    rewrite length_map in Hlen.
    destruct (unique_subsets_Ok _ _ Huniq) as (_ & _ & Hiff).
    assert (Hne := verdicts_of_subset_nonempty s raw results Hlen
                     (proj1 (Hiff s) Hs)).
    lia.
  - intros report Hrep k Hm Hc.
    destruct (process_results_Ok _ _ _ _ _ Hrep)
      as (out & subsets & Hadd & Huniq & _).
    destruct (process_results_from model chat_template raw results _ _
                Hadd Huniq) as (report' & Hrep' & Hin & Hout).
    rewrite Hrep in Hrep'. injection Hrep' as <-.
    destruct (unique_subsets_Ok _ _ Huniq) as (_ & _ & Hiff).
    rewrite <- Hiff. split.
    + intros Hsome. destruct (decide (k ∈ subsets)) as [|Hk]; [assumption|].
      rewrite (Hout k Hk) in Hsome.
      rewrite !lookup_insert_ne, lookup_empty in Hsome by congruence.
      destruct Hsome; discriminate.
    + intros Hk. destruct (Hin k Hk) as (acc & _ & _ & ->). eauto.
Qed.

(** ** The statements at concrete inputs *)

(** C1 at the tie of the sample scores: position 2 holds 0.5 on both
    sides, and the verdict is 0 in both modes. *)
Lemma verdict_one_iff_chosen_greater_witness :
  pairwise sample_score_chosen sample_score_rejected !! 2%nat = Some 0 /\
  append_pairwise [1; 0] sample_score_chosen sample_score_rejected !! 4%nat
  = Some 0.
Proof.
  destruct (proj1 (verdict_one_iff_chosen_greater sample_reward_pipe)
              [1; 0] sample_score_chosen sample_score_rejected 2%nat
              (SFloat f0_5) (SFloat f0_5) eq_refl eq_refl)
    as (verdict & Hu & Hm & _ & _ & _ & Htie).
  rewrite (Htie eq_refl) in Hu, Hm. split; [exact Hu | exact Hm].
Defined.

(** C6 on a sample row. *)
Lemma structured_turn_formatting_witness :
  exists ex' : example,
    map_conversations (sample_row "P" "C" "R" "s1") = Ok ex' /\
    ex' !! "text_chosen"
    = Some (VList [VDict {["role" := VStr "user"; "content" := VStr "P"]};
                   VDict {["role" := VStr "assistant"; "content" := VStr "C"]}]).
Proof.
  destruct (structured_turn_formatting (sample_row "P" "C" "R" "s1")
              (VStr "P") (VStr "C") (VStr "R") eq_refl eq_refl eq_refl)
    as [(ex' & Hmap & Hc & _) _].
  exists ex'. split; [exact Hmap | exact Hc].
Defined.

(** C9 on a batch of three rows judged True, False, True by a PairRM
    model: the verdicts are 1, 0, 1 and the pipeline was called once, with
    the chosen and the rejected conversations. *)
Lemma native_judgments_recorded_witness :
  exists text_chosen text_rejected,
    batch_column (Rows sample_turn_batch) "text_chosen" = Ok text_chosen /\
    batch_column (Rows sample_turn_batch) "text_rejected" = Ok text_rejected /\
    batch_step sample_reward_pipe "llm-blender/PairRM" "tulu"
      (Rows sample_turn_batch) [] []
    = Ok ([1; 0; 1], [[VList text_chosen; VList text_rejected]]).
Proof.
  eexists. eexists. split; [reflexivity|]. split; [reflexivity|].
  apply (proj1 (native_judgments_recorded sample_reward_pipe
                  sample_default_collate "llm-blender/PairRM" "tulu"
                  (or_introl eq_refl))
           (Rows sample_turn_batch) [] [] _ _ [true; false; true]
           eq_refl eq_refl eq_refl).
Defined.

(** C5 on the example of the specification: four rows of the subset
    alpacaeval-easy with verdicts 1, 0, 1, 1 give num_correct 3, num_total
    4 and accuracy 0.75. *)
Lemma per_subset_accuracy_witness :
  exists out_dataset report,
    add_column sample_easy "results" (map VInt [1; 0; 1; 1])
    = Ok out_dataset /\
    process_results "m" "tulu" sample_easy [1; 0; 1; 1] = Ok report /\
    subset_accuracy out_dataset "alpacaeval-easy" = Ok (3, 4, f0_75) /\
    report !! "alpacaeval-easy" = Some (VFloat f0_75).
Proof.
  destruct (per_subset_accuracy "m" "tulu" sample_easy [1; 0; 1; 1] eq_refl)
    as (out & report & Hadd & Hrep & Hsub).
  { intros ex Hin. unfold sample_easy in Hin.
    repeat (apply elem_of_cons in Hin as [->|Hin]);
      [split; [reflexivity | eexists; reflexivity] .. | inversion Hin]. }
  exists out, report. split; [exact Hadd|]. split; [exact Hrep|].
  destruct (Hsub "alpacaeval-easy") as (acc & Hacc & Hdiv & Hr).
  { eexists. split; [left | reflexivity]. }
  vm_compute in Hdiv. injection Hdiv as <-.
  split; [exact Hacc | exact Hr].
Defined.

(** C7 on two sample rows under the structured-turn strategy: the step
    returns two rows, none of which carries prompt, chosen or rejected. *)
Lemma dialogue_formatting_order_preserving_witness :
  prepare_dataset unit sample_prepare_dialogue true false tt sample_raw
  = Ok sample_structured /\
  length sample_structured = 2%nat /\
  (forall ex' : example, ex' ∈ sample_structured ->
     ex' !! "prompt" = None /\ ex' !! "chosen" = None /\
     ex' !! "rejected" = None).
Proof.
  assert (prepare_dataset unit sample_prepare_dialogue true false tt
            sample_raw = Ok sample_structured) as Hds
    by (vm_compute; reflexivity).
  destruct (dialogue_formatting_order_preserving unit sample_prepare_dialogue
              true false tt sample_raw sample_structured Hds)
    as (Hlen & _ & Hgone & _).
  split; [exact Hds|]. split; [exact Hlen | exact Hgone].
Defined.

(** C10 on four rows of one benchmark subset: the group of the subset has
    at least one row. *)
Lemma accuracy_never_divides_by_zero_witness :
  exists out_dataset num_correct num_total acc,
    add_column sample_easy "results" (map VInt [1; 0; 1; 1])
    = Ok out_dataset /\
    subset_accuracy out_dataset "alpacaeval-easy"
    = Ok (num_correct, num_total, acc) /\
    1 <= num_total.
Proof.
  destruct (accuracy_never_divides_by_zero "m" "tulu" sample_easy
              [1; 0; 1; 1]) as (_ & _ & H & _).
  { intros ex v Hin Hv. unfold sample_easy in Hin.
    repeat (apply elem_of_cons in Hin as [->|Hin]);
      [ injection Hv as <-; left; eexists; reflexivity .. | inversion Hin ]. }
  assert (add_column sample_easy "results" (map VInt [1; 0; 1; 1])
          = Ok (zip_with (fun (ex : example) v => <["results" := v]> ex)
                  sample_easy (map VInt [1; 0; 1; 1]))) as Hadd
    by reflexivity.
  destruct (H _ ["alpacaeval-easy"] "alpacaeval-easy" Hadd)
    as (nc & nt & acc & Hacc & Hnt).
  - vm_compute. reflexivity.
  - left.
  - eexists. exists nc, nt, acc.
    split; [exact Hadd|]. split; [exact Hacc | exact Hnt].
Defined.

(** C8 on the example of the specification: no pad token, end-of-sequence
    token 5. *)
Lemma set_pad_token_idempotent_witness :
  pad_token_id (pipe_tokenizer (set_pad_token sample_pipe_state)) = Some 5 /\
  set_pad_token (set_pad_token sample_pipe_state)
  = set_pad_token sample_pipe_state.
Proof.
  destruct (set_pad_token_idempotent sample_pipe_state)
    as (Hset & _ & _ & Hidem).
  split; [apply (Hset 5 eq_refl eq_refl) | exact Hidem].
Defined.

(** ** End to end *)

(** The scenario of the specification: two rows of subset s1, the generic
    adapter, chosen scores 0.9 and 0.2 against rejected scores 0.1 and 0.3;
    the verdicts are 1 and 0 and the report gives s1 the accuracy 0.5. *)
Example main_two_rows :
  run_inference sample_reward_pipe sample_default_collate
    (model sample_args) (chat_template sample_args) (direct_load sample_args)
    (batch_size sample_args)
    (pipeline_builder
       (select_adapter (model sample_args) (chat_template sample_args)))
    [ {[ "subset" := VStr "s1"; "text_chosen" := VStr "q1 good1";
         "text_rejected" := VStr "q1 bad1" ]};
      {[ "subset" := VStr "s1"; "text_chosen" := VStr "q2 good2";
         "text_rejected" := VStr "q2 bad2" ]} ]
  = Ok ([1; 0],
        [ [VList [VStr "q1 bad1"; VStr "q2 bad2"]];
          [VList [VStr "q1 good1"; VStr "q2 good2"]] ]) /\
  main unit (fun _ => Ok tt) sample_prepare_dialogue
    (fun _ => sample_reward_pipe) sample_default_collate
    sample_args sample_raw sample_pipe_state
  = Ok {[ "model" := VStr "natolambert/gpt2-dummy-rm";
          "chat_template" := VStr "tulu";
          "s1" := VFloat f0_5 ]}.
Proof. split; vm_compute; reflexivity. Qed.

(** * Further properties of the script *)

(** ** The sample rows, formatted *)

Lemma sample_raw_formatted :
  prepare_dataset unit sample_prepare_dialogue false false tt sample_raw
  = Ok sample_formatted.
Proof. vm_compute. reflexivity. Qed.

Lemma sample_raw_structured :
  prepare_dataset unit sample_prepare_dialogue true false tt sample_raw
  = Ok sample_structured.
Proof. vm_compute. reflexivity. Qed.

Lemma sample_formatted_text_chosen :
  column sample_formatted "text_chosen"
  = Ok [VStr "q1 good1"; VStr "q2 good2"].
Proof. vm_compute. reflexivity. Qed.

Lemma sample_formatted_text_rejected :
  column sample_formatted "text_rejected"
  = Ok [VStr "q1 bad1"; VStr "q2 bad2"].
Proof. vm_compute. reflexivity. Qed.

(** ** Verdicts are binary and the results list only grows *)

Lemma pairwise_binary score_chosen score_rejected :
  Forall (fun v => v = 0 \/ v = 1) (pairwise score_chosen score_rejected).
Proof.
  unfold pairwise. apply Forall_forall. intros v Hv.
  apply list_elem_of_In, in_map_iff in Hv as ([c r] & <- & _).
  destruct (py_gt c r); auto.
Qed.

Lemma native_verdicts_binary judgments :
  Forall (fun v => v = 0 \/ v = 1)
    (map (fun j => if truthy j then 1 else 0) judgments).
Proof.
  apply Forall_forall. intros v Hv.
  apply list_elem_of_In, in_map_iff in Hv as (j & <- & _).
  destruct (truthy j); auto.
Qed.

(** One step appends to [results] and to the call log, and what it appends
    to [results] is made of 0s and 1s. *)
Lemma batch_step_grows reward_pipe (model chat_template : string)
    (batch : batch_t) results calls results' calls' :
  batch_step reward_pipe model chat_template batch results calls
    = Ok (results', calls') ->
  exists new new_calls,
    results' = results ++ new /\ calls' = calls ++ new_calls /\
    Forall (fun v => v = 0 \/ v = 1) new /\
    (1 <= length new_calls <= 2)%nat.
Proof.
  intros H. destruct (pairwise_native model chat_template) eqn:Hnat.
  - apply (batch_step_native_Ok _ _ _ _ _ _ _ _ Hnat) in H.
    destruct H as (tr & tc & out & js & _ & _ & _ & _ & -> & ->).
    do 2 eexists. split; [reflexivity|]. split; [reflexivity|].
    split; [apply native_verdicts_binary | simpl; lia].
  - destruct (batch_step_scalar_Ok _ _ _ _ _ _ _ _ Hnat H)
      as (tc & tr & rc & rr & sc & sr & _ & _ & _ & _ & _ & -> & ->).
    do 2 eexists. split; [reflexivity|]. split; [reflexivity|].
    split; [apply pairwise_binary | simpl; lia].
Qed.

Lemma batch_loop_grows reward_pipe default_collate
    (model chat_template : string) batches results calls results' calls' :
  batch_loop reward_pipe default_collate model chat_template
    batches results calls = Ok (results', calls') ->
  exists new new_calls,
    results' = results ++ new /\ calls' = calls ++ new_calls /\
    Forall (fun v => v = 0 \/ v = 1) new /\
    (length batches <= length new_calls <= 2 * length batches)%nat.
Proof.
  revert results calls.
  induction batches as [|b batches IH]; simpl; intros results calls H.
  - injection H as <- <-. exists [], []. rewrite !app_nil_r.
    repeat split; [constructor | simpl; lia ..].
  - step_inv H as batch Hbatch. step_inv H as [results1 calls1] Hstep.
    destruct (batch_step_grows _ _ _ _ _ _ _ _ Hstep)
      as (n1 & c1 & -> & -> & Hb1 & Hl1).
    destruct (IH _ _ H) as (n2 & c2 & -> & -> & Hb2 & Hl2).
    exists (n1 ++ n2), (c1 ++ c2). rewrite <- !app_assoc.
    repeat split; [apply Forall_app; auto | rewrite length_app; lia ..].
Qed.

(** X1: whatever the mode, the pipeline and the collation, a run that
    returns has recorded only 0s and 1s; in the manual loop the verdicts and
    calls recorded so far are never changed by later batches, and every
    batch costs one or two pipeline calls. *)
Theorem verdicts_are_binary reward_pipe default_collate
    (model chat_template : string) (direct_load : bool) (batch_size : Z)
    (pipeline_builder0 : pipeline_builder_t) (ds : dataset) results calls :
  run_inference reward_pipe default_collate model chat_template
    direct_load batch_size pipeline_builder0 ds = Ok (results, calls) ->
  Forall (fun v => v = 0 \/ v = 1) results /\
  (forall batches results0 calls0 results' calls',
     batch_loop reward_pipe default_collate model chat_template
       batches results0 calls0 = Ok (results', calls') ->
     results0 `prefix_of` results' /\ calls0 `prefix_of` calls' /\
     (length calls0 + length batches <= length calls'
      <= length calls0 + 2 * length batches)%nat).
Proof.
  intros H. split.
  - unfold run_inference in H.
    destruct (inference_mode direct_load pipeline_builder0).
    + apply run_uniform_Ok in H.
      destruct H as (tr & tc & rr & rc & sc & sr & _ & _ & _ & _ & _ & _ & -> & _).
      apply pairwise_binary.
    + apply run_manual_Ok in H as (_ & _ & H).
      destruct (batch_loop_grows _ _ _ _ _ _ _ _ _ H)
        as (new & nc & -> & _ & Hbin & _).
      exact Hbin.
  - intros batches results0 calls0 results' calls' Hl.
    destruct (batch_loop_grows _ _ _ _ _ _ _ _ _ Hl)
      as (new & nc & -> & -> & _ & Hlen).
    split; [exists new; reflexivity|]. split; [exists nc; reflexivity|].
    rewrite length_app. lia.
Qed.

(** On the two sample rows in the uniform mode. *)
Lemma verdicts_are_binary_witness :
  Forall (fun v => v = 0 \/ v = 1) [1; 0].
Proof.
  refine (proj1 (verdicts_are_binary sample_reward_pipe
                   sample_default_collate "natolambert/gpt2-dummy-rm" "tulu"
                   false 64 pipeline sample_formatted [1; 0]
                   [ [VList [VStr "q1 bad1"; VStr "q2 bad2"]];
                     [VList [VStr "q1 good1"; VStr "q2 good2"]] ] _)).
  vm_compute. reflexivity.
Defined.

(** ** The batches of the loader *)

Lemma chunks_fuel_nil {A} (fuel n : nat) : chunks_fuel fuel n (@nil A) = [].
Proof. destruct fuel; reflexivity. Qed.

Lemma chunks_fuel_count {A} (fuel n : nat) (l : list A) :
  (0 < n)%nat -> (length l <= fuel)%nat ->
  Z.of_nat (length (chunks_fuel fuel n l))
  = (Z.of_nat (length l) + Z.of_nat n - 1) / Z.of_nat n /\
  (forall i b, chunks_fuel fuel n l !! i = Some b ->
     (S i < length (chunks_fuel fuel n l))%nat -> length b = n).
Proof.
  intros Hn. revert l. induction fuel as [|fuel IH]; intros l Hlen.
  - destruct l; [|simpl in Hlen; lia]. simpl. split.
    + symmetry. apply Z.div_small. lia.
    + intros i b Hb. discriminate.
  - destruct l as [|x l].
    { simpl. split; [symmetry; apply Z.div_small; lia|].
      intros i b Hb. discriminate. }
    assert (length (drop n (x :: l)) <= fuel)%nat as Hdrop.
    { rewrite length_drop. simpl in *. lia. }
    destruct (IH _ Hdrop) as [Hcount Hfull].
    change (chunks_fuel (S fuel) n (x :: l))
      with (take n (x :: l) :: chunks_fuel fuel n (drop n (x :: l))).
    set (m := length (x :: l)) in *.
    assert (1 <= m)%nat as Hm by (unfold m; simpl; lia).
    split.
    + simpl length. rewrite Nat2Z.inj_succ, Hcount, length_drop.
      fold m. destruct (decide (n <= m)%nat) as [Hle|Hgt].
      * rewrite Nat2Z.inj_sub by lia.
        replace (Z.of_nat m + Z.of_nat n - 1)
          with ((Z.of_nat m - Z.of_nat n + Z.of_nat n - 1) + 1 * Z.of_nat n)
          by lia.
        rewrite Z.div_add by lia. lia.
      * replace (m - n)%nat with 0%nat by lia. simpl Z.of_nat.
        rewrite (Z.div_small (0 + Z.of_nat n - 1)) by lia.
        assert ((Z.of_nat m + Z.of_nat n - 1) / Z.of_nat n = 1) as ->; [|lia].
        symmetry. apply (Z.div_unique_pos _ _ 1 (Z.of_nat m - 1)); lia.
    + intros i b Hb Hi. destruct i as [|i]; simpl in Hb.
      * injection Hb as <-. rewrite length_take. fold m.
        simpl length in Hi.
        destruct (decide (n <= m)%nat) as [Hle|Hgt]; [lia|].
        exfalso.
        assert (drop n (x :: l) = []) as Hnil.
        { apply drop_ge. fold m. lia. }
        rewrite Hnil, chunks_fuel_nil in Hi. simpl in Hi. lia.
      * apply (Hfull i b Hb). simpl length in Hi. lia.
Qed.

(** With a batch size that is positive and fits a machine index the
    loader cuts the dataset into consecutive slices, and into at least one
    when the dataset has a row. *)
Lemma DataLoader_positive (ds : dataset) (batch_size : Z) :
  0 < batch_size < 2 ^ 63 ->
  exists batches,
    DataLoader ds batch_size = Ok batches /\
    batches = chunks (Z.to_nat batch_size) ds /\
    concat batches = ds /\
    Forall (fun b => 1 <= Z.of_nat (length b) <= batch_size) batches /\
    (ds <> [] -> batches <> []) /\
    Z.of_nat (length batches)
    = (Z.of_nat (length ds) + batch_size - 1) / batch_size.
Proof.
  unfold DataLoader. intros H.
  assert ((batch_size <=? 0) = false) as -> by (apply Z.leb_gt; lia).
  assert ((2 ^ 63 <=? batch_size) = false) as -> by (apply Z.leb_gt; lia).
  assert (0 < Z.to_nat batch_size)%nat as Hn by lia.
  destruct (chunks_spec (Z.to_nat batch_size) ds Hn) as [Hcat Hall].
  destruct (chunks_fuel_count (length ds) (Z.to_nat batch_size) ds Hn
              (Nat.le_refl _)) as [Hcount Hfull].
  exists (chunks (Z.to_nat batch_size) ds).
  split; [reflexivity|]. split; [reflexivity|]. split; [exact Hcat|].
  split; [|split].
  - eapply Forall_impl; [exact Hall|]. simpl. intros b Hb. lia.
  - intros Hne Hnil. rewrite Hnil in Hcat. simpl in Hcat. congruence.
  - unfold chunks. rewrite Hcount. rewrite Z2Nat.id by lia. reflexivity.
Qed.

(** ** When the report is produced, and what else it holds *)

Lemma unique_subsets_strings (raw : dataset) (subsets : list string) :
  Dataset_unique_subset raw = Ok (map LStr subsets) ->
  forall ex, ex ∈ raw -> exists s, ex !! "subset" = Some (VStr s).
Proof.
  unfold Dataset_unique_subset. intros H ex Hin.
  step_inv H as ss Hss. injection H as Hu.
  apply list_elem_of_lookup in Hin as [i Hi].
  destruct (res_mapM_Ok_lookup _ _ _ _ _ Hss Hi) as (l & Hl & Hlook).
  assert (l ∈ map LStr subsets) as Hin.
  { rewrite <- Hu. apply unique_elem_of.
    eapply list_elem_of_lookup_2. exact Hlook. }
  apply list_elem_of_In, in_map_iff in Hin as (s & <- & _).
  exists s. apply subset_of_Ok. exact Hl.
Qed.

Lemma add_column_ValueError (ds : dataset) (name : string)
    (col : list value) :
  (exists ex, ex ∈ ds /\ is_Some (ex !! name)) \/ length col <> length ds ->
  add_column ds name col = Raise ValueError.
Proof.
  intros H. destruct (add_column ds name col) as [out|e] eqn:Hadd.
  - exfalso. destruct (add_column_Ok _ _ _ _ Hadd) as (Hnone & Hlen & _).
    destruct H as [(ex & Hin & Hsome)|Hne]; [|contradiction].
    rewrite (Hnone ex Hin) in Hsome. destruct Hsome; discriminate.
  - apply add_column_Raise in Hadd as ->. reflexivity.
Qed.

(** X3: on a dataset whose rows all have a string subset, the report step
    returns a report exactly when there is one verdict per row and no row
    already has a results column; it fails with a ValueError exactly when
    the verdict list has the wrong length or some row already has a results
    column. *)
Theorem process_results_succeeds_iff (model chat_template : string)
    (raw : dataset) (results : list Z) :
  (forall ex, ex ∈ raw -> exists s, ex !! "subset" = Some (VStr s)) ->
  ((exists report,
      process_results model chat_template raw results = Ok report) <->
   length results = length raw /\
   (forall ex, ex ∈ raw -> ex !! "results" = None)) /\
  (process_results model chat_template raw results = Raise ValueError <->
   length results <> length raw \/
   (exists ex, ex ∈ raw /\ is_Some (ex !! "results"))).
Proof.
  intros Hsub.
  assert (length results = length raw ->
          (forall ex, ex ∈ raw -> ex !! "results" = None) ->
          exists report,
            process_results model chat_template raw results = Ok report)
    as Hok.
  { intros Hlen Hnone.
    assert (add_column raw "results" (map VInt results)
            = Ok (zip_with (fun (ex : example) v => <["results" := v]> ex)
                    raw (map VInt results))) as Hadd.
    { apply add_column_succeeds; [exact Hnone|].
      rewrite length_map. exact Hlen. }
    destruct (unique_subsets_succeeds raw Hsub) as [subsets Huniq].
    destruct (process_results_from model chat_template raw results _ _
                Hadd Huniq) as (report & Hrep & _).
    eauto. }
  split; split.
  - intros [report H].
    destruct (process_results_Ok _ _ _ _ _ H) as (out & ss & Hadd & _).
    destruct (add_column_Ok _ _ _ _ Hadd) as (Hnone & Hlen & _).
    rewrite length_map in Hlen. auto.
  - intros [Hlen Hnone]. apply Hok; assumption.
  - intros Hraise.
    destruct (decide (length results = length raw)) as [Hlen|Hlen];
      [|left; exact Hlen].
    right.
    destruct (existsb (fun ex : example =>
                bool_decide (is_Some (ex !! "results"))) raw) eqn:Hex.
    + apply existsb_exists in Hex as (ex & Hin & Hsome).
      exists ex. split; [apply list_elem_of_In; exact Hin|].
      apply bool_decide_eq_true in Hsome. exact Hsome.
    + exfalso. destruct Hok as [report Hrep]; [exact Hlen | | congruence].
      intros ex Hin. destruct (ex !! "results") as [v|] eqn:Hv; [|reflexivity].
      exfalso. apply not_true_iff_false in Hex. apply Hex.
      apply existsb_exists. exists ex.
      split; [apply list_elem_of_In; exact Hin|].
      apply bool_decide_eq_true. rewrite Hv. eauto.
  - intros H. unfold process_results.
    rewrite add_column_ValueError; [reflexivity|].
    rewrite length_map. destruct H as [H|H]; [right | left]; exact H.
Qed.

(** One verdict too many for the two sample rows. *)
Lemma process_results_succeeds_iff_witness :
  process_results "m" "tulu" sample_raw [1; 0; 1] = Raise ValueError.
Proof.
  apply (process_results_succeeds_iff "m" "tulu" sample_raw [1; 0; 1]).
  - intros ex Hex. unfold sample_raw in Hex.
    repeat (apply elem_of_cons in Hex as [->|Hex]);
      [eexists; reflexivity .. | inversion Hex].
  - left. discriminate.
Defined.

(** X4: the report keeps the model identifier and the template name under
    the keys model and chat_template, unless the dataset has a subset of
    that very name: then the subset's accuracy has taken the place of the
    entry. *)
Theorem report_identity_entries (model chat_template : string)
    (raw : dataset) (results : list Z) (report : example) :
  process_results model chat_template raw results = Ok report ->
  ((forall ex, ex ∈ raw -> ex !! "subset" <> Some (VStr "model")) ->
   report !! "model" = Some (VStr model)) /\
  ((forall ex, ex ∈ raw -> ex !! "subset" <> Some (VStr "chat_template")) ->
   report !! "chat_template" = Some (VStr chat_template)) /\
  (forall k, (k = "model" \/ k = "chat_template") ->
     (exists ex, ex ∈ raw /\ ex !! "subset" = Some (VStr k)) ->
     exists acc, report !! k = Some (VFloat acc)).
Proof.
  intros Hrep.
  destruct (process_results_Ok _ _ _ _ _ Hrep)
    as (out & subsets & Hadd & Huniq & _).
  destruct (process_results_from model chat_template raw results _ _
              Hadd Huniq) as (report' & Hrep' & Hin & Hout).
  rewrite Hrep in Hrep'. injection Hrep' as <-.
  destruct (unique_subsets_Ok _ _ Huniq) as (_ & _ & Hiff).
  split; [|split].
  - intros Hno. rewrite Hout.
    + rewrite lookup_insert_ne by discriminate. apply lookup_insert_eq.
    + intros Hk. apply Hiff in Hk as (ex & Hex & Hs). exact (Hno ex Hex Hs).
  - intros Hno. rewrite Hout.
    + apply lookup_insert_eq.
    + intros Hk. apply Hiff in Hk as (ex & Hex & Hs). exact (Hno ex Hex Hs).
  - intros k _ Hex. apply Hiff in Hex.
    destruct (Hin k Hex) as (acc & _ & _ & Hr). eauto.
Qed.

(** A dataset with a subset called model: the report's model entry is the
    accuracy of that subset. *)
Lemma report_identity_entries_witness :
  exists report acc,
    process_results "m" "tulu" [sample_row "q1" "c1" "r1" "model"] [1]
    = Ok report /\
    report !! "model" = Some (VFloat acc).
Proof.
  assert (process_results "m" "tulu" [sample_row "q1" "c1" "r1" "model"] [1]
          = Ok {[ "chat_template" := VStr "tulu";
                  "model" := VFloat (S754_finite false 4503599627370496 (-52)) ]})
    as Hrep by (vm_compute; reflexivity).
  destruct (report_identity_entries _ _ _ _ _ Hrep) as (_ & _ & H).
  destruct (H "model") as [acc Hacc]; [left; reflexivity| |].
  - eexists. split; [left | reflexivity].
  - eexists. exists acc. split; [exact Hrep | exact Hacc].
Defined.

(** ** The subsets partition the dataset *)

Lemma sum_Z_indicator (S : list string) (s0 : string) (w : Z)
    (a : string -> Z) :
  NoDup S ->
  sum_Z (map (fun s => if bool_decide (s0 = s) then w + a s else a s) S)
  = (if bool_decide (s0 ∈ S) then w else 0) + sum_Z (map a S).
Proof.
  induction S as [|s S IH]; intros Hnd; [reflexivity|].
  apply NoDup_cons in Hnd as [Hnin Hnd]. simpl. rewrite (IH Hnd).
  destruct (decide (s0 = s)) as [->|Hne].
  - rewrite (bool_decide_eq_true_2 (s = s)) by reflexivity.
    rewrite (bool_decide_eq_true_2 (s ∈ s :: S)) by left.
    rewrite (bool_decide_eq_false_2 (s ∈ S)) by exact Hnin. lia.
  - rewrite (bool_decide_eq_false_2 (s0 = s)) by exact Hne.
    destruct (decide (s0 ∈ S)) as [Hin|Hnin'].
    + rewrite !bool_decide_eq_true_2; [lia | right; exact Hin | exact Hin].
    + rewrite !bool_decide_eq_false_2; [lia | | exact Hnin'].
      intros Hin. apply elem_of_cons in Hin as [?|?]; contradiction.
Qed.

Lemma sum_Z_zero {A} (a : A -> Z) (l : list A) :
  (forall x, a x = 0) -> sum_Z (map a l) = 0.
Proof.
  intros Ha. induction l as [|x l IH]; simpl; [reflexivity|].
  rewrite Ha, IH. reflexivity.
Qed.

Lemma verdicts_partition (S : list string) (raw : dataset)
    (results : list Z) :
  NoDup S -> length results = length raw ->
  (forall ex, ex ∈ raw ->
     exists s, ex !! "subset" = Some (VStr s) /\ s ∈ S) ->
  sum_Z (map (fun s => Z.of_nat (length (verdicts_of_subset s raw results))) S)
  = Z.of_nat (length raw) /\
  sum_Z (map (fun s => sum_Z (verdicts_of_subset s raw results)) S)
  = sum_Z results.
Proof.
  intros Hnd. revert results.
  induction raw as [|ex raw IH]; intros results Hlen Hsub.
  - destruct results; [|discriminate].
    split; apply sum_Z_zero; reflexivity.
  - destruct results as [|v results]; [discriminate|].
    simpl in Hlen. injection Hlen as Hlen.
    destruct (IH results Hlen) as [IHn IHs].
    { intros ex' Hin. apply Hsub. right. exact Hin. }
    destruct (Hsub ex) as (s0 & Hs0 & Hin0); [left|].
    split.
    + rewrite (map_ext _
        (fun s => if bool_decide (s0 = s)
                  then 1 + Z.of_nat (length (verdicts_of_subset s raw results))
                  else Z.of_nat (length (verdicts_of_subset s raw results)))).
      * rewrite (sum_Z_indicator S s0 1 _ Hnd), IHn.
        rewrite bool_decide_eq_true_2 by exact Hin0. simpl length. lia.
      * intros s. simpl. rewrite Hs0. simpl.
        destruct (bool_decide (s0 = s)); simpl; lia.
    + rewrite (map_ext _
        (fun s => if bool_decide (s0 = s)
                  then v + sum_Z (verdicts_of_subset s raw results)
                  else sum_Z (verdicts_of_subset s raw results))).
      * rewrite (sum_Z_indicator S s0 v _ Hnd), IHs.
        rewrite bool_decide_eq_true_2 by exact Hin0. reflexivity.
      * intros s. simpl. rewrite Hs0. simpl.
        destruct (bool_decide (s0 = s)); reflexivity.
Qed.

Lemma verdicts_of_subset_bounds (subset : string) (raw : dataset)
    (results : list Z) :
  Forall (fun v => v = 0 \/ v = 1) results ->
  0 <= sum_Z (verdicts_of_subset subset raw results)
    <= Z.of_nat (length (verdicts_of_subset subset raw results)).
Proof.
  intros Hbin. revert raw.
  induction Hbin as [|v results Hv Hbin IH]; intros raw.
  - destruct raw; simpl; lia.
  - destruct raw as [|ex raw]; [simpl; lia|]. simpl.
    specialize (IH raw).
    destruct (ex !! "subset") as [sv|]; [|exact IH].
    destruct (eq_str sv subset); [|exact IH].
    simpl length. simpl sum_Z. destruct Hv; lia.
Qed.

Lemma res_mapM_Ok_map_ext {A B C} (f : A -> res B) (g : B -> C)
    (h : A -> C) l out :
  res_mapM f l = Ok out ->
  (forall x y, x ∈ l -> f x = Ok y -> g y = h x) ->
  map g out = map h l.
Proof.
  revert out. induction l as [|x l IH]; simpl; intros out H Hgh.
  - injection H as <-. reflexivity.
  - step_inv H as y Hy. step_inv H as ys Hys. injection H as <-.
    simpl. f_equal.
    + apply (Hgh x y); [left | exact Hy].
    + apply IH; [exact Hys|]. intros x' y' Hin. apply Hgh. right. exact Hin.
Qed.

(** X5: over the subsets the report iterates on, the group sizes add up to
    the number of rows and the numbers of correct verdicts add up to the sum
    of all verdicts: every row is counted in exactly one subset. With 0/1
    verdicts each subset has between 0 and num_total correct ones. *)
Theorem subset_counts_partition (raw : dataset) (results : list Z)
    (out_dataset : dataset) (subsets : list string) :
  add_column raw "results" (map VInt results) = Ok out_dataset ->
  Dataset_unique_subset raw = Ok (map LStr subsets) ->
  exists counts : list (Z * Z * spec_float),
    res_mapM (subset_accuracy out_dataset) subsets = Ok counts /\
    sum_Z (map (fun c => c.1.2) counts) = Z.of_nat (length raw) /\
    sum_Z (map (fun c => c.1.1) counts) = sum_Z results /\
    (Forall (fun v => v = 0 \/ v = 1) results ->
     Forall (fun c => 0 <= c.1.1 <= c.1.2) counts).
Proof.
  intros Hadd Huniq.
  destruct (process_results_from "" "" raw results _ _ Hadd Huniq)
    as (report & _ & Hin & _).
  destruct (add_column_Ok _ _ _ _ Hadd) as (_ & Hlen & _).
  rewrite length_map in Hlen.
  destruct (unique_subsets_Ok _ _ Huniq) as (Hnd & _ & Hiff).
  destruct (res_mapM_Ok_all (subset_accuracy out_dataset) subsets)
    as [counts Hcounts].
  { intros s Hs. destruct (Hin s Hs) as (acc & _ & Hacc & _). eauto. }
  assert (forall s c, s ∈ subsets -> subset_accuracy out_dataset s = Ok c ->
            c.1.1 = sum_Z (verdicts_of_subset s raw results) /\
            c.1.2 = Z.of_nat (length (verdicts_of_subset s raw results)))
    as Hc.
  { intros s c Hs Hsc. destruct (Hin s Hs) as (acc & _ & Hacc & _).
    rewrite Hacc in Hsc. injection Hsc as <-. auto. }
  destruct (verdicts_partition subsets raw results Hnd Hlen) as [Hn Hs].
  { intros ex Hex. destruct (unique_subsets_strings _ _ Huniq ex Hex) as [s Hs].
    exists s. split; [exact Hs|]. apply Hiff. eauto. }
  exists counts. split; [exact Hcounts|]. split; [|split].
  - rewrite (res_mapM_Ok_map_ext _ (fun c => c.1.2)
               (fun s => Z.of_nat (length (verdicts_of_subset s raw results)))
               _ _ Hcounts); [exact Hn|].
    intros s c Hsin Hsc. apply (Hc s c Hsin Hsc).
  - rewrite (res_mapM_Ok_map_ext _ (fun c => c.1.1)
               (fun s => sum_Z (verdicts_of_subset s raw results))
               _ _ Hcounts); [exact Hs|].
    intros s c Hsin Hsc. apply (Hc s c Hsin Hsc).
  - intros Hbin. apply Forall_forall. intros c Hcin.
    apply list_elem_of_lookup in Hcin as [i Hi].
    destruct (res_mapM_Ok_lookup_inv _ _ _ _ _ Hcounts Hi) as (s & Hsi & Hsc).
    assert (s ∈ subsets) as Hsin by (eapply list_elem_of_lookup_2; exact Hsi).
    destruct (Hc s c Hsin Hsc) as [-> ->].
    apply verdicts_of_subset_bounds. exact Hbin.
Qed.

(** Three rows in two subsets. *)
Lemma subset_counts_partition_witness :
  exists counts : list (Z * Z * spec_float),
    map (fun c => c.1) counts = [(1, 2); (1, 1)] /\
    sum_Z (map (fun c => c.1.2) counts) = 3.
Proof.
  destruct (subset_counts_partition
              [ sample_row "q1" "c1" "r1" "s1";
                sample_row "q2" "c2" "r2" "s2";
                sample_row "q3" "c3" "r3" "s1" ]
              [1; 1; 0] _ ["s1"; "s2"] eq_refl eq_refl)
    as (counts & Hc & Hn & _).
  exists counts. split; [|exact Hn].
  vm_compute in Hc. injection Hc as <-. reflexivity.
Defined.

(** ** When the formatting step succeeds *)

Lemma Dataset_map_ValueError function (remove_columns : list string)
    (ds : dataset) :
  (exists ex c, ex ∈ ds /\ c ∈ remove_columns /\ ex !! c = None) ->
  Dataset_map function remove_columns ds = Raise ValueError.
Proof.
  intros (ex & c & Hex & Hc & Hnone). unfold Dataset_map.
  destruct (forallb (has_column ds) remove_columns) eqn:Hall; [|reflexivity].
  exfalso. destruct (proj1 (columns_present ds remove_columns) Hall ex c Hex Hc)
    as [v Hv]. congruence.
Qed.

Lemma Dataset_map_succeeds_iff function (remove_columns : list string)
    (ds : dataset) :
  (exists out, Dataset_map function remove_columns ds = Ok out) <->
  (forall ex, ex ∈ ds ->
     (exists ex', function ex = Ok ex') /\
     (forall c, c ∈ remove_columns -> is_Some (ex !! c))).
Proof.
  split; [|apply Dataset_map_succeeds].
  intros [out H] ex Hex. split.
  - apply list_elem_of_lookup in Hex as [i Hi].
    destruct (Dataset_map_Ok _ _ _ _ H) as (_ & Hrow & _).
    destruct (Hrow i ex Hi) as (ex' & Hf & _). eauto.
  - intros c Hc. unfold Dataset_map in H.
    destruct (forallb (has_column ds) remove_columns) eqn:Hall;
      [|discriminate].
    apply (proj1 (columns_present ds remove_columns) Hall ex c Hex Hc).
Qed.

(** Membership in a literal list of column names. *)
Ltac in_cols := apply list_elem_of_In; simpl; auto 10.

(** The row function of the test sets on a row that has the three source
    columns: it succeeds when the prompt is a list and raises a TypeError
    otherwise. *)
Lemma map_conversations_testsets_cases (ex : example)
    (prompt chosen rejected : value) :
  ex !! "prompt" = Some prompt ->
  ex !! "chosen" = Some chosen ->
  ex !! "rejected" = Some rejected ->
  ((exists turns, prompt = VList turns) /\
   exists ex', map_conversations_testsets ex = Ok ex') \/
  ((forall turns, prompt <> VList turns) /\
   map_conversations_testsets ex = Raise TypeError).
Proof.
  intros Hp Hc Hr. destruct prompt as [z|f|s|turns|d];
    try (right; split; [discriminate|];
         unfold map_conversations_testsets, getitem; rewrite Hp, Hc;
         reflexivity).
  left. split; [eauto|].
  rewrite (map_conversations_testsets_Ok _ _ _ _ Hp Hc Hr). eauto.
Qed.

(** X6: on rows that exist and whose prompt, chosen and rejected fields
    are strings, as in the benchmark, the structured-turn formatting of the
    benchmark succeeds exactly when every row has the four columns it reads
    or removes; a missing one is a ValueError, raised before any row is
    formatted.  The formatting of the preference test sets, given its five
    columns, fails on such rows with a TypeError: it appends a list to the
    prompt, which is a string. *)
Theorem structured_formatting_succeeds_iff conv_t prepare_dialogue
    (conv : conv_t) (raw : dataset) :
  raw <> [] ->
  (forall ex c v, ex ∈ raw -> c ∈ ["prompt"; "chosen"; "rejected"] ->
     ex !! c = Some v -> exists s, v = VStr s) ->
  ((exists ds,
      prepare_dataset conv_t prepare_dialogue true false conv raw = Ok ds) <->
   (forall ex c, ex ∈ raw -> c ∈ ["prompt"; "chosen"; "rejected"; "subset"] ->
      is_Some (ex !! c))) /\
  ((exists ex c, ex ∈ raw /\
      c ∈ ["prompt"; "chosen"; "rejected"; "subset"] /\ ex !! c = None) ->
   prepare_dataset conv_t prepare_dialogue true false conv raw
   = Raise ValueError) /\
  ((forall ex c, ex ∈ raw ->
      c ∈ ["prompt"; "chosen"; "rejected"; "subset"; "subsubset"] ->
      is_Some (ex !! c)) ->
   prepare_dataset conv_t prepare_dialogue true true conv raw
   = Raise TypeError).
Proof.
  intros Hne Hstr. rewrite !prepare_dataset_eq. simpl format_row.
  split; [|split].
  - rewrite Dataset_map_succeeds_iff. simpl. split.
    + intros H ex c Hex Hc. apply (H ex Hex), Hc.
    + intros H ex Hex. split; [|intros c Hc; apply (H ex c Hex Hc)].
      destruct (H ex "prompt" Hex) as [p Hp]; [in_cols|].
      destruct (H ex "chosen" Hex) as [c Hc]; [in_cols|].
      destruct (H ex "rejected" Hex) as [r Hr]; [in_cols|].
      rewrite (map_conversations_Ok _ _ _ _ Hp Hc Hr). eauto.
  - intros H. apply Dataset_map_ValueError. exact H.
  - intros Hcols. simpl removed_columns.
    destruct (Dataset_map map_conversations_testsets
                ["prompt"; "chosen"; "rejected"; "subset"; "subsubset"] raw)
      as [out|e] eqn:Hmap.
    + exfalso. destruct raw as [|ex raw]; [contradiction|].
      assert (ex ∈ ex :: raw) as Hex by left.
      destruct (proj1 (Dataset_map_succeeds_iff _ _ _) (ex_intro _ out Hmap)
                  ex Hex) as [[ex' Hf] _].
      destruct (Hcols ex "prompt" Hex) as [p Hp]; [in_cols|].
      destruct (Hcols ex "chosen" Hex) as [c Hc]; [in_cols|].
      destruct (Hcols ex "rejected" Hex) as [r Hr]; [in_cols|].
      destruct (Hstr ex "prompt" p Hex) as [s ->]; [in_cols | exact Hp|].
      destruct (map_conversations_testsets_cases _ _ _ _ Hp Hc Hr)
        as [[[turns Hl] _]|[_ Hfail]]; [discriminate | congruence].
    + f_equal. unfold Dataset_map in Hmap.
      rewrite (proj2 (columns_present raw _)) in Hmap
        by (intros ex0 c0 Hex0 Hc0; apply (Hcols ex0 c0 Hex0 Hc0)).
      apply res_mapM_Raise in Hmap as (ex0 & Hex0 & Hf0).
      destruct (Hcols ex0 "prompt" Hex0) as [p Hp]; [in_cols|].
      destruct (Hcols ex0 "chosen" Hex0) as [c Hc]; [in_cols|].
      destruct (Hcols ex0 "rejected" Hex0) as [r Hr]; [in_cols|].
      destruct (map_conversations_testsets_cases _ _ _ _ Hp Hc Hr)
        as [[_ [ex' Hok]]|[_ Hfail]].
      * rewrite Hok in Hf0. discriminate.
      * rewrite Hfail in Hf0. simpl in Hf0. congruence.
Qed.

(** The two sample rows: the benchmark formatting returns, and a row
    without its subset column makes it fail. *)
Lemma structured_formatting_succeeds_iff_witness :
  (exists ds,
     prepare_dataset unit sample_prepare_dialogue true false tt sample_raw
     = Ok ds) /\
  prepare_dataset unit sample_prepare_dialogue true false tt
    [ {[ "prompt" := VStr "q1"; "chosen" := VStr "good1";
         "rejected" := VStr "bad1" ]} ]
  = Raise ValueError.
Proof.
  split.
  - apply (structured_formatting_succeeds_iff unit sample_prepare_dialogue
             tt sample_raw).
    + discriminate.
    + intros ex c v Hex Hc Hv. unfold sample_raw in Hex.
      repeat (apply elem_of_cons in Hex as [->|Hex]); [| |inversion Hex];
        repeat (apply elem_of_cons in Hc as [->|Hc]);
        try (inversion Hc); injection Hv as <-; eexists; reflexivity.
    + intros ex c Hex Hc. unfold sample_raw in Hex.
      repeat (apply elem_of_cons in Hex as [->|Hex]); [| |inversion Hex];
        repeat (apply elem_of_cons in Hc as [->|Hc]);
        try (inversion Hc); eexists; reflexivity.
  - apply (structured_formatting_succeeds_iff unit sample_prepare_dialogue
             tt).
    + discriminate.
    + intros ex c v Hex Hc Hv.
      repeat (apply elem_of_cons in Hex as [->|Hex]); [|inversion Hex];
        repeat (apply elem_of_cons in Hc as [->|Hc]);
        try (inversion Hc); injection Hv as <-; eexists; reflexivity.
    + eexists. exists "subset". split; [left|]. split; [in_cols|reflexivity].
Defined.

(** ** The batch size does not change the verdicts *)

Lemma res_mapM_app {A B} (f : A -> res B) l1 l2 o1 o2 :
  res_mapM f l1 = Ok o1 -> res_mapM f l2 = Ok o2 ->
  res_mapM f (l1 ++ l2) = Ok (o1 ++ o2).
Proof.
  revert o1. induction l1 as [|x l1 IH]; simpl; intros o1 H1 H2.
  - injection H1 as <-. exact H2.
  - step_inv H1 as y Hy. step_inv H1 as ys Hys. injection H1 as <-.
    rewrite Hy. simpl. rewrite (IH _ Hys H2). reflexivity.
Qed.

Lemma column_Ok_all (ds : dataset) (name : string) :
  (forall ex, ex ∈ ds -> is_Some (ex !! name)) ->
  exists col, column ds name = Ok col /\ length col = length ds.
Proof.
  intros Hall. destruct (res_mapM_Ok_all (fun ex : example => getitem ex name) ds)
    as [col Hcol].
  - intros ex Hex. destruct (Hall ex Hex) as [v Hv].
    exists v. apply getitem_Ok. exact Hv.
  - exists col. split; [exact Hcol|]. apply (res_mapM_Ok_length _ _ _ Hcol).
Qed.

Lemma pairwise_app a1 a2 b1 b2 :
  length a1 = length b1 ->
  pairwise (a1 ++ a2) (b1 ++ b2) = pairwise a1 b1 ++ pairwise a2 b2.
Proof.
  intros Hlen. unfold pairwise.
  rewrite zip_with_app by exact Hlen. apply map_app.
Qed.

(** The batches of a loader are made of rows of the dataset, and none is
    empty. *)
Lemma batches_rows (P : example -> Prop) (ds : dataset)
    (batches : list (list example)) (batch_size : Z) :
  concat batches = ds ->
  Forall (fun b => 1 <= Z.of_nat (length b) <= batch_size) batches ->
  Forall P ds ->
  Forall (fun b => b <> [] /\ Forall P b) batches.
Proof.
  intros Hcat Hsizes Hrows. apply Forall_forall. intros b Hb. split.
  - rewrite Forall_forall in Hsizes. specialize (Hsizes b Hb).
    destruct b; [simpl in Hsizes; lia | discriminate].
  - apply Forall_forall. intros ex Hex. rewrite Forall_forall in Hrows.
    apply Hrows. rewrite <- Hcat. apply list_elem_of_In, in_concat.
    exists b. split; apply list_elem_of_In; assumption.
Qed.

(** A batch whose first row starts its text_chosen with a dict is handed
    over as it is, without consulting [default_collate]. *)
Lemma custom_collate_fn_rows default_collate (ex : example)
    (rest : list example) (d : gmap string value) (turns : list value) :
  ex !! "text_chosen" = Some (VList (VDict d :: turns)) ->
  custom_collate_fn default_collate (ex :: rest) = Ok (Rows (ex :: rest)).
Proof.
  intros H. unfold custom_collate_fn, getitem. simpl. rewrite H. reflexivity.
Qed.

Lemma batch_loop_native_pointwise reward_pipe default_collate
    (model chat_template : string) (judge : value -> value -> scalar)
    (batches : list (list example)) results calls :
  pairwise_native model chat_template = true ->
  judges_pairs reward_pipe judge batches ->
  Forall (fun b => b <> [] /\ Forall turn_row b) batches ->
  exists tc tr calls',
    column (concat batches) "text_chosen" = Ok tc /\
    column (concat batches) "text_rejected" = Ok tr /\
    length tc = length tr /\
    batch_loop reward_pipe default_collate model chat_template
      batches results calls
    = Ok (results ++ map native_verdict (zip_with judge tc tr), calls') /\
    length calls' = (length calls + length batches)%nat.
Proof.
  intros Hnat Hpipe Hall. revert results calls.
  induction Hall as [|b batches [Hne Hrows] Hall IH]; intros results calls.
  - exists [], [], calls. simpl. rewrite app_nil_r.
    repeat split; try reflexivity. lia.
  - destruct b as [|ex rest]; [contradiction|].
    assert (Hrows' := Hrows). apply Forall_cons in Hrows' as [[(d & turns & Hd) _] _].
    destruct (column_Ok_all (ex :: rest) "text_chosen") as (tcb & Htcb & Hltc).
    { intros ex' Hex'. rewrite Forall_forall in Hrows.
      destruct (Hrows ex' Hex') as [(d' & t' & ->) _]. eauto. }
    destruct (column_Ok_all (ex :: rest) "text_rejected") as (trb & Htrb & Hltr).
    { intros ex' Hex'. rewrite Forall_forall in Hrows.
      apply (Hrows ex' Hex'). }
    assert (batch_step reward_pipe model chat_template (Rows (ex :: rest))
              results calls
            = Ok (results ++ map (fun j => if truthy j then 1 else 0)
                               (zip_with judge tcb trb),
                  calls ++ [[VList tcb; VList trb]])) as Hstep.
    { apply (batch_step_native_Ok _ _ _ _ _ _ _ _ Hnat).
      exists trb, tcb, (OutTensor (zip_with judge tcb trb)),
        (zip_with judge tcb trb).
      repeat split; try assumption; try reflexivity.
      apply (Hpipe (ex :: rest)); [left | exact Htcb | exact Htrb]. }
    destruct IH with
      (results := results ++ map (fun j => if truthy j then 1 else 0)
                                (zip_with judge tcb trb))
      (calls := calls ++ [[VList tcb; VList trb]])
      as (tc & tr & calls' & Htc & Htr & Hlen & Hloop & Hcalls).
    { intros b tc tr Hb. apply Hpipe. right. exact Hb. }
    exists (tcb ++ tc), (trb ++ tr), calls'.
    split; [apply res_mapM_app; assumption|].
    split; [apply res_mapM_app; assumption|].
    split; [rewrite !length_app; lia|].
    split.
    + simpl batch_loop.
      rewrite (custom_collate_fn_rows _ _ _ _ _ Hd). simpl.
      rewrite Hstep. simpl. rewrite Hloop.
      rewrite zip_with_app by lia. rewrite map_app, <- app_assoc. reflexivity.
    + rewrite Hcalls, length_app. simpl. lia.
Qed.

(** The manual loop in its pairwise branch over a dataset of structured
    rows, cut by the loader. *)
Lemma run_manual_native_pointwise reward_pipe default_collate
    (model chat_template : string) (judge : value -> value -> scalar)
    (ds : dataset) (batch_size : Z) :
  pairwise_native model chat_template = true ->
  0 < batch_size <= Z.of_nat (length ds) ->
  batch_size < 2 ^ 63 ->
  judges_pairs reward_pipe judge (chunks (Z.to_nat batch_size) ds) ->
  Forall turn_row ds ->
  exists tc tr calls,
    column ds "text_chosen" = Ok tc /\
    column ds "text_rejected" = Ok tr /\
    run_manual reward_pipe default_collate model chat_template
      batch_size ds []
    = Ok (map native_verdict (zip_with judge tc tr), calls) /\
    length (map native_verdict (zip_with judge tc tr)) = length ds /\
    Z.of_nat (length calls)
    = (Z.of_nat (length ds) + batch_size - 1) / batch_size.
Proof.
  intros Hnat Hpos Hmax Hpipe Hrows.
  destruct (DataLoader_positive ds batch_size)
    as (batches & Hload & Hb & Hcat & Hsizes & Hne & Hcount); [lia|].
  rewrite <- Hb in Hpipe.
  destruct (batch_loop_native_pointwise reward_pipe default_collate
              model chat_template judge batches [] [] Hnat Hpipe)
    as (tc & tr & calls & Htc & Htr & Hlen & Hloop & Hcalls).
  { apply (batches_rows turn_row ds _ batch_size); assumption. }
  rewrite Hcat in Htc, Htr.
  exists tc, tr, calls. split; [exact Htc|]. split; [exact Htr|].
  split; [|split].
  - unfold run_manual. rewrite Hload. simpl.
    destruct batches as [|b bs]; [|exact Hloop].
    exfalso. apply Hne; [|reflexivity]. intros ->. simpl in Hpos. lia.
  - rewrite length_map, length_zip_with.
    rewrite <- (res_mapM_Ok_length _ _ _ Htc). lia.
  - rewrite Hcalls. simpl. exact Hcount.
Qed.

(** X7: in the pairwise branch of the manual loop, for a dataset of
    structured rows, a batch size between 1 and the number of rows, and a
    pipeline that judges every pair of each batch on its own, the run
    returns one verdict per row: the verdicts of the judgments over the
    whole columns in row order, whatever the batch size and the collation;
    and it makes one pipeline call per batch. *)
Theorem native_run_independent_of_batch_size reward_pipe default_collate
    (model chat_template : string) (judge : value -> value -> scalar)
    (ds : dataset) (batch_size : Z) :
  pairwise_native model chat_template = true ->
  0 < batch_size <= Z.of_nat (length ds) ->
  batch_size < 2 ^ 63 ->
  judges_pairs reward_pipe judge (chunks (Z.to_nat batch_size) ds) ->
  Forall turn_row ds ->
  exists tc tr calls,
    column ds "text_chosen" = Ok tc /\
    column ds "text_rejected" = Ok tr /\
    run_manual reward_pipe default_collate model chat_template
      batch_size ds []
    = Ok (map native_verdict (zip_with judge tc tr), calls) /\
    length (map native_verdict (zip_with judge tc tr)) = length ds /\
    Z.of_nat (length calls)
    = (Z.of_nat (length ds) + batch_size - 1) / batch_size.
Proof. apply run_manual_native_pointwise. Qed.

(** Three structured-turn rows judged in batches of two. *)
Lemma native_run_independent_of_batch_size_witness :
  exists calls,
    run_manual sample_judge_pipe sample_default_collate
      "llm-blender/PairRM" "tulu" 2 sample_turn_batch []
    = Ok ([1; 0; 1], calls) /\
    Z.of_nat (length calls) = 2.
Proof.
  destruct (native_run_independent_of_batch_size sample_judge_pipe
              sample_default_collate "llm-blender/PairRM" "tulu"
              sample_judge sample_turn_batch 2 eq_refl)
    as (tc & tr & calls & Htc & Htr & Hrun & _ & Hcalls).
  { simpl. lia. }
  { reflexivity. }
  { intros b tc tr _ _ _. reflexivity. }
  { unfold sample_turn_batch. repeat constructor;
      try (do 2 eexists; reflexivity); eexists; reflexivity. }
  assert (column sample_turn_batch "text_chosen"
          = Ok [ make_conversation (VStr "q1") (VStr "c1");
                 make_conversation (VStr "q2") (VStr "c2");
                 make_conversation (VStr "q3") (VStr "c3") ]) as Etc
    by (vm_compute; reflexivity).
  assert (column sample_turn_batch "text_rejected"
          = Ok [ make_conversation (VStr "q1") (VStr "r1");
                 make_conversation (VStr "q2") (VStr "r2");
                 make_conversation (VStr "q3") (VStr "r3") ]) as Etr
    by (vm_compute; reflexivity).
  rewrite Etc in Htc. rewrite Etr in Htr.
  injection Htc as <-. injection Htr as <-.
  exists calls. split; [exact Hrun | exact Hcalls].
Defined.

Lemma custom_collate_fn_text default_collate (ex : example)
    (rest : list example) (c : ascii) (s : string) :
  ex !! "text_chosen" = Some (VStr (String c s)) ->
  custom_collate_fn default_collate (ex :: rest)
  = let* d := default_collate (ex :: rest) in Ok (Collated d).
Proof.
  intros H. unfold custom_collate_fn, getitem. simpl. rewrite H. reflexivity.
Qed.

Lemma text_rows_columns (b : list example) :
  Forall text_row b ->
  exists tc tr,
    column b "text_chosen" = Ok tc /\ column b "text_rejected" = Ok tr /\
    length tc = length b /\ length tr = length b.
Proof.
  intros Hrows.
  destruct (column_Ok_all b "text_chosen") as (tc & Htc & Hltc).
  { intros ex' Hex'. rewrite Forall_forall in Hrows.
    destruct (Hrows ex' Hex') as [(c' & s' & ->) _]. eauto. }
  destruct (column_Ok_all b "text_rejected") as (tr & Htr & Hltr).
  { intros ex' Hex'. rewrite Forall_forall in Hrows.
    destruct (Hrows ex' Hex') as [_ (s' & ->)]. eauto. }
  eauto 10.
Qed.

(** The scalar branch of one step on a collated batch, for a pipeline
    that returns a list of result dicts and for one that returns a tensor
    of scores, on the two lists of texts of the batch. *)
Lemma batch_step_dict_scores reward_pipe (model chat_template : string)
    (score_of : value -> result_t) (d : example) (tcb trb : list value)
    results calls :
  pairwise_native model chat_template = false ->
  reward_pipe [VList tcb] = Ok (OutDicts (map score_of tcb)) ->
  reward_pipe [VList trb] = Ok (OutDicts (map score_of trb)) ->
  tcb <> [] ->
  d !! "text_chosen" = Some (VList tcb) ->
  d !! "text_rejected" = Some (VList trb) ->
  batch_step reward_pipe model chat_template (Collated d) results calls
  = Ok (results ++ pairwise (map (fun t => SFloat (score (score_of t))) tcb)
                     (map (fun t => SFloat (score (score_of t))) trb),
        calls ++ [[VList tcb]; [VList trb]]).
Proof.
  intros Hnat Hpc Hpr Hne Hd2 Hd3.
  unfold batch_step, call_pipe, batch_getitem, getitem.
  rewrite Hnat, Hd2, Hd3. simpl. rewrite Hpc. simpl. rewrite Hpr. simpl.
  destruct tcb as [|t tcb]; [contradiction|]. simpl.
  rewrite append_pairwise_app, <- app_assoc, !map_map. reflexivity.
Qed.

Lemma batch_step_tensor_scores reward_pipe (model chat_template : string)
    (score_of : value -> scalar) (d : example) (tcb trb : list value)
    results calls :
  pairwise_native model chat_template = false ->
  reward_pipe [VList tcb] = Ok (OutTensor (map score_of tcb)) ->
  reward_pipe [VList trb] = Ok (OutTensor (map score_of trb)) ->
  tcb <> [] ->
  d !! "text_chosen" = Some (VList tcb) ->
  d !! "text_rejected" = Some (VList trb) ->
  batch_step reward_pipe model chat_template (Collated d) results calls
  = Ok (results ++ pairwise (map score_of tcb) (map score_of trb),
        calls ++ [[VList tcb]; [VList trb]]).
Proof.
  intros Hnat Hpc Hpr Hne Hd2 Hd3.
  unfold batch_step, call_pipe, batch_getitem, getitem.
  rewrite Hnat, Hd2, Hd3. simpl. rewrite Hpc. simpl. rewrite Hpr. simpl.
  destruct tcb as [|t tcb]; [contradiction|]. simpl.
  rewrite append_pairwise_app, <- app_assoc. reflexivity.
Qed.

(** When every step on a collated batch appends the pairwise verdicts of
    the batch's scores, the loop appends those of the whole columns. *)
Lemma batch_loop_scalar_pointwise reward_pipe default_collate
    (model chat_template : string) (score_of : value -> scalar)
    (batches : list (list example)) results calls :
  (forall (b : list example) (d : example) tcb trb results calls,
     b ∈ batches ->
     column b "text_chosen" = Ok tcb ->
     column b "text_rejected" = Ok trb ->
     tcb <> [] ->
     d !! "text_chosen" = Some (VList tcb) ->
     d !! "text_rejected" = Some (VList trb) ->
     batch_step reward_pipe model chat_template (Collated d) results calls
     = Ok (results ++ pairwise (map score_of tcb) (map score_of trb),
           calls ++ [[VList tcb]; [VList trb]])) ->
  columnwise default_collate batches ->
  Forall (fun b => b <> [] /\ Forall text_row b) batches ->
  exists tc tr calls',
    column (concat batches) "text_chosen" = Ok tc /\
    column (concat batches) "text_rejected" = Ok tr /\
    length tc = length tr /\
    batch_loop reward_pipe default_collate model chat_template
      batches results calls
    = Ok (results ++ pairwise (map score_of tc) (map score_of tr), calls') /\
    length calls' = (length calls + 2 * length batches)%nat.
Proof.
  intros Hstep Hcol Hall. revert results calls.
  induction Hall as [|b batches [Hne Hrows] Hall IH]; intros results calls.
  - exists [], [], calls. simpl. rewrite app_nil_r.
    repeat split; try reflexivity. lia.
  - destruct b as [|ex rest]; [contradiction|].
    assert (Hrows' := Hrows).
    apply Forall_cons in Hrows' as [[(c & s & Hd) _] _].
    destruct (text_rows_columns _ Hrows)
      as (tcb & trb & Htcb & Htrb & Hltc & Hltr).
    destruct (Hcol (ex :: rest) tcb trb) as (d & Hd1 & Hd2 & Hd3);
      [left | exact Htcb | exact Htrb |].
    assert (tcb <> []) as Hne' by (intros ->; discriminate).
    destruct IH with
      (results := results ++ pairwise (map score_of tcb) (map score_of trb))
      (calls := calls ++ [[VList tcb]; [VList trb]])
      as (tc & tr & calls' & Htc & Htr & Hlen & Hloop & Hcalls).
    { intros b d' tcb' trb' results' calls'' Hb. apply Hstep. right.
      exact Hb. }
    { intros b tc tr Hb. apply Hcol. right. exact Hb. }
    exists (tcb ++ tc), (trb ++ tr), calls'.
    split; [apply res_mapM_app; assumption|].
    split; [apply res_mapM_app; assumption|].
    split; [rewrite !length_app; lia|].
    split.
    + simpl batch_loop.
      rewrite (custom_collate_fn_text _ _ _ _ _ Hd), Hd1. simpl.
      rewrite (Hstep (ex :: rest) d tcb trb results calls);
        [|left | exact Htcb | exact Htrb | exact Hne' | exact Hd2
         | exact Hd3].
      simpl. rewrite Hloop.
      rewrite !map_app, pairwise_app, <- app_assoc;
        [reflexivity|]. rewrite !length_map. lia.
    + rewrite Hcalls, length_app. simpl. lia.
Qed.

(** The manual loop over a dataset of template strings, cut by the
    loader. *)
Lemma run_manual_scalar_pointwise reward_pipe default_collate
    (model chat_template : string) (score_of : value -> scalar)
    (ds : dataset) (batch_size : Z) :
  (forall (b : list example) (d : example) tcb trb results calls,
     b ∈ chunks (Z.to_nat batch_size) ds ->
     column b "text_chosen" = Ok tcb ->
     column b "text_rejected" = Ok trb ->
     tcb <> [] ->
     d !! "text_chosen" = Some (VList tcb) ->
     d !! "text_rejected" = Some (VList trb) ->
     batch_step reward_pipe model chat_template (Collated d) results calls
     = Ok (results ++ pairwise (map score_of tcb) (map score_of trb),
           calls ++ [[VList tcb]; [VList trb]])) ->
  0 < batch_size <= Z.of_nat (length ds) ->
  batch_size < 2 ^ 63 ->
  columnwise default_collate (chunks (Z.to_nat batch_size) ds) ->
  Forall text_row ds ->
  exists tc tr calls,
    column ds "text_chosen" = Ok tc /\
    column ds "text_rejected" = Ok tr /\
    run_manual reward_pipe default_collate model chat_template
      batch_size ds []
    = Ok (pairwise (map score_of tc) (map score_of tr), calls) /\
    length (pairwise (map score_of tc) (map score_of tr)) = length ds /\
    Z.of_nat (length calls)
    = 2 * ((Z.of_nat (length ds) + batch_size - 1) / batch_size).
Proof.
  intros Hstep Hpos Hmax Hcol Hrows.
  destruct (DataLoader_positive ds batch_size)
    as (batches & Hload & Hb & Hcat & Hsizes & Hne & Hcount); [lia|].
  rewrite <- Hb in Hstep, Hcol.
  destruct (batch_loop_scalar_pointwise reward_pipe default_collate
              model chat_template score_of batches [] [] Hstep Hcol)
    as (tc & tr & calls & Htc & Htr & Hlen & Hloop & Hcalls).
  { apply (batches_rows text_row ds _ batch_size); assumption. }
  rewrite Hcat in Htc, Htr.
  exists tc, tr, calls.
  split; [exact Htc|]. split; [exact Htr|]. split; [|split].
  - unfold run_manual. rewrite Hload. simpl.
    destruct batches as [|b bs]; [|exact Hloop].
    exfalso. apply Hne; [|reflexivity]. intros ->. simpl in Hpos. lia.
  - unfold pairwise.
    rewrite length_map, length_zip_with, !length_map.
    rewrite <- (res_mapM_Ok_length _ _ _ Htc). lia.
  - rewrite Hcalls. simpl length. lia.
Qed.

(** X8: for a dataset of template strings, a batch size between 1 and the
    number of rows, a pipeline that returns one result dict per text, each
    text scored on its own, on the text columns of every batch and of the
    whole dataset, and a collation that keeps the text columns of every
    batch in row order, the manual loop in its scalar branch returns the
    very verdicts of the uniform batched mode: one per row, the pairwise
    comparison of the scores of the whole columns.  The uniform mode makes
    two calls, the manual loop two per batch. *)
Theorem manual_agrees_with_uniform reward_pipe default_collate
    (model chat_template : string) (score_of : value -> result_t)
    (ds : dataset) (batch_size : Z) :
  pairwise_native model chat_template = false ->
  0 < batch_size <= Z.of_nat (length ds) ->
  batch_size < 2 ^ 63 ->
  scores_texts reward_pipe (fun texts => OutDicts (map score_of texts))
    (ds :: chunks (Z.to_nat batch_size) ds) ->
  columnwise default_collate (chunks (Z.to_nat batch_size) ds) ->
  Forall text_row ds ->
  exists tc tr calls_manual calls_uniform,
    column ds "text_chosen" = Ok tc /\
    column ds "text_rejected" = Ok tr /\
    run_manual reward_pipe default_collate model chat_template
      batch_size ds []
    = Ok (pairwise (scores_of score_of tc) (scores_of score_of tr),
          calls_manual) /\
    run_uniform reward_pipe ds []
    = Ok (pairwise (scores_of score_of tc) (scores_of score_of tr),
          calls_uniform) /\
    length (pairwise (scores_of score_of tc) (scores_of score_of tr))
    = length ds /\
    length calls_uniform = 2%nat /\
    Z.of_nat (length calls_manual)
    = 2 * ((Z.of_nat (length ds) + batch_size - 1) / batch_size).
Proof.
  intros Hnat Hpos Hmax Hpipe Hcol Hrows.
  destruct (run_manual_scalar_pointwise reward_pipe default_collate
              model chat_template (fun t => SFloat (score (score_of t)))
              ds batch_size)
    as (tc & tr & calls & Htc & Htr & Hrun & Hlen & Hcalls);
    try assumption.
  { intros b d tcb trb results calls Hb Htcb Htrb.
    apply batch_step_dict_scores; [exact Hnat | |].
    - apply (Hpipe b "text_chosen");
        [right; exact Hb | left; reflexivity | exact Htcb].
    - apply (Hpipe b "text_rejected");
        [right; exact Hb | right; reflexivity | exact Htrb]. }
  exists tc, tr, calls, [[VList tr]; [VList tc]].
  unfold scores_of. rewrite !map_map.
  split; [exact Htc|]. split; [exact Htr|]. split; [exact Hrun|].
  split; [|split; [exact Hlen|split; [reflexivity | exact Hcalls]]].
  apply run_uniform_Ok.
  exists tr, tc, (OutDicts (map score_of tr)), (OutDicts (map score_of tc)),
    (map (fun t => SFloat (score (score_of t))) tc),
    (map (fun t => SFloat (score (score_of t))) tr).
  split; [exact Htr|].
  split; [apply (Hpipe ds "text_rejected");
          [left | right; reflexivity | exact Htr]|].
  split; [exact Htc|].
  split; [apply (Hpipe ds "text_chosen");
          [left | left; reflexivity | exact Htc]|].
  repeat split; simpl; rewrite ?map_map; reflexivity.
Qed.

(** The two sample rows, template-formatted, in batches of one. *)
Lemma manual_agrees_with_uniform_witness :
  exists calls_manual calls_uniform,
    run_manual sample_reward_pipe sample_default_collate
      "openbmb/UltraRM-13b" "tulu" 1 sample_formatted []
    = Ok ([1; 0], calls_manual) /\
    run_uniform sample_reward_pipe sample_formatted []
    = Ok ([1; 0], calls_uniform) /\
    Z.of_nat (length calls_manual) = 4.
Proof.
  destruct (manual_agrees_with_uniform sample_reward_pipe
              sample_default_collate "openbmb/UltraRM-13b" "tulu"
              (fun t => {| label := "LABEL_0"; score := sample_score t |})
              sample_formatted 1 eq_refl)
    as (tc & tr & cm & cu & Htc & Htr & Hm & Hu & _ & _ & Hcm).
  { simpl. lia. }
  { reflexivity. }
  { intros b name texts _ _ _. reflexivity. }
  { intros b tc tr _ Htc Htr. unfold sample_default_collate.
    rewrite Htc, Htr. simpl. eexists. split; [reflexivity|].
    split; reflexivity. }
  { unfold sample_formatted. repeat constructor;
      try (do 2 eexists; reflexivity); eexists; reflexivity. }
  rewrite sample_formatted_text_chosen in Htc.
  rewrite sample_formatted_text_rejected in Htr.
  injection Htc as <-. injection Htr as <-.
  exists cm, cu. split; [exact Hm|]. split; [exact Hu | exact Hcm].
Defined.

(** X9: for a dataset of template strings, a batch size between 1 and the
    number of rows, a custom pipeline that returns a tensor of scores, one
    per text, each text scored on its own, on the text columns of every
    batch, and a collation that keeps the text columns of every batch in
    row order, the manual loop goes through its [tolist] branch and returns
    one verdict per row: the pairwise comparison of the scores of the whole
    columns in row order, at two pipeline calls per batch. *)
Theorem manual_tensor_scores reward_pipe default_collate
    (model chat_template : string) (score_of : value -> scalar)
    (ds : dataset) (batch_size : Z) :
  pairwise_native model chat_template = false ->
  0 < batch_size <= Z.of_nat (length ds) ->
  batch_size < 2 ^ 63 ->
  scores_texts reward_pipe (fun texts => OutTensor (map score_of texts))
    (chunks (Z.to_nat batch_size) ds) ->
  columnwise default_collate (chunks (Z.to_nat batch_size) ds) ->
  Forall text_row ds ->
  exists tc tr calls,
    column ds "text_chosen" = Ok tc /\
    column ds "text_rejected" = Ok tr /\
    run_manual reward_pipe default_collate model chat_template
      batch_size ds []
    = Ok (pairwise (map score_of tc) (map score_of tr), calls) /\
    length (pairwise (map score_of tc) (map score_of tr)) = length ds /\
    Z.of_nat (length calls)
    = 2 * ((Z.of_nat (length ds) + batch_size - 1) / batch_size).
Proof.
  intros Hnat Hpos Hmax Hpipe Hcol Hrows.
  apply run_manual_scalar_pointwise; try assumption.
  intros b d tcb trb results calls Hb Htcb Htrb.
  apply batch_step_tensor_scores; [exact Hnat | |].
  - apply (Hpipe b "text_chosen");
      [exact Hb | left; reflexivity | exact Htcb].
  - apply (Hpipe b "text_rejected");
      [exact Hb | right; reflexivity | exact Htrb].
Qed.

(** The two sample rows scored by a tensor pipeline, in batches of one. *)
Lemma manual_tensor_scores_witness :
  exists calls,
    run_manual sample_tensor_pipe sample_default_collate
      "berkeley-nest/Starling-RM-7B-alpha" "tulu" 1 sample_formatted []
    = Ok ([1; 0], calls) /\
    Z.of_nat (length calls) = 4.
Proof.
  destruct (manual_tensor_scores sample_tensor_pipe
              sample_default_collate "berkeley-nest/Starling-RM-7B-alpha"
              "tulu" (fun t => SFloat (sample_score t))
              sample_formatted 1 eq_refl)
    as (tc & tr & calls & Htc & Htr & Hrun & _ & Hcalls).
  { simpl. lia. }
  { reflexivity. }
  { intros b name texts _ _ _. reflexivity. }
  { intros b tc tr _ Htc Htr. unfold sample_default_collate.
    rewrite Htc, Htr. simpl. eexists. split; [reflexivity|].
    split; reflexivity. }
  { unfold sample_formatted. repeat constructor;
      try (do 2 eexists; reflexivity); eexists; reflexivity. }
  rewrite sample_formatted_text_chosen in Htc.
  rewrite sample_formatted_text_rejected in Htr.
  injection Htc as <-. injection Htr as <-.
  exists calls. split; [exact Hrun | exact Hcalls].
Defined.

(** ** The pairwise guard tests names, not the data *)

Lemma batch_column_collated_TypeError (d : example) (name k : string)
    (v : value) :
  d !! k = Some v -> batch_column (Collated d) name = Raise TypeError.
Proof.
  intros Hk. unfold batch_column.
  destruct (map_to_list d) as [|kv l] eqn:Hl; [|reflexivity].
  apply map_to_list_empty_iff in Hl. subst d.
  rewrite lookup_empty in Hk. discriminate.
Qed.

(** With the guard on, a dataset of template strings stops the manual
    loop at its first batch. *)
Lemma run_manual_guard_text_rows reward_pipe default_collate
    (model chat_template : string) (batch_size : Z) (ds : dataset) :
  pairwise_native model chat_template = true ->
  0 < batch_size <= Z.of_nat (length ds) ->
  batch_size < 2 ^ 63 ->
  columnwise default_collate (chunks (Z.to_nat batch_size) ds) ->
  Forall text_row ds ->
  run_manual reward_pipe default_collate model chat_template batch_size ds []
  = Raise TypeError.
Proof.
  intros Hnat Hpos Hmax Hcol Hrows.
  destruct (DataLoader_positive ds batch_size)
    as (batches & Hload & Hbs & Hcat & Hsizes & _); [lia|].
  rewrite <- Hbs in Hcol.
  unfold run_manual. rewrite Hload. simpl.
  destruct batches as [|b batches].
  { simpl in Hcat. subst ds. simpl in Hpos. lia. }
  apply Forall_cons in Hsizes as [Hb _].
  destruct b as [|ex rest]; [simpl in Hb; lia|].
  assert (Forall text_row (ex :: rest)) as Hbrows.
  { apply Forall_forall. intros ex' Hex'. rewrite Forall_forall in Hrows.
    apply Hrows. rewrite <- Hcat.
    change (concat ((ex :: rest) :: batches))
      with ((ex :: rest) ++ concat batches).
    apply elem_of_app. left. exact Hex'. }
  assert (Hb' := Hbrows). apply Forall_cons in Hb' as [[(c & s & Hd) _] _].
  destruct (text_rows_columns _ Hbrows) as (tcb & trb & Htcb & Htrb & _).
  destruct (Hcol (ex :: rest) tcb trb) as (d & Hd1 & Hd2 & _);
    [left | exact Htcb | exact Htrb |].
  simpl batch_loop.
  rewrite (custom_collate_fn_text _ _ _ _ _ Hd), Hd1. simpl.
  unfold batch_step. rewrite Hnat.
  rewrite (batch_column_collated_TypeError d _ _ _ Hd2). reflexivity.
Qed.

(** X10: the pairwise branch is guarded by the substrings "PairRM" and "SHP"
    of the two names, while the rows are structured turns only when the
    PairRM or SHP adapter was selected. When the guard holds for a custom
    adapter whose rows are template strings, with a batch size between 1
    and the number of rows and a collation that builds the dict of the text
    columns of every batch, the manual loop aborts on its first batch with
    a TypeError: it iterates over the collated dict, whose keys are strings
    that cannot be indexed by a column name. *)
Theorem pairwise_guard_rejects_text_rows reward_pipe default_collate
    (model chat_template : string) (batch_size : Z) (ds : dataset) :
  pipeline_builder (select_adapter model chat_template) <> pipeline ->
  pairwise_native model chat_template = true ->
  0 < batch_size <= Z.of_nat (length ds) ->
  batch_size < 2 ^ 63 ->
  columnwise default_collate (chunks (Z.to_nat batch_size) ds) ->
  Forall text_row ds ->
  run_inference reward_pipe default_collate model chat_template true
    batch_size (pipeline_builder (select_adapter model chat_template)) ds
  = Raise TypeError.
Proof.
  intros Hpb Hnat Hpos Hmax Hcol Hrows.
  unfold run_inference, inference_mode. simpl negb.
  destruct (pipeline_builder (select_adapter model chat_template));
    [contradiction | | | |];
    apply run_manual_guard_text_rows; assumption.
Qed.

(** The model "openbmb/PairRM-mix" with direct loading: the openbmb adapter
    is selected, its rows are template strings, and the run aborts. *)
Lemma pairwise_guard_rejects_text_rows_witness :
  custom_dialogue (select_adapter "openbmb/PairRM-mix" "tulu") = false /\
  run_inference sample_reward_pipe sample_default_collate
    "openbmb/PairRM-mix" "tulu" true 2 OpenBMBPipeline sample_formatted
  = Raise TypeError.
Proof.
  split; [reflexivity|].
  apply (pairwise_guard_rejects_text_rows sample_reward_pipe
           sample_default_collate "openbmb/PairRM-mix" "tulu" 2
           sample_formatted).
  - discriminate.
  - reflexivity.
  - simpl. lia.
  - reflexivity.
  - intros b tc tr _ Htc Htr. unfold sample_default_collate.
    rewrite Htc, Htr. simpl. eexists. split; [reflexivity|].
    split; reflexivity.
  - unfold sample_formatted. repeat constructor;
      try (do 2 eexists; reflexivity); eexists; reflexivity.
Defined.

(** ** Where the report is written *)

Lemma head_through_last_sep_app_sep (a b : string) :
  head_through_last_sep (a +:+ "/" +:+ b)
  = a +:+ "/" +:+ head_through_last_sep b.
Proof.
  induction a as [|c a IH].
  - change ("" +:+ "/" +:+ b) with (String "/" b).
    change ("" +:+ "/" +:+ head_through_last_sep b)
      with (String "/" (head_through_last_sep b)).
    simpl. destruct (head_through_last_sep b); reflexivity.
  - change (String c a +:+ "/" +:+ b) with (String c (a +:+ "/" +:+ b)).
    change (String c a +:+ "/" +:+ head_through_last_sep b)
      with (String c (a +:+ "/" +:+ head_through_last_sep b)).
    cbn [head_through_last_sep]. rewrite IH.
    destruct a; reflexivity.
Qed.

Lemma head_through_last_sep_none (t : string) :
  ~ occurs_in "/" t -> head_through_last_sep t = "".
Proof.
  induction t as [|c t IH]; intros Hno; [reflexivity|].
  simpl. rewrite IH.
  - destruct (is_sep c) eqn:Hc; [|reflexivity].
    exfalso. apply Hno. apply Ascii.eqb_eq in Hc as ->.
    exists "", t. reflexivity.
  - intros (pre & post & ->). apply Hno. exists (String c pre), post.
    reflexivity.
Qed.

Lemma head_through_last_sep_app_none (s t : string) :
  ~ occurs_in "/" t ->
  head_through_last_sep (s +:+ t) = head_through_last_sep s.
Proof.
  intros Hno. induction s as [|c s IH].
  - rewrite append_nil_l. simpl. apply head_through_last_sep_none. exact Hno.
  - change (String c s +:+ t) with (String c (s +:+ t)).
    cbn [head_through_last_sep]. rewrite IH. reflexivity.
Qed.

Lemma rstrip_sep_cons (c : ascii) (s : string) :
  is_sep c = false -> rstrip_sep (String c s) = String c (rstrip_sep s).
Proof.
  intros Hc. simpl. rewrite Hc. destruct (rstrip_sep s); reflexivity.
Qed.

(** X12: for every model identifier the directory of the report's path is
    "results" followed by what [dirname] keeps of "/" and the identifier up
    to its last slash: it is never empty, so the guard before [makedirs]
    never skips the creation, and it is "results" itself when the identifier
    has no slash. *)
Theorem report_directory (model : string) :
  dirname (results_path model)
  = "results" +:+ rstrip_sep ("/" +:+ head_through_last_sep model) /\
  dirname (results_path model) <> "" /\
  starts_with "results" (dirname (results_path model)) = true /\
  (~ occurs_in "/" model -> dirname (results_path model) = "results").
Proof.
  assert (head_through_last_sep (results_path model)
          = "results/" +:+ head_through_last_sep model) as Hhead.
  { unfold results_path.
    change ("results/" +:+ model +:+ ".json")
      with ("results" +:+ "/" +:+ (model +:+ ".json")).
    rewrite head_through_last_sep_app_sep.
    rewrite head_through_last_sep_app_none; [reflexivity|].
    intros Hocc. apply in_str_spec in Hocc. discriminate. }
  assert (dirname (results_path model)
          = "results" +:+ rstrip_sep ("/" +:+ head_through_last_sep model))
    as Hdir.
  { unfold dirname. rewrite Hhead.
    change ("results/" +:+ head_through_last_sep model)
      with (String "r" (String "e" (String "s" (String "u" (String "l"
             (String "t" (String "s"
               ("/" +:+ head_through_last_sep model)))))))).
    cbn [String.eqb all_sep is_sep Ascii.eqb Bool.eqb negb andb].
    rewrite !rstrip_sep_cons by reflexivity. reflexivity. }
  split; [exact Hdir|]. rewrite Hdir. split; [discriminate|].
  split; [reflexivity|].
  intros Hno. rewrite (head_through_last_sep_none _ Hno). reflexivity.
Qed.

(** ** Formatting, loading and collation together *)

Lemma map_conversations_turn_row (ex ex' : example) (cols : list string) :
  map_conversations ex = Ok ex' ->
  "text_chosen" ∉ cols -> "text_rejected" ∉ cols ->
  turn_row (drop_columns cols ex').
Proof.
  unfold map_conversations. intros H Hc Hr.
  step_inv H as p Hp. step_inv H as c Hc'.
  step_inv H as p' Hp'. step_inv H as r Hr'. injection H as <-.
  unfold turn_row. rewrite !drop_columns_lookup.
  rewrite !bool_decide_eq_false_2 by assumption.
  rewrite lookup_insert_ne by discriminate. rewrite !lookup_insert_eq.
  unfold make_conversation, turn. split; eauto.
Qed.

Lemma map_conversations_testsets_turn_row (ex ex' : example)
    (cols : list string) :
  map_conversations_testsets ex = Ok ex' ->
  (forall turns, ex !! "prompt" = Some (VList turns) ->
     Forall (fun t => is_dict t = true) turns) ->
  "text_chosen" ∉ cols -> "text_rejected" ∉ cols ->
  turn_row (drop_columns cols ex').
Proof.
  unfold map_conversations_testsets. intros H Hdicts Hc Hr.
  step_inv H as p Hp. step_inv H as c Hc'. step_inv H as tc Htc.
  step_inv H as r Hr'. step_inv H as tr Htr. injection H as <-.
  apply getitem_Ok in Hp.
  destruct p as [| | |turns|]; try discriminate.
  injection Htc as <-. injection Htr as <-.
  unfold turn_row. rewrite !drop_columns_lookup.
  rewrite !bool_decide_eq_false_2 by assumption.
  rewrite lookup_insert_ne by discriminate. rewrite !lookup_insert_eq.
  split; [|eauto].
  specialize (Hdicts turns Hp).
  destruct turns as [|t turns]; simpl; [unfold turn; eauto|].
  apply Forall_cons in Hdicts as [Ht _].
  destruct t; try discriminate. eauto.
Qed.

Lemma DataLoader_Ok (ds : dataset) (batch_size : Z) batches :
  DataLoader ds batch_size = Ok batches ->
  0 < batch_size /\ batches = chunks (Z.to_nat batch_size) ds.
Proof.
  unfold DataLoader. destruct (batch_size <=? 0) eqn:H; [discriminate|].
  destruct (2 ^ 63 <=? batch_size); [discriminate|].
  apply Z.leb_gt in H. intros Hb. injection Hb as <-. auto.
Qed.

(** The rows of the structured-turn strategy start their text_chosen
    with a dict. *)
Lemma prepare_dataset_turn_rows conv_t prepare_dialogue
    (pref_sets : bool) (conv : conv_t) (raw ds : dataset) :
  prepare_dataset conv_t prepare_dialogue true pref_sets conv raw = Ok ds ->
  (pref_sets = true ->
   forall ex turns, ex ∈ raw -> ex !! "prompt" = Some (VList turns) ->
     Forall (fun t => is_dict t = true) turns) ->
  Forall turn_row ds.
Proof.
  intros Hprep Hdicts. rewrite prepare_dataset_eq in Hprep.
  destruct (Dataset_map_Ok _ _ _ _ Hprep) as (Hlen & Hrow & _).
  apply Forall_forall. intros ex' Hex'.
  apply list_elem_of_lookup in Hex' as [i Hi].
  assert (is_Some (raw !! i)) as [ex Hex].
  { apply lookup_lt_is_Some. rewrite <- Hlen.
    apply lookup_lt_is_Some. eauto. }
  destruct (Hrow i ex Hex) as (ex0 & Hf & Hds).
  rewrite Hi in Hds. injection Hds as ->.
  destruct pref_sets; simpl in Hf; cbn [removed_columns].
  - apply (map_conversations_testsets_turn_row ex); [exact Hf | | |].
    + intros turns Hp. apply (Hdicts eq_refl ex turns); [|exact Hp].
      eapply list_elem_of_lookup_2. exact Hex.
    + intros Hin. apply list_elem_of_In in Hin. simpl in Hin.
      intuition discriminate.
    + intros Hin. apply list_elem_of_In in Hin. simpl in Hin.
      intuition discriminate.
  - apply (map_conversations_turn_row ex); [exact Hf | |].
    + intros Hin. apply list_elem_of_In in Hin. simpl in Hin.
      intuition discriminate.
    + intros Hin. apply list_elem_of_In in Hin. simpl in Hin.
      intuition discriminate.
Qed.

(** X13: the rows of the structured-turn strategy are ready for the pairwise
    branch: text_chosen starts with a dict and text_rejected is there (for
    the test sets, provided the prompts are lists of dicts). Every batch the
    loader cuts out of such a dataset is therefore handed to the loop as the
    rows themselves, whatever [default_collate] is. *)
Theorem structured_rows_are_passed_through conv_t prepare_dialogue
    default_collate (pref_sets : bool) (conv : conv_t) (raw ds : dataset) :
  prepare_dataset conv_t prepare_dialogue true pref_sets conv raw = Ok ds ->
  (pref_sets = true ->
   forall ex turns, ex ∈ raw -> ex !! "prompt" = Some (VList turns) ->
     Forall (fun t => is_dict t = true) turns) ->
  Forall turn_row ds /\
  (forall batch_size batches,
     DataLoader ds batch_size = Ok batches ->
     Forall (fun b => custom_collate_fn default_collate b = Ok (Rows b))
       batches).
Proof.
  intros Hprep Hdicts.
  assert (Forall turn_row ds) as Hrows
    by (eapply prepare_dataset_turn_rows; eassumption).
  split; [exact Hrows|].
  intros batch_size batches Hload.
  apply DataLoader_Ok in Hload as [Hpos ->].
  destruct (chunks_spec (Z.to_nat batch_size) ds) as [Hcat Hsizes]; [lia|].
  apply Forall_forall. intros b Hb.
  rewrite Forall_forall in Hsizes. specialize (Hsizes b Hb).
  destruct b as [|ex rest]; [simpl in Hsizes; lia|].
  assert (turn_row ex) as [(d & turns & Hd) _].
  { rewrite Forall_forall in Hrows. apply Hrows. rewrite <- Hcat.
    apply list_elem_of_In, in_concat. exists (ex :: rest).
    split; [apply list_elem_of_In; exact Hb | left; reflexivity]. }
  apply (custom_collate_fn_rows _ _ _ _ _ Hd).
Qed.

(** The sample rows in batches of one. *)
Lemma structured_rows_are_passed_through_witness :
  prepare_dataset unit sample_prepare_dialogue true false tt sample_raw
  = Ok sample_structured /\
  Forall turn_row sample_structured /\
  Forall (fun b => custom_collate_fn sample_default_collate b = Ok (Rows b))
    [ [ {[ "text_chosen" := make_conversation (VStr "q1") (VStr "good1");
           "text_rejected" := make_conversation (VStr "q1") (VStr "bad1") ]} ];
      [ {[ "text_chosen" := make_conversation (VStr "q2") (VStr "good2");
           "text_rejected" := make_conversation (VStr "q2") (VStr "bad2") ]} ] ].
Proof.
  destruct (structured_rows_are_passed_through unit sample_prepare_dialogue
              sample_default_collate false tt sample_raw sample_structured
              sample_raw_structured)
    as [Hrows Hpass]; [discriminate|].
  split; [exact sample_raw_structured|]. split; [exact Hrows|].
  apply (Hpass 1). reflexivity.
Defined.

(** ** [main] in the uniform mode *)

Lemma inference_mode_no_direct_load (pipeline_builder0 : pipeline_builder_t) :
  inference_mode false pipeline_builder0 = UniformBatched.
Proof. reflexivity. Qed.

Lemma prepare_dataset_length conv_t prepare_dialogue
    (custom_dialogue0 pref_sets : bool) (conv : conv_t) (raw ds : dataset) :
  prepare_dataset conv_t prepare_dialogue custom_dialogue0 pref_sets conv raw
  = Ok ds ->
  length ds = length raw.
Proof.
  rewrite prepare_dataset_eq. intros H.
  apply (Dataset_map_Ok _ _ _ _ H).
Qed.

(** On a formatted dataset that has a row, [main] is the inference
    followed by the report step. *)
Lemma main_rows conv_t get_conv_template prepare_dialogue reward_pipe
    default_collate (args : args_t) (raw : dataset)
    (loaded_pipe : pipe_state) (conv : conv_t) (ds : dataset) :
  get_conv_template (chat_template args) = Ok conv ->
  prepare_dataset conv_t prepare_dialogue
    (custom_dialogue (select_adapter (model args) (chat_template args)))
    (pref_sets args) conv raw = Ok ds ->
  raw <> [] ->
  main conv_t get_conv_template prepare_dialogue reward_pipe
    default_collate args raw loaded_pipe
  = let* '(results, _) :=
      run_inference (reward_pipe (set_pad_token loaded_pipe)) default_collate
        (model args) (chat_template args) (direct_load args)
        (batch_size args)
        (pipeline_builder (select_adapter (model args) (chat_template args)))
        ds in
    process_results (model args) (chat_template args) raw results.
Proof.
  intros Hconv Hprep Hne.
  assert (Hlen := prepare_dataset_length _ _ _ _ _ _ _ Hprep).
  unfold main. rewrite Hconv. simpl. rewrite Hprep. simpl.
  destruct ds as [|ex ds].
  - destruct raw; [contradiction | discriminate].
  - destruct (inference_mode (direct_load args)
                (pipeline_builder
                   (select_adapter (model args) (chat_template args))));
      reflexivity.
Qed.

(** The report step on one verdict per row. *)
Lemma process_results_report (model chat_template : string) (raw : dataset)
    (V : list Z) :
  length V = length raw ->
  (forall ex, ex ∈ raw ->
     ex !! "results" = None /\ exists s, ex !! "subset" = Some (VStr s)) ->
  exists report,
    process_results model chat_template raw V = Ok report /\
    forall subset,
      (exists ex, ex ∈ raw /\ ex !! "subset" = Some (VStr subset)) ->
      exists acc,
        py_truediv (sum_Z (verdicts_of_subset subset raw V))
          (Z.of_nat (length (verdicts_of_subset subset raw V)))
        = Ok acc /\
        report !! subset = Some (VFloat acc).
Proof.
  intros HlenV Hraw.
  assert (add_column raw "results" (map VInt V)
          = Ok (zip_with (fun (ex : example) v => <["results" := v]> ex) raw
                  (map VInt V))) as Hadd.
  { apply add_column_succeeds.
    - intros ex Hex. apply (Hraw ex Hex).
    - rewrite length_map. exact HlenV. }
  destruct (unique_subsets_succeeds raw) as [subsets Huniq].
  { intros ex Hex. apply (Hraw ex Hex). }
  destruct (process_results_from model chat_template raw V _ _
              Hadd Huniq) as (report & Hrep & Hin & _).
  destruct (unique_subsets_Ok _ _ Huniq) as (_ & _ & Hiff).
  exists report. split; [exact Hrep|].
  intros subset Hex. apply Hiff in Hex.
  destruct (Hin subset Hex) as (acc & Hdiv & _ & Hr). eauto.
Qed.

(** X14: without direct loading, on a raw dataset that has a row, when the
    template and the formatting succeed, the two texts of every formatted
    row are strings, the pipeline returns one result dict per text, each
    text scored on its own, on the two text columns of the dataset, and the
    raw rows have a string subset and no results column, [main] returns a
    report; under every subset of the raw dataset it holds the float
    quotient of the number of rows of the subset whose chosen score is
    greater than the rejected one by the number of its rows. *)
Theorem main_uniform_report conv_t get_conv_template prepare_dialogue
    reward_pipe default_collate (args : args_t) (raw : dataset)
    (loaded_pipe : pipe_state) (conv : conv_t) (ds : dataset)
    (score_of : value -> result_t) :
  direct_load args = false ->
  raw <> [] ->
  get_conv_template (chat_template args) = Ok conv ->
  prepare_dataset conv_t prepare_dialogue
    (custom_dialogue (select_adapter (model args) (chat_template args)))
    (pref_sets args) conv raw = Ok ds ->
  (forall ex, ex ∈ ds ->
     (exists s, ex !! "text_chosen" = Some (VStr s)) /\
     (exists s, ex !! "text_rejected" = Some (VStr s))) ->
  scores_texts (reward_pipe (set_pad_token loaded_pipe))
    (fun texts => OutDicts (map score_of texts)) [ds] ->
  (forall ex, ex ∈ raw ->
     ex !! "results" = None /\ exists s, ex !! "subset" = Some (VStr s)) ->
  exists tc tr report,
    column ds "text_chosen" = Ok tc /\
    column ds "text_rejected" = Ok tr /\
    main conv_t get_conv_template prepare_dialogue reward_pipe
      default_collate args raw loaded_pipe = Ok report /\
    forall subset,
      (exists ex, ex ∈ raw /\ ex !! "subset" = Some (VStr subset)) ->
      exists acc,
        py_truediv
          (sum_Z (verdicts_of_subset subset raw
                    (pairwise (scores_of score_of tc) (scores_of score_of tr))))
          (Z.of_nat
             (length (verdicts_of_subset subset raw
                        (pairwise (scores_of score_of tc)
                           (scores_of score_of tr)))))
        = Ok acc /\
        report !! subset = Some (VFloat acc).
Proof.
  intros Hdl Hne Hconv Hprep Htexts Hpipe Hraw.
  destruct (column_Ok_all ds "text_chosen") as (tc & Htc & Hltc).
  { intros ex Hex. destruct (Htexts ex Hex) as [[s ->] _]. eauto. }
  destruct (column_Ok_all ds "text_rejected") as (tr & Htr & Hltr).
  { intros ex Hex. destruct (Htexts ex Hex) as [_ [s ->]]. eauto. }
  set (V := pairwise (scores_of score_of tc) (scores_of score_of tr)).
  assert (length V = length raw) as HlenV.
  { unfold V, pairwise, scores_of.
    rewrite length_map, length_zip_with, !length_map.
    rewrite <- (prepare_dataset_length _ _ _ _ _ _ _ Hprep). lia. }
  destruct (process_results_report (model args) (chat_template args) raw V
              HlenV Hraw) as (report & Hrep & Hacc).
  exists tc, tr, report. split; [exact Htc|]. split; [exact Htr|].
  split; [|exact Hacc].
  rewrite (main_rows _ _ _ _ _ _ _ _ _ _ Hconv Hprep Hne).
  unfold run_inference. rewrite Hdl, inference_mode_no_direct_load.
  assert (run_uniform (reward_pipe (set_pad_token loaded_pipe)) ds []
          = Ok (V, [[VList tr]; [VList tc]])) as ->.
  { apply run_uniform_Ok.
    exists tr, tc, (OutDicts (map score_of tr)), (OutDicts (map score_of tc)),
      (scores_of score_of tc), (scores_of score_of tr).
    split; [exact Htr|].
    split; [apply (Hpipe ds "text_rejected");
            [left | right; reflexivity | exact Htr]|].
    split; [exact Htc|].
    split; [apply (Hpipe ds "text_chosen");
            [left | left; reflexivity | exact Htc]|].
    repeat split; reflexivity. }
  simpl. exact Hrep.
Qed.

(** The scenario of two rows of subset s1 with scores 0.9 against 0.1 and
    0.2 against 0.3: the accuracy reported for s1 is 0.5. *)
Lemma main_uniform_report_witness :
  exists report,
    main unit (fun _ => Ok tt) sample_prepare_dialogue
      (fun _ => sample_reward_pipe) sample_default_collate
      sample_args sample_raw sample_pipe_state = Ok report /\
    report !! "s1" = Some (VFloat f0_5).
Proof.
  destruct (main_uniform_report unit (fun _ => Ok tt) sample_prepare_dialogue
              (fun _ => sample_reward_pipe) sample_default_collate
              sample_args sample_raw sample_pipe_state tt sample_formatted
              (fun t => {| label := "LABEL_0"; score := sample_score t |})
              eq_refl)
    as (tc & tr & report & Htc & Htr & Hmain & Hrep).
  { discriminate. }
  { reflexivity. }
  { exact sample_raw_formatted. }
  { intros ex Hex. unfold sample_formatted in Hex.
    repeat (apply elem_of_cons in Hex as [->|Hex]);
      [split; eexists; reflexivity .. | inversion Hex]. }
  { intros b name texts _ _ _. reflexivity. }
  { intros ex Hex. unfold sample_raw in Hex.
    repeat (apply elem_of_cons in Hex as [->|Hex]);
      [split; [reflexivity | eexists; reflexivity] .. | inversion Hex]. }
  exists report. split; [exact Hmain|].
  destruct (Hrep "s1") as (acc & Hdiv & Hr).
  { eexists. split; [left | reflexivity]. }
  rewrite sample_formatted_text_chosen in Htc.
  rewrite sample_formatted_text_rejected in Htr.
  injection Htc as <-. injection Htr as <-.
  assert (py_truediv
            (sum_Z (verdicts_of_subset "s1" sample_raw
               (pairwise
                  (scores_of
                     (fun t => {| label := "LABEL_0"; score := sample_score t |})
                     [VStr "q1 good1"; VStr "q2 good2"])
                  (scores_of
                     (fun t => {| label := "LABEL_0"; score := sample_score t |})
                     [VStr "q1 bad1"; VStr "q2 bad2"]))))
            (Z.of_nat (length (verdicts_of_subset "s1" sample_raw
               (pairwise
                  (scores_of
                     (fun t => {| label := "LABEL_0"; score := sample_score t |})
                     [VStr "q1 good1"; VStr "q2 good2"])
                  (scores_of
                     (fun t => {| label := "LABEL_0"; score := sample_score t |})
                     [VStr "q1 bad1"; VStr "q2 bad2"])))))
          = Ok f0_5) as Ediv by (vm_compute; reflexivity).
  rewrite Ediv in Hdiv. injection Hdiv as <-. exact Hr.
Defined.

(** X15: the pairing of the two score lists is positional and stops at the
    shorter one.  Without direct loading, on a raw dataset that has a row
    and formatted rows whose two texts are strings, a pipeline that returns
    fewer result dicts than there are rows is therefore not noticed during
    inference: the run aborts only at the report step, with the ValueError
    of a results column of the wrong length. *)
Theorem main_short_pipeline_result conv_t get_conv_template prepare_dialogue
    reward_pipe default_collate (args : args_t) (raw : dataset)
    (loaded_pipe : pipe_state) (conv : conv_t) (ds : dataset)
    (tc tr : list value) (results_cho results_rej : list result_t) :
  direct_load args = false ->
  raw <> [] ->
  get_conv_template (chat_template args) = Ok conv ->
  prepare_dataset conv_t prepare_dialogue
    (custom_dialogue (select_adapter (model args) (chat_template args)))
    (pref_sets args) conv raw = Ok ds ->
  (forall ex, ex ∈ ds ->
     (exists s, ex !! "text_chosen" = Some (VStr s)) /\
     (exists s, ex !! "text_rejected" = Some (VStr s))) ->
  column ds "text_chosen" = Ok tc ->
  column ds "text_rejected" = Ok tr ->
  reward_pipe (set_pad_token loaded_pipe) [VList tc] = Ok (OutDicts results_cho) ->
  reward_pipe (set_pad_token loaded_pipe) [VList tr] = Ok (OutDicts results_rej) ->
  (length results_cho `min` length results_rej)%nat <> length raw ->
  run_inference (reward_pipe (set_pad_token loaded_pipe)) default_collate
    (model args) (chat_template args) (direct_load args) (batch_size args)
    (pipeline_builder (select_adapter (model args) (chat_template args))) ds
  = Ok (pairwise (map (fun r => SFloat (score r)) results_cho)
          (map (fun r => SFloat (score r)) results_rej),
        [[VList tr]; [VList tc]]) /\
  main conv_t get_conv_template prepare_dialogue reward_pipe
    default_collate args raw loaded_pipe = Raise ValueError.
Proof.
  intros Hdl Hne Hconv Hprep _ Htc Htr Hcho Hrej Hlen.
  assert (run_inference (reward_pipe (set_pad_token loaded_pipe))
            default_collate (model args) (chat_template args)
            (direct_load args) (batch_size args)
            (pipeline_builder
               (select_adapter (model args) (chat_template args))) ds
          = Ok (pairwise (map (fun r => SFloat (score r)) results_cho)
                  (map (fun r => SFloat (score r)) results_rej),
                [[VList tr]; [VList tc]])) as Hrun.
  { unfold run_inference. rewrite Hdl, inference_mode_no_direct_load.
    apply run_uniform_Ok.
    exists tr, tc, (OutDicts results_rej), (OutDicts results_cho),
      (map (fun r => SFloat (score r)) results_cho),
      (map (fun r => SFloat (score r)) results_rej).
    repeat split; try assumption; reflexivity. }
  split; [exact Hrun|].
  rewrite (main_rows _ _ _ _ _ _ _ _ _ _ Hconv Hprep Hne).
  rewrite Hrun. simpl. unfold process_results.
  rewrite add_column_ValueError; [reflexivity|].
  right. unfold pairwise.
  rewrite !length_map, length_zip_with, !length_map. exact Hlen.
Qed.

(** A pipeline that drops the last result of every call. *)
Lemma main_short_pipeline_result_witness :
  main unit (fun _ => Ok tt) sample_prepare_dialogue
    (fun _ => sample_lossy_pipe) sample_default_collate
    sample_args sample_raw sample_pipe_state = Raise ValueError.
Proof.
  refine (proj2 (main_short_pipeline_result unit (fun _ => Ok tt)
                   sample_prepare_dialogue (fun _ => sample_lossy_pipe)
                   sample_default_collate sample_args sample_raw
                   sample_pipe_state tt sample_formatted _ _ _ _
                   eq_refl _ eq_refl sample_raw_formatted _
                   sample_formatted_text_chosen sample_formatted_text_rejected
                   eq_refl eq_refl _)).
  - discriminate.
  - intros ex Hex. unfold sample_formatted in Hex.
    repeat (apply elem_of_cons in Hex as [->|Hex]);
      [split; eexists; reflexivity .. | inversion Hex].
  - simpl. lia.
Defined.

(** ** Which runs reach the manual loop *)

(** X16: with the adapter chosen from the two names, the manual batch loop
    runs exactly when direct loading is asked for and the first matching
    branch of the chain is one of Starling, openbmb, PairRM and SHP: one of
    these four substrings occurs in the model identifier or the template
    name and "oasst" occurs in neither. In every other case, direct loading
    of an oasst or unmatched model included, the uniform batched mode runs. *)
Theorem manual_loop_iff_custom_branch (model chat_template : string)
    (direct_load : bool) :
  (inference_mode direct_load
     (pipeline_builder (select_adapter model chat_template))
   = ManualBatchLoop <->
   direct_load = true /\
   ((occurs_in "Starling" model \/ occurs_in "Starling" chat_template) \/
    (occurs_in "openbmb" model \/ occurs_in "openbmb" chat_template) \/
    (occurs_in "PairRM" model \/ occurs_in "PairRM" chat_template) \/
    (occurs_in "SHP" model \/ occurs_in "SHP" chat_template)) /\
   ~ (occurs_in "oasst" model \/ occurs_in "oasst" chat_template)) /\
  (inference_mode direct_load
     (pipeline_builder (select_adapter model chat_template))
   = UniformBatched <->
   direct_load = false \/
   (occurs_in "oasst" model \/ occurs_in "oasst" chat_template) \/
   ~ ((occurs_in "Starling" model \/ occurs_in "Starling" chat_template) \/
      (occurs_in "openbmb" model \/ occurs_in "openbmb" chat_template) \/
      (occurs_in "PairRM" model \/ occurs_in "PairRM" chat_template) \/
      (occurs_in "SHP" model \/ occurs_in "SHP" chat_template))).
Proof.
  unfold inference_mode, select_adapter.
  destruct direct_load; simpl negb; simpl orb;
    split; chain_cases model chat_template.
Qed.

(** ** [main] in the pairwise branch of the manual loop *)

Lemma custom_dialogue_pipeline (model chat_template : string) :
  custom_dialogue (select_adapter model chat_template) = true ->
  pipeline_builder (select_adapter model chat_template) = PairRMPipeline \/
  pipeline_builder (select_adapter model chat_template) = SHPPipeline.
Proof.
  unfold select_adapter.
  destruct (in_str "oasst" model || in_str "oasst" chat_template),
    (in_str "Starling" model || in_str "Starling" chat_template),
    (in_str "openbmb" model || in_str "openbmb" chat_template),
    (in_str "PairRM" model || in_str "PairRM" chat_template),
    (in_str "SHP" model || in_str "SHP" chat_template);
    simpl; intuition congruence.
Qed.

(** X17: on the benchmark (not the preference test sets), with direct
    loading and the PairRM or SHP adapter selected, a batch size between 1
    and the number of rows, raw rows whose prompt, chosen and rejected
    fields are strings and which have a string subset and no results
    column, a formatting step that succeeds, and a pipeline that judges
    every pair of each batch on its own, [main] returns a report; under
    every subset of the raw dataset it holds the float quotient of the
    number of rows of the subset whose judgment is true by the number of
    its rows, whatever the batch size and the collation. *)
Theorem main_pairwise_report conv_t get_conv_template prepare_dialogue
    reward_pipe default_collate (args : args_t) (raw : dataset)
    (loaded_pipe : pipe_state) (conv : conv_t) (ds : dataset)
    (judge : value -> value -> scalar) :
  direct_load args = true ->
  pref_sets args = false ->
  custom_dialogue (select_adapter (model args) (chat_template args)) = true ->
  0 < batch_size args <= Z.of_nat (length raw) ->
  batch_size args < 2 ^ 63 ->
  get_conv_template (chat_template args) = Ok conv ->
  (forall ex c v, ex ∈ raw -> c ∈ ["prompt"; "chosen"; "rejected"] ->
     ex !! c = Some v -> exists s, v = VStr s) ->
  prepare_dataset conv_t prepare_dialogue true false conv raw = Ok ds ->
  judges_pairs (reward_pipe (set_pad_token loaded_pipe)) judge
    (chunks (Z.to_nat (batch_size args)) ds) ->
  (forall ex, ex ∈ raw ->
     ex !! "results" = None /\ exists s, ex !! "subset" = Some (VStr s)) ->
  exists tc tr report,
    column ds "text_chosen" = Ok tc /\
    column ds "text_rejected" = Ok tr /\
    main conv_t get_conv_template prepare_dialogue reward_pipe
      default_collate args raw loaded_pipe = Ok report /\
    forall subset,
      (exists ex, ex ∈ raw /\ ex !! "subset" = Some (VStr subset)) ->
      exists acc,
        py_truediv
          (sum_Z (verdicts_of_subset subset raw
                    (map native_verdict (zip_with judge tc tr))))
          (Z.of_nat
             (length (verdicts_of_subset subset raw
                        (map native_verdict (zip_with judge tc tr)))))
        = Ok acc /\
        report !! subset = Some (VFloat acc).
Proof.
  intros Hdl Hps Hcd Hpos Hmax Hconv _ Hprep Hpipe Hraw.
  assert (Hpb := custom_dialogue_pipeline _ _ Hcd).
  assert (Hnat := pairwise_adapter_native _ _ Hpb).
  assert (Forall turn_row ds) as Hrows.
  { apply (prepare_dataset_turn_rows _ _ _ _ _ _ Hprep). discriminate. }
  assert (Hlends := prepare_dataset_length _ _ _ _ _ _ _ Hprep).
  rewrite <- Hlends in Hpos.
  destruct (run_manual_native_pointwise
              (reward_pipe (set_pad_token loaded_pipe)) default_collate
              (model args) (chat_template args) judge ds (batch_size args)
              Hnat Hpos Hmax Hpipe Hrows)
    as (tc & tr & calls & Htc & Htr & Hrun & Hlen & _).
  rewrite Hlends in Hlen.
  destruct (process_results_report (model args) (chat_template args) raw _
              Hlen Hraw) as (report & Hrep & Hacc).
  exists tc, tr, report. split; [exact Htc|]. split; [exact Htr|].
  split; [|exact Hacc].
  rewrite (main_rows _ _ _ _ _ _ _ _ _ ds Hconv).
  2: { rewrite Hcd, Hps. exact Hprep. }
  2: { intros ->. simpl in Hlends. rewrite Hlends in Hpos. simpl in Hpos.
       lia. }
  unfold run_inference, inference_mode. rewrite Hdl.
  assert (pipeline_builder_eqb
            (pipeline_builder
               (select_adapter (model args) (chat_template args))) pipeline
          = false) as ->
    by (destruct Hpb as [-> | ->]; reflexivity).
  simpl. rewrite Hrun. simpl. exact Hrep.
Qed.

(** The two sample rows judged by the PairRM adapter in batches of one:
    both chosen answers win. *)
Lemma main_pairwise_report_witness :
  exists report,
    main unit (fun _ => Ok tt) sample_prepare_dialogue
      (fun _ => sample_judge_pipe) sample_default_collate
      sample_pairrm_args sample_raw sample_pipe_state = Ok report /\
    report !! "s1" = Some (VFloat (S754_finite false 4503599627370496 (-52))).
Proof.
  destruct (main_pairwise_report unit (fun _ => Ok tt) sample_prepare_dialogue
              (fun _ => sample_judge_pipe) sample_default_collate
              sample_pairrm_args sample_raw sample_pipe_state tt
              sample_structured sample_judge
              eq_refl eq_refl eq_refl)
    as (tc & tr & report & Htc & Htr & Hmain & Hrep).
  { simpl. lia. }
  { reflexivity. }
  { reflexivity. }
  { intros ex c v Hex Hc Hv. unfold sample_raw in Hex.
    repeat (apply elem_of_cons in Hex as [->|Hex]); [| |inversion Hex];
      repeat (apply elem_of_cons in Hc as [->|Hc]);
      try (inversion Hc); injection Hv as <-; eexists; reflexivity. }
  { exact sample_raw_structured. }
  { intros b tc tr _ _ _. reflexivity. }
  { intros ex Hex. unfold sample_raw in Hex.
    repeat (apply elem_of_cons in Hex as [->|Hex]);
      [split; [reflexivity | eexists; reflexivity] .. | inversion Hex]. }
  exists report. split; [exact Hmain|].
  destruct (Hrep "s1") as (acc & Hdiv & Hr).
  { eexists. split; [left | reflexivity]. }
  assert (column sample_structured "text_chosen"
          = Ok [ make_conversation (VStr "q1") (VStr "good1");
                 make_conversation (VStr "q2") (VStr "good2") ]) as Etc
    by (vm_compute; reflexivity).
  assert (column sample_structured "text_rejected"
          = Ok [ make_conversation (VStr "q1") (VStr "bad1");
                 make_conversation (VStr "q2") (VStr "bad2") ]) as Etr
    by (vm_compute; reflexivity).
  rewrite Etc in Htc. rewrite Etr in Htr.
  injection Htc as <-. injection Htr as <-.
  assert (py_truediv
            (sum_Z (verdicts_of_subset "s1" sample_raw
               (map native_verdict
                  (zip_with sample_judge
                     [ make_conversation (VStr "q1") (VStr "good1");
                       make_conversation (VStr "q2") (VStr "good2") ]
                     [ make_conversation (VStr "q1") (VStr "bad1");
                       make_conversation (VStr "q2") (VStr "bad2") ]))))
            (Z.of_nat (length (verdicts_of_subset "s1" sample_raw
               (map native_verdict
                  (zip_with sample_judge
                     [ make_conversation (VStr "q1") (VStr "good1");
                       make_conversation (VStr "q2") (VStr "good2") ]
                     [ make_conversation (VStr "q1") (VStr "bad1");
                       make_conversation (VStr "q2") (VStr "bad2") ])))))
          = Ok (S754_finite false 4503599627370496 (-52))) as Ediv
    by (vm_compute; reflexivity).
  rewrite Ediv in Hdiv. injection Hdiv as <-. exact Hr.
Defined.

